(** * plotgen: merging and auditing credible-set tables

    A shallow embedding of the two SQLite scripts of
    [scripts/merge_plot_tables]:

    - [merge_qts_sqlite_list.py], which merges the [credible_set_table] of
      every listed SQLite file into one deduplicated table, and
    - [extract_duplicate_rows_to_sqlite.py], which copies, for every listed
      file, two rows of each duplicated payload group into a side file,

    and of the list file [list_qts_sqlite_paths.py] writes for them.

    The SQL statements the scripts send to SQLite are modelled by their
    meaning on tables: a table is the list of its rows, a row is an integer
    [id] and a record of the seventeen payload columns. *)

From stdpp Require Import base list sorting strings gmap.
From Stdlib Require Import Ascii ZArith Lia DecimalString DecimalZ.
From Stdlib Require List.

Local Open Scope string_scope.
Local Open Scope list_scope.
Local Open Scope Z_scope.

(** ** SQLite values *)

Module SQLite.

(** An IEEE double as SQLite can store it: a NaN is stored as NULL, so it
    is not a REAL.  [RFinite neg m e] is [(-1)^neg * m * 2^e]. *)
Inductive real :=
| RZero (neg : bool)
| RInf (neg : bool)
| RFinite (neg : bool) (m : positive) (e : Z).

(** The five storage classes. *)
Inductive value :=
| VNull
| VInt (z : Z)
| VReal (r : real)
| VText (s : string)
| VBlob (b : string).

#[global] Instance real_eq_dec : EqDecision real.
Proof. solve_decision. Defined.

#[global] Instance value_eq_dec : EqDecision value.
Proof. solve_decision. Defined.

(** The number a numeric value stands for, in a form with one
    representative per number: an odd mantissa and a binary exponent. *)
Inductive number :=
| NumZero
| NumInf (neg : bool)
| NumDyadic (neg : bool) (m : positive) (e : Z).

Fixpoint odd_part (m : positive) (e : Z) : positive * Z :=
  match m with
  | xO m' => odd_part m' (e + 1)
  | _ => (m, e)
  end.

Definition number_of_real (r : real) : number :=
  match r with
  | RZero _ => NumZero
  | RInf neg => NumInf neg
  | RFinite neg m e => let '(m', e') := odd_part m e in NumDyadic neg m' e'
  end.

Definition number_of_int (z : Z) : number :=
  match z with
  | Z0 => NumZero
  | Zpos p => let '(m, e) := odd_part p 0 in NumDyadic false m e
  | Zneg p => let '(m, e) := odd_part p 0 in NumDyadic true m e
  end.

(** What SQLite's comparison looks at: the storage class, then the number,
    the text (BINARY collation) or the bytes.  INTEGER and REAL compare as
    numbers; values of different classes are never equal. *)
Inductive sort_key :=
| KNull
| KNumber (n : number)
| KText (s : string)
| KBlob (b : string).

#[global] Instance number_eq_dec : EqDecision number.
Proof. solve_decision. Defined.

#[global] Instance sort_key_eq_dec : EqDecision sort_key.
Proof. solve_decision. Defined.

Definition sort_key_of (v : value) : sort_key :=
  match v with
  | VNull => KNull
  | VInt z => KNumber (number_of_int z)
  | VReal r => KNumber (number_of_real r)
  | VText s => KText s
  | VBlob b => KBlob b
  end.

(** Equality as ORDER BY, GROUP BY and PARTITION BY see it: NULL is a
    value like another, equal to itself. *)
Definition same_value (v1 v2 : value) : bool :=
  bool_decide (sort_key_of v1 = sort_key_of v2).

Definition is_null (v : value) : bool :=
  match v with VNull => true | _ => false end.

(** Equality as a UNIQUE index sees it: a NULL is distinct from every
    value, another NULL included. *)
Definition unique_equal (v1 v2 : value) : bool :=
  negb (is_null v1) && negb (is_null v2) && same_value v1 v2.

(** [ifnull(x, y)] *)
Definition ifnull (x y : value) : value :=
  match x with VNull => y | _ => x end.

(** The decimal text of an INTEGER. *)
Definition int_to_text (z : Z) : string :=
  NilZero.string_of_int (Z.to_int z).

Section Cast.

(** The text SQLite prints for a REAL; it is SQLite's own, not the
    scripts', and nothing below depends on which text it is. *)
Variable real_to_text : real -> string.

(** [CAST(x AS TEXT)] *)
Definition cast_as_text (x : value) : value :=
  match x with
  | VNull => VNull
  | VInt z => VText (int_to_text z)
  | VReal r => VText (real_to_text r)
  | VText s => VText s
  | VBlob b => VText b
  end.

End Cast.

End SQLite.

(** ** The table both scripts read and write *)

Module Schema.
Import SQLite.

(** The columns of [credible_set_table] other than [id]. *)
Inductive column :=
| col_study_id
| col_study_label
| col_dataset_id
| col_molecular_trait_id
| col_gene_id
| col_gene_name
| col_variant
| col_rsid
| col_quantification_method
| col_credible_set
| col_credible_set_size
| col_pip
| col_pvalue
| col_beta
| col_se
| col_dataset_label
| col_plot_variant.

#[global] Instance column_eq_dec : EqDecision column.
Proof. solve_decision. Defined.

(** The seventeen non-id columns of one row.  SQLite lets any column hold a
    value of any storage class.  The values are those a table stores: the
    sources are created with the column types of the output table, so what
    is read from a source is already in the form the column of the output
    gives it, and INSERT ... SELECT between the two stores it unchanged. *)
Record payload := {
  study_id : value;
  study_label : value;
  dataset_id : value;
  molecular_trait_id : value;
  gene_id : value;
  gene_name : value;
  variant : value;
  rsid : value;
  quantification_method : value;
  credible_set : value;
  credible_set_size : value;
  pip : value;
  pvalue : value;
  beta : value;
  se : value;
  dataset_label : value;
  plot_variant : value
}.

#[global] Instance payload_eq_dec : EqDecision payload.
Proof. solve_decision. Defined.

(** The value a row holds in a column named in a statement. *)
Definition get (c : column) (p : payload) : value :=
  match c with
  | col_study_id => study_id p
  | col_study_label => study_label p
  | col_dataset_id => dataset_id p
  | col_molecular_trait_id => molecular_trait_id p
  | col_gene_id => gene_id p
  | col_gene_name => gene_name p
  | col_variant => variant p
  | col_rsid => rsid p
  | col_quantification_method => quantification_method p
  | col_credible_set => credible_set p
  | col_credible_set_size => credible_set_size p
  | col_pip => pip p
  | col_pvalue => pvalue p
  | col_beta => beta p
  | col_se => se p
  | col_dataset_label => dataset_label p
  | col_plot_variant => plot_variant p
  end.

(** [id INTEGER PRIMARY KEY NOT NULL] and the payload. *)
Record row := { id : Z; cols : payload }.

#[global] Instance row_eq_dec : EqDecision row.
Proof. solve_decision. Defined.

(** A table is the list of its rows, in the order they were inserted for a
    table a script fills, in any order for a table it reads.  A table read
    from a file has [id] as its primary key: *)
Abbreviation table := (list row).

Definition primary_key (t : table) : Prop := NoDup (map id t).

(** [ORDER BY id]: insertion sort, rows with equal ids stay in table
    order. *)
Fixpoint insert_by_id (r : row) (sorted : table) : table :=
  match sorted with
  | [] => [r]
  | r' :: rest =>
      if id r <=? id r' then r :: sorted else r' :: insert_by_id r rest
  end.

Fixpoint order_by_id (t : table) : table :=
  match t with
  | [] => []
  | r :: rest => insert_by_id r (order_by_id rest)
  end.

(** [SELECT COUNT( * ) FROM t] *)
Definition count_rows (t : table) : Z := Z.of_nat (length t).

(** A SQLite file: the [credible_set_table] when it has one, and the names
    of its indexes. *)
Record database := {
  credible_set_table : option table;
  indexes : list string
}.

(** What a path of the file system holds: a text file, as the lines a
    Python file object yields, or a SQLite file.  Directories are not
    tracked. *)
Inductive file :=
| TextFile (raw_lines : list string)
| SqliteFile (db : database).

(** The file system: what each path holds.  Paths and lines are strings
    of characters below 256. *)
Abbreviation filesystem := (gmap string file).

(** What the scripts raise. *)
Inductive error :=
| ValueError (message : string) (subject : string)
| UnicodeDecodeError (path : string)
| DatabaseError (message : string)
| OperationalError (message : string)
| IntegrityError (message : string).

Inductive result (A : Type) :=
| Ok (a : A)
| Raise (e : error).
Arguments Ok {A} a.
Arguments Raise {A} e.

End Schema.

(** ** Text and paths *)

Module Text.

(** [str.isspace] on one character below 256: tab to carriage return, the
    four separators, the space, NEL and the no-break space. *)
Definition isspace (c : ascii) : bool :=
  let n := N_of_ascii c in
  ((9 <=? n) && (n <=? 13) || (28 <=? n) && (n <=? 32)
   || (n =? 133) || (n =? 160))%N.

Fixpoint lstrip (s : string) : string :=
  match s with
  | EmptyString => EmptyString
  | String c rest => if isspace c then lstrip rest else s
  end.

Fixpoint rstrip (s : string) : string :=
  match s with
  | EmptyString => EmptyString
  | String c rest =>
      match rstrip rest with
      | EmptyString => if isspace c then EmptyString else String c EmptyString
      | kept => String c kept
      end
  end.

(** [str.strip()] *)
Definition strip (s : string) : string := rstrip (lstrip s).

(** [not line] for a string. *)
Definition is_empty (s : string) : bool :=
  match s with EmptyString => true | _ => false end.

(** [Path.is_absolute()] on a POSIX path. *)
Definition is_absolute (p : string) : bool :=
  match p with
  | String "/" _ => true
  | _ => false
  end.

(** [Path.resolve()]: an absolute path stays, a relative one is taken from
    the working directory.  Symbolic links and [..] are left alone. *)
Definition resolve (cwd : string) (p : string) : string :=
  if is_absolute p then p else cwd +:+ "/" +:+ p.

End Text.

(** ** merge_qts_sqlite_list.py *)

Module Merge.
Import SQLite Schema Text.

Definition NON_ID_COLUMNS : list column :=
  [ col_study_id; col_study_label; col_dataset_id; col_molecular_trait_id;
    col_gene_id; col_gene_name; col_variant; col_rsid;
    col_quantification_method; col_credible_set; col_credible_set_size;
    col_pip; col_pvalue; col_beta; col_se; col_dataset_label;
    col_plot_variant ].

(** [--input-list] and [--output-sqlite] *)
Record args := { input_list : string; output_sqlite : string }.

(** The connection to the output file once [create_output_table] has run:
    the rows of its [credible_set_table] in insertion order and its
    indexes. *)
Record connection := {
  path : string;
  rows : table;
  index_names : list string
}.

(** What [main] prints. *)
Record report := {
  merged_output : string;
  input_files : Z;
  total_input_rows : Z;
  merged_rows : Z;
  duplicate_rows_removed : Z
}.

Section Script.

Variable real_to_text : real -> string.

(** The working directory of the process. *)
Variable cwd : string.

(** The loop of [read_sqlite_paths] over the lines of the list file. *)
Fixpoint read_lines (fs : filesystem) (raw_lines : list string)
    (paths : list string) : result (list string) :=
  match raw_lines with
  | [] => Ok paths
  | raw_line :: rest =>
      let line := strip raw_line in
      if is_empty line then read_lines fs rest paths
      else
        let path := resolve cwd line in
        if negb (is_absolute path) then
          Raise (ValueError "Expected absolute path in input list, got: " line)
        else if negb (bool_decide (is_Some (fs !! path))) then
          Raise (ValueError "Input SQLite file does not exist: " path)
        else read_lines fs rest (paths ++ [path])
  end.

Definition read_sqlite_paths (fs : filesystem) (list_file : string)
    : result (list string) :=
  match fs !! list_file with
  | None => Raise (ValueError "Input list file does not exist: " list_file)
  | Some (SqliteFile _) => Raise (UnicodeDecodeError list_file)
  | Some (TextFile raw_lines) =>
      match read_lines fs raw_lines [] with
      | Raise e => Raise e
      | Ok [] =>
          Raise (ValueError "Input list file has no SQLite paths: " list_file)
      | Ok paths => Ok paths
      end
  end.

(** The expressions of the unique index [uq_full_row_tmp], evaluated on a
    row: [ifnull(CAST(column AS TEXT), '__NULL__')] for each column. *)
Definition dedup_expr (p : payload) : list value :=
  map (fun column =>
         ifnull (cast_as_text real_to_text (get column p)) (VText "__NULL__"))
      NON_ID_COLUMNS.

(** Two index entries collide when they are equal component by component,
    for the equality of a UNIQUE index. *)
Fixpoint index_collision (k1 k2 : list value) : bool :=
  match k1, k2 with
  | [], [] => true
  | v1 :: k1', v2 :: k2' => unique_equal v1 v2 && index_collision k1' k2'
  | _, _ => false
  end.

Definition is_duplicate (p1 p2 : payload) : bool :=
  index_collision (dedup_expr p1) (dedup_expr p2).

(** [connect] to a file that does not exist, then [create_output_table]. *)
Definition create_output_table (output : string) : connection :=
  {| path := output; rows := []; index_names := ["uq_full_row_tmp"] |}.

(** The id an INTEGER PRIMARY KEY gets when the INSERT names none: one more
    than the largest in the table, 1 in an empty table.  The largest rowid
    SQLite has, 2^63 - 1, is out of reach of a table filled from 1 and is
    left out. *)
Definition new_rowid (t : table) : Z :=
  match map id t with
  | [] => 1
  | i :: ids => fold_left Z.max ids i + 1
  end.

(** [INSERT OR IGNORE] of one row of the SELECT. *)
Definition insert_or_ignore (t : table) (p : payload) : table :=
  if existsb (fun r => is_duplicate (cols r) p) t then t
  else t ++ [ {| id := new_rowid t; cols := p |} ].

(** [insert_new_rows]: the payloads of the attached table, [ORDER BY id],
    inserted one by one. *)
Definition insert_new_rows (conn : connection) (source : table) : connection :=
  {| path := path conn;
     rows := fold_left insert_or_ignore (map cols (order_by_id source)) (rows conn);
     index_names := index_names conn |}.

(** [conn.commit()] *)
Definition commit (conn : connection) (fs : filesystem) : filesystem :=
  <[path conn := SqliteFile {| credible_set_table := Some (rows conn);
                               indexes := index_names conn |}]> fs.

(** [ATTACH DATABASE] and the first statement on the attached table. *)
Definition attached_table (fs : filesystem) (source_path : string)
    : result table :=
  match fs !! source_path with
  | Some (SqliteFile db) =>
      match credible_set_table db with
      | Some t => Ok t
      | None => Raise (OperationalError "no such table: credible_set_table")
      end
  | Some (TextFile _) => Raise (DatabaseError "file is not a database")
  | None => Raise (OperationalError "no such table: credible_set_table")
  end.

(** [merge_inputs]; the alias [src_N] only names the attachment. *)
Fixpoint merge_inputs (conn : connection) (fs : filesystem)
    (input_paths : list string) (per_file_counts : list (string * Z))
    : result (list (string * Z)) * connection * filesystem :=
  match input_paths with
  | [] => (Ok per_file_counts, conn, fs)
  | source_path :: rest =>
      match attached_table fs source_path with
      | Raise e => (Raise e, conn, fs)
      | Ok source =>
          let row_count := count_rows source in
          let per_file_counts := per_file_counts ++ [(source_path, row_count)] in
          let conn := insert_new_rows conn source in
          let fs := commit conn fs in
          merge_inputs conn fs rest per_file_counts
      end
  end.

Definition create_final_indexes (conn : connection) : connection :=
  {| path := path conn;
     rows := rows conn;
     index_names :=
       List.filter (fun name => negb (String.eqb name "uq_full_row_tmp"))
                   (index_names conn)
       ++ [ "idx_molecular_trait_id"; "idx_gene_name"; "idx_credible_set";
            "idx_variant"; "idx_rsid"; "idx_dataset"; "idx_for_plotting" ] |}.

(** [sum(count for _, count in per_file_counts)] *)
Definition sum_counts (per_file_counts : list (string * Z)) : Z :=
  fold_left Z.add (map snd per_file_counts) 0.

(** [main]: the result and the file system it leaves.  Directories are not
    tracked, so the [mkdir] of the output's parent leaves no trace; the
    [unlink] of an output that exists is the [delete]. *)
Definition main (a : args) (fs : filesystem) : result report * filesystem :=
  let input_list := resolve cwd (input_list a) in
  let output_sqlite := resolve cwd (output_sqlite a) in
  match read_sqlite_paths fs input_list with
  | Raise e => (Raise e, fs)
  | Ok input_paths =>
      let fs := delete output_sqlite fs in
      let conn := create_output_table output_sqlite in
      let fs := commit conn fs in
      match merge_inputs conn fs input_paths [] with
      | (Raise e, _, fs) => (Raise e, fs)
      | (Ok per_file_counts, conn, fs) =>
          let conn := create_final_indexes conn in
          let merged_rows := count_rows (rows conn) in
          let fs := commit conn fs in
          let total_input_rows := sum_counts per_file_counts in
          let duplicate_rows_removed := total_input_rows - merged_rows in
          (Ok {| merged_output := output_sqlite;
                 input_files := Z.of_nat (length per_file_counts);
                 total_input_rows := total_input_rows;
                 merged_rows := merged_rows;
                 duplicate_rows_removed := duplicate_rows_removed |}, fs)
      end
  end.

End Script.

End Merge.

(** ** extract_duplicate_rows_to_sqlite.py *)

Module Extract.
Import SQLite Schema Text.

Definition NON_ID_COLUMNS : list column :=
  [ col_study_id; col_study_label; col_dataset_id; col_molecular_trait_id;
    col_gene_id; col_gene_name; col_variant; col_rsid;
    col_quantification_method; col_credible_set; col_credible_set_size;
    col_pip; col_pvalue; col_beta; col_se; col_dataset_label;
    col_plot_variant ].

(** A row of the inner SELECT: the row and its two window columns. *)
Record ranked_row := { selected : row; rn : nat; grp_count : nat }.

Section Script.

(** The working directory of the process. *)
Variable cwd : string.

(** The loop of [read_sqlite_paths] over the lines of the list file. *)
Fixpoint read_lines (fs : filesystem) (raw_lines : list string)
    (paths : list string) : result (list string) :=
  match raw_lines with
  | [] => Ok paths
  | raw_line :: rest =>
      let line := strip raw_line in
      if is_empty line then read_lines fs rest paths
      else
        let path := resolve cwd line in
        if negb (is_absolute path) then
          Raise (ValueError "Expected absolute path in input list, got: " line)
        else if negb (bool_decide (is_Some (fs !! path))) then
          Raise (ValueError "Input SQLite file does not exist: " path)
        else read_lines fs rest (paths ++ [path])
  end.

Definition read_sqlite_paths (fs : filesystem) (list_file : string)
    : result (list string) :=
  match fs !! list_file with
  | None => Raise (ValueError "Input list file does not exist: " list_file)
  | Some (SqliteFile _) => Raise (UnicodeDecodeError list_file)
  | Some (TextFile raw_lines) =>
      match read_lines fs raw_lines [] with
      | Raise e => Raise e
      | Ok [] =>
          Raise (ValueError "Input list file has no SQLite paths: " list_file)
      | Ok paths => Ok paths
      end
  end.

End Script.

(** [PARTITION BY] the seventeen columns: two rows are in one partition
    when every column holds the same value in both. *)
Definition same_partition (p1 p2 : payload) : bool :=
  forallb (fun column => same_value (get column p1) (get column p2))
          NON_ID_COLUMNS.

(** The rows of a list that are in the partition of [r]. *)
Definition partition_of (r : row) (t : table) : table :=
  List.filter (fun r' => same_partition (cols r) (cols r')) t.

(** [ROW_NUMBER() OVER (PARTITION BY ... ORDER BY id)], along the rows in id
    order: a row is numbered one more than the rows of its partition that
    come [before] it. *)
Fixpoint row_numbers (before rest : table) : list (row * nat) :=
  match rest with
  | [] => []
  | r :: rest' =>
      (r, S (length (partition_of r before)))
        :: row_numbers (before ++ [r]) rest'
  end.

(** The inner SELECT: every row with [rn] and with [grp_count], the
    [COUNT( * ) OVER (PARTITION BY ...)]. *)
Definition ranked (t : table) : list ranked_row :=
  map (fun '(r, n) =>
         {| selected := r; rn := n; grp_count := length (partition_of r t) |})
      (row_numbers [] (order_by_id t)).

(** The outer SELECT: [WHERE grp_count > 1 AND rn <= 2 ORDER BY id]. *)
Definition select_duplicates (t : table) : table :=
  order_by_id
    (map selected
       (List.filter (fun x => (1 <? grp_count x)%nat && (rn x <=? 2)%nat)
                    (ranked t))).

(** [INSERT INTO outdb.credible_set_table (id, ...)]: the ids are given, and
    the primary key of the output table refuses one it already holds. *)
Fixpoint insert_rows (out : table) (selection : list row) : result table :=
  match selection with
  | [] => Ok out
  | r :: rest =>
      if bool_decide (id r ∈ map id out) then
        Raise (IntegrityError "UNIQUE constraint failed: credible_set_table.id")
      else insert_rows (out ++ [r]) rest
  end.

(** The table the unqualified [credible_set_table] of the query names: the
    one of the file the connection was opened on or, when that file has
    none, the table just created in [outdb], which has no rows.  A path
    that held no file is opened as a database without tables; the empty
    file SQLite leaves there is not tracked. *)
Definition source_table (fs : filesystem) (source_db : string) : result table :=
  match fs !! source_db with
  | Some (SqliteFile db) =>
      match credible_set_table db with
      | Some t => Ok t
      | None => Ok []
      end
  | Some (TextFile _) => Raise (DatabaseError "file is not a database")
  | None => Ok []
  end.

Definition output_file (t : table) : file :=
  SqliteFile {| credible_set_table := Some t; indexes := [] |}.

(** The file ATTACH makes at a path that holds none: a database without
    tables. *)
Definition empty_database : file :=
  SqliteFile {| credible_set_table := None; indexes := [] |}.

(** [extract_duplicates_for_file]: the row count it returns and the file
    system it leaves.  The messages of [log_progress] are left out.  A
    source that is not a database fails the ATTACH, which reads the schema
    of the source, and leaves the output as ATTACH made it; an INSERT that
    fails is undone, and the [finally] commits the empty table. *)
Definition extract_duplicates_for_file (fs : filesystem)
    (source_db output_db : string) : result Z * filesystem :=
  let fs := delete output_db fs in
  match source_table fs source_db with
  | Raise e => (Raise e, <[output_db := empty_database]> fs)
  | Ok t =>
      let fs := <[output_db := output_file []]> fs in
      match insert_rows [] (select_duplicates t) with
      | Raise e => (Raise e, fs)
      | Ok out =>
          let row_count := count_rows out in
          (Ok row_count, <[output_db := output_file out]> fs)
      end
  end.

End Extract.

(** ** extract_duplicate_rows_to_sqlite.py: the run over the list *)

Module ExtractMain.
Import SQLite Schema Text.

(** [--input-list] and [--output-dir] *)
Record args := { input_list : string; output_dir : string }.

(** The pieces of a path between its slashes. *)
Fixpoint segments (p : string) : list string :=
  match p with
  | EmptyString => [EmptyString]
  | String c rest =>
      if Ascii.eqb c "/" then EmptyString :: segments rest
      else match segments rest with
           | seg :: more => String c seg :: more
           | [] => [String c EmptyString]
           end
  end.

(** The components of an absolute path after its root, as [Path] parses
    it: empty pieces and [.] are dropped. *)
Definition components (p : string) : list string :=
  List.filter (fun seg => negb (String.eqb seg "") && negb (String.eqb seg "."))
              (segments p).

(** [Path.name] and [Path.parent], on the components: the root has the
    empty name and is its own parent. *)
Definition name (parts : list string) : string := List.last parts "".

Definition parent (parts : list string) : list string := List.removelast parts.

(** The truth value of a [Path] object: always true. *)
Definition path_bool (parts : list string) : bool := true.

(** [format(index, "02d")] *)
Definition format_02d (index : Z) : string :=
  if (0 <=? index) && (index <? 10) then "0" +:+ int_to_text index
  else int_to_text index.

Definition output_name_for (source_path : string) (index : Z) : string :=
  let parent_name := name (parent (components source_path)) in
  let grandparent_name :=
    if path_bool (parent (parent (components source_path)))
    then name (parent (parent (components source_path)))
    else "root" in
  format_02d index +:+ "_" +:+ grandparent_name +:+ "__" +:+ parent_name
    +:+ "__duplicates.sqlite".

(** [output_dir / name] for a relative [name]. *)
Definition joinpath (dir name : string) : string :=
  if String.eqb dir "/" then "/" +:+ name else dir +:+ "/" +:+ name.

(** The loop of [main] from the index [i] on. *)
Fixpoint main_loop (fs : filesystem) (output_dir : string) (i : Z)
    (input_paths : list string) (total_rows : Z) : result Z * filesystem :=
  match input_paths with
  | [] => (Ok total_rows, fs)
  | source_db :: rest =>
      let output_db := joinpath output_dir (output_name_for source_db i) in
      match Extract.extract_duplicates_for_file fs source_db output_db with
      | (Raise e, fs) => (Raise e, fs)
      | (Ok rows, fs) => main_loop fs output_dir (i + 1) rest (total_rows + rows)
      end
  end.

(** [main]: the total it logs and the file system it leaves.  Directories
    are not tracked, so the [mkdir] of the output directory leaves no
    trace. *)
Definition main (cwd : string) (a : args) (fs : filesystem)
    : result Z * filesystem :=
  let input_list := resolve cwd (input_list a) in
  let output_dir := resolve cwd (output_dir a) in
  match Extract.read_sqlite_paths cwd fs input_list with
  | Raise e => (Raise e, fs)
  | Ok input_paths => main_loop fs output_dir 1 input_paths 0
  end.

End ExtractMain.

(** ** list_qts_sqlite_paths.py: the list file it writes *)

Module ListPaths.
Import Text.

(** What the loop of [main] writes for the matched paths: each path and a
    newline. *)
Definition write_list (matched : list string) : string :=
  fold_right (fun path written => path +:+ String "010" written) "" matched.

(** The lines a Python text file yields for a content, with universal
    newlines: a line ends after a line feed, a carriage return or the two
    in a row, and is handed out ending in a line feed; what follows the
    last line end is a last line when it is not empty. *)
Fixpoint lines_from (content : string) (line : string) : list string :=
  match content with
  | EmptyString => if is_empty line then [] else [line]
  | String c rest =>
      if Ascii.eqb c "010" then (line +:+ String "010" "") :: lines_from rest ""
      else if Ascii.eqb c "013" then
        match rest with
        | String c' rest' =>
            if Ascii.eqb c' "010"
            then (line +:+ String "010" "") :: lines_from rest' ""
            else (line +:+ String "010" "") :: lines_from rest ""
        | EmptyString => [line +:+ String "010" ""]
        end
      else lines_from rest (line +:+ String c "")
  end.

Definition readlines (content : string) : list string := lines_from content "".

End ListPaths.

(** ** Notions the properties are stated with *)

Module Spec.
Import SQLite Schema Text.

Section Distinct.
Context {A : Type} (same : A -> A -> bool).

(** One element per class of [same], the first of each, in list order. *)
Fixpoint distinct_by (l : list A) : list A :=
  match l with
  | [] => []
  | x :: rest => x :: List.filter (fun y => negb (same x y)) (distinct_by rest)
  end.

(** Keeping an element unless one of its class is already kept. *)
Definition keep_first (kept : list A) (x : A) : list A :=
  if existsb (fun a => same a x) kept then kept else kept ++ [x].

End Distinct.

(** Rows in ascending id order. *)
Definition le_id (a b : row) : Prop := id a <= id b.

Definition lt_id (a b : row) : Prop := id a < id b.

Definition is_text (v : value) : Prop := exists s, v = VText s.

(** The ids of a table filled from empty: 1, 2, 3, ... *)
Definition ids_from_one (t : table) : Prop :=
  map id t = map Z.of_nat (seq 1 (length t)).

(** The payloads of the sources in the order the merge meets them: source
    after source, and by ascending id within a source. *)
Definition encounter (sources : list table) : list payload :=
  concat (map (fun source => map cols (order_by_id source)) sources).

(** The first record met of every identity key. *)
Definition first_seen (real_to_text : real -> string) (l : list payload)
    : list payload :=
  distinct_by (Merge.is_duplicate real_to_text) l.

(** The table and the output file of a merge that ends well. *)
Definition merged_table (real_to_text : real -> string) (sources : list table)
    : table :=
  fold_left (Merge.insert_or_ignore real_to_text) (encounter sources) [].

Definition final_file (real_to_text : real -> string) (sources : list table)
    : file :=
  SqliteFile
    {| credible_set_table := Some (merged_table real_to_text sources);
       indexes := [ "idx_molecular_trait_id"; "idx_gene_name"; "idx_credible_set";
                    "idx_variant"; "idx_rsid"; "idx_dataset"; "idx_for_plotting" ] |}.

(** The identity key of a record as the extraction compares it: the
    seventeen attributes, each as SQLite compares values, a NULL being a
    value equal to itself. *)
Definition attributes (p : payload) : list sort_key :=
  [ sort_key_of (study_id p); sort_key_of (study_label p);
    sort_key_of (dataset_id p); sort_key_of (molecular_trait_id p);
    sort_key_of (gene_id p); sort_key_of (gene_name p);
    sort_key_of (variant p); sort_key_of (rsid p);
    sort_key_of (quantification_method p); sort_key_of (credible_set p);
    sort_key_of (credible_set_size p); sort_key_of (pip p);
    sort_key_of (pvalue p); sort_key_of (beta p); sort_key_of (se p);
    sort_key_of (dataset_label p); sort_key_of (plot_variant p) ].

Definition same_attributes (p q : payload) : bool :=
  bool_decide (attributes p = attributes q).

(** The duplicate group of a row in a table: the rows with its identity
    key.  The rank of a row is the number of rows of its group with a
    smaller id. *)
Definition group (g : row) (t : table) : table :=
  List.filter (fun r => same_attributes (cols g) (cols r)) t.

Definition rank (o : row) (t : table) : nat :=
  length (List.filter (fun r => id r <? id o) (group o t)).

(** One row per group of a table, and the number of groups with two rows
    or more. *)
Definition group_representatives (t : table) : table :=
  distinct_by (fun r r' => same_attributes (cols r) (cols r')) t.

Definition duplicate_groups (t : table) : nat :=
  length (List.filter (fun g => (2 <=? length (group g t))%nat)
                      (group_representatives t)).

(** The identity key of a record as the merge compares it: the seventeen
    attributes as texts, a NULL as the text [__NULL__]. *)
Definition canonical (real_to_text : real -> string) (v : value) : string :=
  match v with
  | VNull => "__NULL__"
  | VInt z => int_to_text z
  | VReal r => real_to_text r
  | VText s => s
  | VBlob b => b
  end.

Definition identity_key (real_to_text : real -> string) (p : payload)
    : list string :=
  map (canonical real_to_text)
    [ study_id p; study_label p; dataset_id p; molecular_trait_id p;
      gene_id p; gene_name p; variant p; rsid p; quantification_method p;
      credible_set p; credible_set_size p; pip p; pvalue p; beta p; se p;
      dataset_label p; plot_variant p ].

Definition same_identity (real_to_text : real -> string) (p q : payload) : bool :=
  bool_decide (identity_key real_to_text p = identity_key real_to_text q).

(** A path that holds a SQLite file with the table [t]. *)
Definition has_table (fs : filesystem) (p : string) (t : table) : Prop :=
  exists db, fs !! p = Some (SqliteFile db) /\ credible_set_table db = Some t.

(** The order in which the merge meets the records: the record [r] of the
    [k]-th source is met before the record [r'] of the [k']-th when its
    source is listed first, or when the two are in one source and its id
    is the smaller. *)
Definition met_before (k : nat) (r : row) (k' : nat) (r' : row) : Prop :=
  (k < k')%nat \/ (k = k' /\ id r < id r').

Definition met_no_later (x y : nat * row) : Prop :=
  (x.1 < y.1)%nat \/ (x.1 = y.1 /\ id x.2 <= id y.2).

(** A record of the [k]-th source that is the first met of its identity
    key: no record of that key is met before it. *)
Definition first_of_key (real_to_text : real -> string) (sources : list table)
    (k : nat) (r : row) : Prop :=
  (exists s, sources !! k = Some s /\ In r s) /\
  forall k' s' r',
    sources !! k' = Some s' -> In r' s' ->
    same_identity real_to_text (cols r') (cols r) = true ->
    ~ met_before k' r' k r.

(** The records of the sources from the [k]-th on, each with the place of
    its source in the list, in the order the merge reads them. *)
Fixpoint met_from (k : nat) (sources : list table) : list (nat * row) :=
  match sources with
  | [] => []
  | s :: rest => map (pair k) (order_by_id s) ++ met_from (S k) rest
  end.

(** The rows the WHERE clause of the extraction keeps of numbered rows,
    before the final ORDER BY. *)
Definition kept_rows (t : table) (numbered : list (row * nat)) : table :=
  map Extract.selected
    (List.filter
       (fun x => (1 <? Extract.grp_count x)%nat && (Extract.rn x <=? 2)%nat)
       (map (fun '(r, n) =>
               {| Extract.selected := r; Extract.rn := n;
                  Extract.grp_count := length (Extract.partition_of r t) |})
            numbered)).

(** The white space of Python among the characters below 256: the tab,
    the line feed, the vertical tab, the form feed, the carriage return,
    the four separators 28 to 31, the space, the next line (133) and the
    no-break space (160). *)
Definition white_space : list N :=
  [9; 10; 11; 12; 13; 28; 29; 30; 31; 32; 133; 160]%N.

Definition white (c : ascii) : bool :=
  existsb (N.eqb (N_of_ascii c)) white_space.

(** A line made of white space only. *)
Definition whitespace_only (s : string) : bool :=
  forallb white (String.list_ascii_of_string s).

(** A string without white space at its ends. *)
Fixpoint last_character (c : ascii) (s : string) : ascii :=
  match s with
  | EmptyString => c
  | String c' rest => last_character c' rest
  end.

Definition trimmed (s : string) : bool :=
  match s with
  | EmptyString => true
  | String c rest => negb (white c) && negb (white (last_character c rest))
  end.

End Spec.

(** ** Notions for the runs over a list *)

Module Runs.
Import SQLite Schema Text.

(** A string without the character [c]. *)
Definition lacks (c : ascii) (s : string) : bool :=
  forallb (fun c' => negb (Ascii.eqb c' c)) (String.list_ascii_of_string s).

(** A path that fits on one line of a text file. *)
Definition one_line (p : string) : bool := lacks "010" p && lacks "013" p.

(** A path as [Path.resolve()] returns it: from the root, with a last
    component, and no component that is empty, [.] or [..]. *)
Definition resolved (p : string) : bool :=
  match ExtractMain.segments p with
  | EmptyString :: part :: parts =>
      forallb (fun seg => negb (String.eqb seg "") && negb (String.eqb seg ".")
                          && negb (String.eqb seg ".."))
              (part :: parts)
  | _ => false
  end.

(** The output files of a run of the extraction over [input_paths], the
    first of them numbered [i]. *)
Fixpoint output_paths (output_dir : string) (i : Z) (input_paths : list string)
    : list string :=
  match input_paths with
  | [] => []
  | source_db :: rest =>
      ExtractMain.joinpath output_dir (ExtractMain.output_name_for source_db i)
        :: output_paths output_dir (i + 1) rest
  end.

(** Two rows for each partition of two rows or more, over all tables. *)
Definition rows_to_extract (tables : list table) : Z :=
  fold_right Z.add 0
    (map (fun t => 2 * Z.of_nat (Spec.duplicate_groups t)) tables).

(** A listed file that has its table, with [id] as the primary key. *)
Definition source_with_table (fs : filesystem) (p : string) (t : table) : Prop :=
  exists db, fs !! p = Some (SqliteFile db) /\ credible_set_table db = Some t /\
             primary_key t.

End Runs.

(** ** Sample data *)

Module Sample.
Import SQLite Schema Text.

(** A text for REAL values, to run the merge on samples. *)
Definition real_text (r : real) : string := "0.0".

(** A record of the gene [gene] with the variant [v] and the rsid [rs]. *)
Definition record (gene : string) (v rs : value) : payload :=
  {| study_id := VText "QTS000001"; study_label := VText "study";
     dataset_id := VText "QTD000001"; molecular_trait_id := VText gene;
     gene_id := VText gene; gene_name := VText "GENE";
     variant := v; rsid := rs;
     quantification_method := VText "ge"; credible_set := VText "L1";
     credible_set_size := VInt 3; pip := VNull; pvalue := VNull;
     beta := VNull; se := VNull; dataset_label := VText "blood";
     plot_variant := v |}.

Definition key (n : Z) : payload :=
  record "ENSG01" (VText ("chr1_" +:+ int_to_text n)) VNull.

(** Three tables of five rows; [table_b] repeats one record of [table_a],
    [table_c] one of [table_a] and one of [table_b]. *)
Definition table_a : table :=
  [ {| id := 3; cols := key 3 |}; {| id := 1; cols := key 1 |};
    {| id := 2; cols := key 2 |}; {| id := 5; cols := key 5 |};
    {| id := 4; cols := key 4 |} ].

Definition table_b : table :=
  [ {| id := 1; cols := key 6 |}; {| id := 2; cols := key 1 |};
    {| id := 3; cols := key 7 |}; {| id := 4; cols := key 8 |};
    {| id := 5; cols := key 9 |} ].

Definition table_c : table :=
  [ {| id := 1; cols := key 10 |}; {| id := 2; cols := key 2 |};
    {| id := 3; cols := key 6 |}; {| id := 4; cols := key 11 |};
    {| id := 5; cols := key 12 |} ].

(** The rows the merge of the three tables leaves: the records of
    [table_a] by ascending id, then the new ones of [table_b] and of
    [table_c], numbered from 1. *)
Definition merged_abc : table :=
  map (fun n => {| id := n; cols := key n |}) [1; 2; 3; 4; 5; 6; 7; 8; 9; 10; 11; 12].

(** A table with a partition of four rows, one of two and one of one. *)
Definition table_d : table :=
  [ {| id := 5; cols := key 1 |}; {| id := 2; cols := key 2 |};
    {| id := 3; cols := key 1 |}; {| id := 1; cols := key 1 |};
    {| id := 9; cols := key 3 |}; {| id := 7; cols := key 1 |};
    {| id := 8; cols := key 2 |} ].

(** The rows to extract from [table_d]: the rows 1 and 3 of the group of
    four, the rows 2 and 8 of the group of two. *)
Definition table_d_duplicates : table :=
  [ {| id := 1; cols := key 1 |}; {| id := 2; cols := key 2 |};
    {| id := 3; cols := key 1 |}; {| id := 8; cols := key 2 |} ].

Definition sqlite_file (t : table) : file :=
  SqliteFile {| credible_set_table := Some t; indexes := [] |}.

Definition list_lines : list string :=
  [ "/data/a/QTS1.sqlite"; ""; "  /data/b/QTS2.sqlite "; "   ";
    "/data/c/QTS3.sqlite" ].

Definition files : filesystem :=
  <["/data/inputs.txt" := TextFile list_lines]>
    (<["/data/a/QTS1.sqlite" := sqlite_file table_a]>
       (<["/data/b/QTS2.sqlite" := sqlite_file table_b]>
          (<["/data/c/QTS3.sqlite" := sqlite_file table_c]>
             (<["/data/d/QTS4.sqlite" := sqlite_file table_d]> ∅)))).

Definition paths : list string :=
  [ "/data/a/QTS1.sqlite"; "/data/b/QTS2.sqlite"; "/data/c/QTS3.sqlite" ].

Definition merge_args : Merge.args :=
  {| Merge.input_list := "inputs.txt"; Merge.output_sqlite := "merged.sqlite" |}.

End Sample.

(** ** More sample data *)

Module Sample2.
Import SQLite Schema Text.

(** A list whose second file is a database without the table. *)
Definition files_bad : filesystem :=
  <["/data/bad.txt" :=
      TextFile ["/data/a/QTS1.sqlite"; "/data/e/QTS0.sqlite"; "/data/b/QTS2.sqlite"]]>
    (<["/data/e/QTS0.sqlite" :=
         SqliteFile {| credible_set_table := None; indexes := [] |}]> Sample.files).

Definition bad_args : Merge.args :=
  {| Merge.input_list := "bad.txt"; Merge.output_sqlite := "merged.sqlite" |}.

(** A list whose second path does not exist. *)
Definition files_missing : filesystem :=
  <["/data/missing.txt" :=
      TextFile ["/data/a/QTS1.sqlite"; "/data/x/QTS9.sqlite"; "not read"]]>
    Sample.files.

Definition missing_args : Merge.args :=
  {| Merge.input_list := "missing.txt"; Merge.output_sqlite := "merged.sqlite" |}.

(** A table made without a primary key, holding one row twice. *)
Definition table_e : table :=
  [ {| id := 4; cols := Sample.key 2 |}; {| id := 1; cols := Sample.key 1 |};
    {| id := 1; cols := Sample.key 1 |} ].

(** A list for the extraction whose second file holds [table_e]. *)
Definition files_repeated : filesystem :=
  <["/data/extract.txt" :=
      TextFile ["/data/d/QTS4.sqlite"; "/data/f/QTS5.sqlite"; "/data/a/QTS1.sqlite"]]>
    (<["/data/f/QTS5.sqlite" := Sample.sqlite_file table_e]> Sample.files).

(** A list for the extraction. *)
Definition files_extract : filesystem :=
  <["/data/extract.txt" :=
      TextFile ["/data/d/QTS4.sqlite"; "/data/a/QTS1.sqlite"]]> Sample.files.

Definition extract_args : ExtractMain.args :=
  {| ExtractMain.input_list := "extract.txt"; ExtractMain.output_dir := "/out" |}.

Definition extract_paths : list string :=
  [ "/data/d/QTS4.sqlite"; "/data/a/QTS1.sqlite" ].

(** The list file the lister writes for the three sources. *)
Definition files_written : filesystem :=
  <["/data/list.txt" :=
      TextFile (ListPaths.readlines (ListPaths.write_list Sample.paths))]>
    Sample.files.

(** [table_d] as stored in another order. *)
Definition table_d_stored : table := rev Sample.table_d.

End Sample2.

(** * Properties *)

Import SQLite Schema Text Spec.

(** ** Numbers and their text *)

Lemma odd_part_value m e :
  0 <= e ->
  0 <= (odd_part m e).2 /\
  Z.pos (odd_part m e).1 * 2 ^ (odd_part m e).2 = Z.pos m * 2 ^ e.
Proof.
  revert e. induction m as [m IH | m IH |]; intros e He; simpl;
    try (split; [lia | reflexivity]).
  destruct (IH (e + 1)) as [H1 H2]; [lia |]. split; [exact H1 |].
  rewrite H2, Z.pow_add_r by lia. lia.
Qed.

Lemma odd_part_inj p q : odd_part p 0 = odd_part q 0 -> p = q.
Proof.
  intros H.
  pose proof (odd_part_value p 0 ltac:(lia)) as [_ Hp].
  pose proof (odd_part_value q 0 ltac:(lia)) as [_ Hq].
  rewrite H in Hp. rewrite Hp in Hq. simpl in Hq. lia.
Qed.

Lemma number_of_int_inj z1 z2 : number_of_int z1 = number_of_int z2 -> z1 = z2.
Proof.
  destruct z1 as [| p | p], z2 as [| q | q]; simpl; try reflexivity;
    repeat match goal with
      | |- context [odd_part ?x 0] =>
          let E := fresh "E" in destruct (odd_part x 0) eqn:E
      end; intros H; try discriminate;
    injection H as -> ->; f_equal; apply odd_part_inj; congruence.
Qed.

Lemma to_int_not_nil z :
  Z.to_int z <> Decimal.Pos Decimal.Nil /\ Z.to_int z <> Decimal.Neg Decimal.Nil.
Proof.
  assert (Hp : forall p, Pos.to_uint p <> Decimal.Nil).
  { intros p Hnil.
    pose proof (DecimalPos.Unsigned.of_to p) as Hof.
    rewrite Hnil in Hof. discriminate. }
  destruct z; simpl; split; try discriminate; intros H; injection H; apply Hp.
Qed.

Lemma int_to_text_inj z1 z2 : int_to_text z1 = int_to_text z2 -> z1 = z2.
Proof.
  unfold int_to_text. intros H. apply to_int_inj.
  destruct (to_int_not_nil z1) as [A1 B1], (to_int_not_nil z2) as [A2 B2].
  pose proof (NilZero.isi _ A1 B1) as H1.
  pose proof (NilZero.isi _ A2 B2) as H2.
  rewrite H in H1. congruence.
Qed.

Lemma int_to_text_not_sentinel z : int_to_text z <> "__NULL__".
Proof.
  unfold int_to_text. intros H.
  destruct (to_int_not_nil z) as [A B].
  pose proof (NilZero.isi _ A B) as Hz. rewrite H in Hz. discriminate.
Qed.

(** ** ORDER BY id *)

Lemma insert_by_id_perm r s : insert_by_id r s ≡ₚ r :: s.
Proof.
  induction s as [| r' s IH]; simpl; [reflexivity |].
  destruct (id r <=? id r'); [reflexivity |].
  rewrite IH. apply perm_swap.
Qed.

Lemma order_by_id_perm t : order_by_id t ≡ₚ t.
Proof.
  induction t as [| r t IH]; simpl; [reflexivity |].
  rewrite insert_by_id_perm. by rewrite IH.
Qed.

Lemma order_by_id_In r t : In r (order_by_id t) <-> In r t.
Proof.
  split; apply Permutation_in; [| symmetry]; apply order_by_id_perm.
Qed.

Lemma order_by_id_length t : length (order_by_id t) = length t.
Proof. apply Permutation_length, order_by_id_perm. Qed.

Lemma insert_by_id_sorted r s :
  StronglySorted le_id s -> StronglySorted le_id (insert_by_id r s).
Proof.
  induction 1 as [| r' s Hs IH Hall]; simpl.
  - repeat constructor.
  - destruct (Z.leb_spec (id r) (id r')) as [Hle | Hgt].
    + constructor; [by constructor |].
      constructor; [exact Hle |].
      eapply Forall_impl; [exact Hall |].
      intros x Hx. unfold le_id in *. lia.
    + constructor; [exact IH |].
      rewrite insert_by_id_perm. constructor; [| exact Hall].
      unfold le_id. lia.
Qed.

Lemma order_by_id_sorted t : StronglySorted le_id (order_by_id t).
Proof.
  induction t as [| r t IH]; simpl; [constructor |].
  by apply insert_by_id_sorted.
Qed.

Lemma insert_by_id_head r s : Forall (le_id r) s -> insert_by_id r s = r :: s.
Proof.
  destruct 1 as [| r' s Hle _]; simpl; [reflexivity |].
  unfold le_id in Hle. by destruct (Z.leb_spec (id r) (id r')); [| lia].
Qed.

Lemma order_by_id_fixed t : StronglySorted le_id t -> order_by_id t = t.
Proof.
  induction 1 as [| r t Hs IH Hall]; simpl; [reflexivity |].
  rewrite IH. by apply insert_by_id_head.
Qed.

Lemma filter_insert_by_id (f : row -> bool) r s :
  StronglySorted le_id s ->
  List.filter f (insert_by_id r s) =
  if f r then insert_by_id r (List.filter f s) else List.filter f s.
Proof.
  induction 1 as [| r' s Hs IH Hall]; simpl.
  - by destruct (f r).
  - destruct (Z.leb_spec (id r) (id r')) as [Hle | Hgt]; simpl.
    + destruct (f r) eqn:Er; [| reflexivity].
      symmetry. apply insert_by_id_head.
      assert (Hrs : Forall (le_id r) (r' :: s)).
      { constructor; [exact Hle |].
        eapply Forall_impl; [exact Hall |].
        intros x Hx. unfold le_id in *. lia. }
      rewrite Forall_forall in Hrs. apply Forall_forall.
      intros x Hx. apply Hrs. apply list_elem_of_In.
      apply list_elem_of_In in Hx.
      change (In x (List.filter f (r' :: s))) in Hx.
      apply List.filter_In in Hx. tauto.
    + rewrite IH. destruct (f r'), (f r); simpl; try reflexivity.
      by destruct (Z.leb_spec (id r) (id r')); [lia |].
Qed.

Lemma filter_order_by_id (f : row -> bool) t :
  List.filter f (order_by_id t) = order_by_id (List.filter f t).
Proof.
  induction t as [| r t IH]; simpl; [reflexivity |].
  rewrite filter_insert_by_id by apply order_by_id_sorted.
  rewrite IH. by destruct (f r).
Qed.

Lemma In_firstn {A} (x : A) n l : In x (firstn n l) -> In x l.
Proof.
  revert n. induction l as [| y l IH]; intros [| n]; simpl; try tauto.
  intros [-> | H]; [by left | right; eauto].
Qed.

Lemma firstn_sorted n t :
  StronglySorted le_id t -> StronglySorted le_id (firstn n t).
Proof.
  intros Hs. revert n. induction Hs as [| r t Hs IH Hall]; intros [| n]; simpl;
    try constructor; [apply IH |].
  rewrite Forall_forall in Hall. apply Forall_forall.
  intros x Hx. apply Hall. apply list_elem_of_In.
  apply list_elem_of_In in Hx. eapply In_firstn, Hx.
Qed.

(** ** Lists cut into the classes of an equivalence *)

Lemma filter_filter_andb {A} (f g : A -> bool) l :
  List.filter f (List.filter g l) = List.filter (fun x => g x && f x) l.
Proof.
  induction l as [| x l IH]; simpl; [reflexivity |].
  destruct (g x); simpl; [destruct (f x) |]; by rewrite IH.
Qed.

Lemma filter_none {A} (f : A -> bool) l :
  (forall x, In x l -> f x = false) -> List.filter f l = [].
Proof.
  induction l as [| x l IH]; simpl; intros H; [reflexivity |].
  rewrite (H x) by tauto. apply IH. intros y Hy. apply H. tauto.
Qed.

Lemma filter_all {A} (f : A -> bool) l :
  (forall x, In x l -> f x = true) -> List.filter f l = l.
Proof.
  induction l as [| x l IH]; simpl; intros H; [reflexivity |].
  rewrite (H x) by tauto. f_equal. apply IH. intros y Hy. apply H. tauto.
Qed.

Lemma existsb_map {A B} (f : B -> bool) (g : A -> B) l :
  existsb f (map g l) = existsb (fun x => f (g x)) l.
Proof. induction l as [| x l IH]; simpl; [reflexivity | by rewrite IH]. Qed.

Section Classes.

Context {A : Type} (same : A -> A -> bool).
Hypothesis same_sym : forall x y, same x y = same y x.
Hypothesis same_trans :
  forall x y z, same x y = true -> same y z = true -> same x z = true.

Lemma same_congr x y z : same x y = true -> same x z = same y z.
Proof using same_sym same_trans.
  intros Hxy. destruct (same y z) eqn:Hyz.
  - eauto.
  - destruct (same x z) eqn:Hxz; [| reflexivity].
    rewrite same_sym in Hxy. rewrite <- Hyz. symmetry. eauto.
Qed.


Lemma fold_keep_first l kept :
  fold_left (keep_first same) l kept =
  kept ++ List.filter (fun x => negb (existsb (fun a => same a x) kept))
                      (distinct_by same l).
Proof using same_sym same_trans.
  revert kept. induction l as [| x l IH]; intros kept; simpl.
  - by rewrite app_nil_r.
  - rewrite IH, filter_filter_andb. unfold keep_first.
    destruct (existsb (fun a => same a x) kept) eqn:Hx; simpl.
    + f_equal. apply List.filter_ext_in. intros y _.
      destruct (existsb (fun a => same a y) kept) eqn:Hy;
        [by rewrite andb_false_r | rewrite andb_true_r].
      destruct (same x y) eqn:Hxy; [| reflexivity].
      apply existsb_exists in Hx as (a & Ha & Hax).
      assert (existsb (fun a => same a y) kept = true); [| congruence].
      apply existsb_exists. exists a. eauto.
    + rewrite <- app_assoc. simpl. do 2 f_equal.
      apply List.filter_ext. intros y.
      rewrite existsb_app. simpl. rewrite orb_false_r, negb_orb.
      apply andb_comm.
Qed.

(** A list whose elements all have their class in [t] is as long as its
    classes together. *)
Lemma length_by_classes t l :
  (forall x, In x l -> exists y, In y t /\ same y x = true) ->
  length l =
  sum_list (map (fun g => length (List.filter (same g) l)) (distinct_by same t)).
Proof using same_sym same_trans.
  revert l. induction t as [| r t IH]; intros l Hl; simpl.
  - destruct l as [| x l]; [reflexivity |].
    destruct (Hl x) as (y & [] & _). by left.
  - set (l2 := List.filter (fun x => negb (same r x)) l).
    assert (Hsplit : length l = (length (List.filter (same r) l) + length l2)%nat).
    { unfold l2. clear. induction l as [| x l IHl]; simpl; [reflexivity |].
      destruct (same r x); simpl; lia. }
    rewrite Hsplit. f_equal.
    rewrite (IH l2).
    + clear IH Hsplit Hl.
      induction (distinct_by same t) as [| g gs IHg]; simpl; [reflexivity |].
      assert (Hg : same r g = false ->
                   List.filter (same g) l2 = List.filter (same g) l).
      { intros Hrg. unfold l2. rewrite filter_filter_andb.
        apply List.filter_ext. intros y.
        destruct (same g y) eqn:Hgy; [| by rewrite andb_false_r].
        rewrite andb_true_r. rewrite same_sym in Hrg.
        by rewrite same_sym, <- (same_congr g y r Hgy), Hrg. }
      destruct (same r g) eqn:Hrg; simpl.
      * rewrite <- IHg.
        assert (List.filter (same g) l2 = []) as ->; [| reflexivity].
        apply filter_none. intros y Hy. apply List.filter_In in Hy as [_ Hy].
        rewrite same_sym in Hrg.
        rewrite (same_congr g r y Hrg). by destruct (same r y).
      * rewrite Hg by reflexivity. by rewrite IHg.
    + intros x Hx. apply List.filter_In in Hx as [Hx Hrx].
      destruct (Hl x Hx) as (y & [-> | Hy] & Hyx); [| by eauto].
      by rewrite Hyx in Hrx.
Qed.

End Classes.

(** ** The unique index of the merge *)

Section MergeFacts.

Variable real_to_text : real -> string.

Local Abbreviation is_duplicate := (Merge.is_duplicate real_to_text).
Local Abbreviation dedup_expr := (Merge.dedup_expr real_to_text).
Local Abbreviation insert_or_ignore := (Merge.insert_or_ignore real_to_text).

Lemma index_collision_text k1 k2 :
  Forall is_text k1 -> Forall is_text k2 ->
  Merge.index_collision k1 k2 = bool_decide (k1 = k2).
Proof.
  intros H1. revert k2. induction H1 as [| v1 k1 [s1 ->] _ IH];
    intros k2 H2; destruct H2 as [| v2 k2 [s2 ->] H2]; simpl;
    try reflexivity; try (symmetry; by apply bool_decide_eq_false_2).
  rewrite (IH k2 H2). unfold unique_equal, same_value. simpl.
  destruct (decide (s1 = s2)) as [-> | Hne].
  - rewrite bool_decide_eq_true_2 by reflexivity. simpl.
    apply bool_decide_ext. split; congruence.
  - rewrite bool_decide_eq_false_2 by congruence. simpl.
    symmetry. apply bool_decide_eq_false_2. congruence.
Qed.

Lemma dedup_expr_text p : Forall is_text (dedup_expr p).
Proof.
  unfold Merge.dedup_expr. apply Forall_forall. intros v Hv.
  apply list_elem_of_In, in_map_iff in Hv as (c & <- & _).
  destruct (get c p); simpl; eexists; reflexivity.
Qed.

Lemma is_duplicate_key p q :
  is_duplicate p q = bool_decide (dedup_expr p = dedup_expr q).
Proof. apply index_collision_text; apply dedup_expr_text. Qed.

Lemma is_duplicate_refl p : is_duplicate p p = true.
Proof. rewrite is_duplicate_key. by apply bool_decide_eq_true_2. Qed.

Lemma is_duplicate_sym p q : is_duplicate p q = is_duplicate q p.
Proof. rewrite !is_duplicate_key. apply bool_decide_ext. split; congruence. Qed.

Lemma is_duplicate_trans p q r :
  is_duplicate p q = true -> is_duplicate q r = true -> is_duplicate p r = true.
Proof.
  rewrite !is_duplicate_key, !bool_decide_eq_true. congruence.
Qed.

Lemma fold_max_seq a k :
  fold_left Z.max (map Z.of_nat (seq (S a) k)) (Z.of_nat a) = Z.of_nat (a + k).
Proof.
  revert a. induction k as [| k IH]; intros a; cbn [seq map fold_left].
  - f_equal. lia.
  - replace (Z.of_nat a `max` Z.of_nat (S a)) with (Z.of_nat (S a)) by lia.
    rewrite IH. f_equal. lia.
Qed.

Lemma new_rowid_from_one t :
  ids_from_one t -> Merge.new_rowid t = Z.of_nat (S (length t)).
Proof.
  unfold ids_from_one, Merge.new_rowid. intros ->.
  destruct (length t) as [| n]; simpl; [reflexivity |].
  rewrite (fold_max_seq 1 n). lia.
Qed.

Lemma ids_from_one_insert t p : ids_from_one t -> ids_from_one (insert_or_ignore t p).
Proof.
  intros Ht. unfold Merge.insert_or_ignore.
  destruct (existsb _ t); [exact Ht |].
  unfold ids_from_one in *.
  rewrite map_app, length_app, Ht. simpl.
  rewrite new_rowid_from_one by exact Ht.
  replace (length t + 1)%nat with (S (length t)) by lia.
  rewrite seq_S, map_app. reflexivity.
Qed.

Lemma ids_from_one_fold l t :
  ids_from_one t -> ids_from_one (fold_left insert_or_ignore l t).
Proof.
  revert t. induction l as [| p l IH]; intros t Ht; simpl; [exact Ht |].
  by apply IH, ids_from_one_insert.
Qed.

Lemma insert_or_ignore_prefix l t : t `prefix_of` fold_left insert_or_ignore l t.
Proof.
  revert t. induction l as [| p l IH]; intros t; simpl; [reflexivity |].
  etransitivity; [| apply IH].
  unfold Merge.insert_or_ignore. destruct (existsb _ t); [reflexivity |].
  by apply prefix_app_r.
Qed.

Lemma cols_insert_or_ignore l t :
  map cols (fold_left insert_or_ignore l t) =
  fold_left (keep_first is_duplicate) l (map cols t).
Proof.
  revert t. induction l as [| p l IH]; intros t; simpl; [reflexivity |].
  rewrite IH. f_equal.
  unfold Merge.insert_or_ignore, keep_first.
  rewrite existsb_map.
  destruct (existsb _ t); [reflexivity |]. by rewrite map_app.
Qed.

(** Filling an empty table keeps the first record met of each key. *)
Lemma cols_fill l :
  map cols (fold_left insert_or_ignore l []) = first_seen real_to_text l.
Proof.
  rewrite cols_insert_or_ignore. simpl.
  rewrite (fold_keep_first _ is_duplicate_sym is_duplicate_trans). simpl.
  by apply filter_all.
Qed.

End MergeFacts.

(** ** The loop over the sources *)



Lemma filter_map {A B} (f : B -> bool) (g : A -> B) l :
  List.filter f (map g l) = map g (List.filter (fun x => f (g x)) l).
Proof.
  induction l as [| x l IH]; simpl; [reflexivity |].
  destruct (f (g x)); simpl; by rewrite IH.
Qed.


Section MergeLoop.

Variable real_to_text : real -> string.

Local Abbreviation is_duplicate := (Merge.is_duplicate real_to_text).
Local Abbreviation insert_or_ignore := (Merge.insert_or_ignore real_to_text).
Local Abbreviation merge_inputs := (Merge.merge_inputs real_to_text).

Lemma attached_table_commit conn fs p :
  p <> Merge.path conn ->
  Merge.attached_table (Merge.commit conn fs) p = Merge.attached_table fs p.
Proof.
  intros Hp. unfold Merge.attached_table, Merge.commit.
  by rewrite lookup_insert_ne.
Qed.

Lemma commit_commit conn conn' fs :
  Merge.path conn' = Merge.path conn ->
  Merge.commit conn' (Merge.commit conn fs) = Merge.commit conn' fs.
Proof. intros H. unfold Merge.commit. rewrite H. apply insert_insert_eq. Qed.

(** When every listed file has its table and none is the output file, the
    loop ends well: it has counted each table and filled the output with
    the records in the order it met them. *)
Lemma merge_inputs_ok paths sources conn fs per_file_counts :
  ~ In (Merge.path conn) paths ->
  Forall2 (fun p s => Merge.attached_table fs p = Ok s) paths sources ->
  merge_inputs conn (Merge.commit conn fs) paths per_file_counts =
  (Ok (per_file_counts ++ zip_with (fun p s => (p, count_rows s)) paths sources),
   {| Merge.path := Merge.path conn;
      Merge.rows := fold_left insert_or_ignore (encounter sources) (Merge.rows conn);
      Merge.index_names := Merge.index_names conn |},
   Merge.commit
     {| Merge.path := Merge.path conn;
        Merge.rows := fold_left insert_or_ignore (encounter sources) (Merge.rows conn);
        Merge.index_names := Merge.index_names conn |} fs).
Proof.
  intros Hout Hall. revert conn per_file_counts Hout.
  induction Hall as [| p s paths sources Hp Hall IH]; intros conn acc Hout.
  - simpl. rewrite app_nil_r. by destruct conn.
  - simpl in Hout. cbn [Merge.merge_inputs].
    rewrite attached_table_commit by (intros ->; tauto).
    rewrite Hp. rewrite commit_commit by reflexivity.
    rewrite IH by (simpl; tauto).
    cbn [zip_with]. rewrite <- app_assoc.
    unfold encounter. cbn [map concat]. rewrite fold_left_app.
    reflexivity.
Qed.

(** Conversely the loop ends well only if every listed file has its
    table. *)
Lemma merge_inputs_inv paths conn fs per_file_counts counts conn' fs' :
  ~ In (Merge.path conn) paths ->
  merge_inputs conn (Merge.commit conn fs) paths per_file_counts =
    (Ok counts, conn', fs') ->
  exists sources,
    Forall2 (fun p s => Merge.attached_table fs p = Ok s) paths sources.
Proof.
  revert conn per_file_counts.
  induction paths as [| p paths IH]; intros conn acc Hout Hrun.
  - exists []. constructor.
  - simpl in Hout. cbn [Merge.merge_inputs] in Hrun.
    rewrite attached_table_commit in Hrun by (intros ->; tauto).
    destruct (Merge.attached_table fs p) as [s |] eqn:Hp; [| discriminate].
    rewrite commit_commit in Hrun by reflexivity.
    apply IH in Hrun as [sources Hall]; [| simpl; tauto].
    exists (s :: sources). by constructor.
Qed.


End MergeLoop.

(** ** First writer wins *)


Lemma encounter_app l1 l2 : encounter (l1 ++ l2) = encounter l1 ++ encounter l2.
Proof. unfold encounter. by rewrite map_app, concat_app. Qed.

Lemma encounter_cons s l : encounter (s :: l) = map cols (order_by_id s) ++ encounter l.
Proof. reflexivity. Qed.

Lemma encounter_In q l :
  In q (encounter l) <-> exists s r, In s l /\ In r s /\ q = cols r.
Proof.
  unfold encounter. rewrite in_concat. split.
  - intros (qs & Hqs & Hq). apply in_map_iff in Hqs as (s & <- & Hs).
    apply in_map_iff in Hq as (r & <- & Hr). rewrite order_by_id_In in Hr.
    by exists s, r.
  - intros (s & r & Hs & Hr & ->). exists (map cols (order_by_id s)). split.
    + apply in_map_iff. eauto.
    + apply in_map. by rewrite order_by_id_In.
Qed.



(** ** NULL in the identity key *)

(** Without the [ifnull] a NULL would never collide in the unique index. *)
Remark unique_equal_null : unique_equal VNull VNull = false.
Proof. reflexivity. Qed.



(** ** Lists in order and the first elements of their classes *)

Lemma StronglySorted_lookup {A} (R : A -> A -> Prop) (l : list A) i j x y :
  StronglySorted R l -> (i < j)%nat ->
  l !! i = Some x -> l !! j = Some y -> R x y.
Proof.
  intros Hs. revert i j. induction Hs as [| a l Hs IH Hall];
    intros i j Hij Hi Hj; [by rewrite lookup_nil in Hi |].
  destruct j as [| j]; [lia |]. simpl in Hj.
  destruct i as [| i]; simpl in Hi.
  - injection Hi as <-. rewrite Forall_forall in Hall.
    eapply Hall, list_elem_of_lookup_2, Hj.
  - eapply (IH i j); [lia | exact Hi | exact Hj].
Qed.

Lemma StronglySorted_filter {A} (R : A -> A -> Prop) (f : A -> bool) l :
  StronglySorted R l -> StronglySorted R (List.filter f l).
Proof.
  induction 1 as [| a l Hs IH Hall]; simpl; [constructor |].
  destruct (f a); [| exact IH]. constructor; [exact IH |].
  rewrite Forall_forall in Hall. apply Forall_forall. intros x Hx.
  apply Hall. apply list_elem_of_In. apply list_elem_of_In in Hx.
  apply List.filter_In in Hx. tauto.
Qed.


(** Every element has the first of its class among the chosen ones. *)
Lemma distinct_by_covers {A} (same : A -> A -> bool) l x :
  (forall a, same a a = true) ->
  (forall a b, same a b = same b a) ->
  (forall a b c, same a b = true -> same b c = true -> same a c = true) ->
  In x l -> exists y, In y (distinct_by same l) /\ same y x = true.
Proof.
  intros Hrefl Hsym Htrans. induction l as [| a l IH]; simpl; [tauto |].
  intros [-> | Hx]; [exists x; split; [by left | apply Hrefl] |].
  destruct (IH Hx) as (y & Hy & Hyx).
  destruct (same a y) eqn:Hay.
  - exists a. split; [by left | eauto].
  - exists y. split; [| exact Hyx]. right. apply List.filter_In.
    by rewrite Hay.
Qed.

Lemma distinct_by_map {A B} (f : A -> B) (same : B -> B -> bool) l :
  map f (distinct_by (fun x y => same (f x) (f y)) l) = distinct_by same (map f l).
Proof.
  induction l as [| a l IH]; simpl; [reflexivity |].
  by rewrite <- IH, filter_map.
Qed.

Lemma distinct_by_elem {A} (same : A -> A -> bool) x l :
  In x (distinct_by same l) -> In x l.
Proof.
  induction l as [| y l IH]; simpl; [tauto |].
  intros [-> | Hx]; [by left |]. apply List.filter_In in Hx as [Hx _]. auto.
Qed.

Lemma distinct_by_sorted {A} (R : A -> A -> Prop) (same : A -> A -> bool) l :
  StronglySorted R l -> StronglySorted R (distinct_by same l).
Proof.
  induction 1 as [| a l Hs IH Hall]; simpl; [constructor |].
  constructor; [by apply StronglySorted_filter |].
  rewrite Forall_forall in Hall. apply Forall_forall. intros x Hx.
  apply Hall. apply list_elem_of_In. apply list_elem_of_In in Hx.
  apply List.filter_In in Hx as [Hx _]. by apply distinct_by_elem in Hx.
Qed.

(** In a list in order, the element chosen for a class comes no later
    than any element of the class. *)
Lemma distinct_by_first {A} (R : A -> A -> Prop) (same : A -> A -> bool) l x y :
  StronglySorted R l ->
  In x (distinct_by same l) -> In y l -> same y x = true ->
  x = y \/ R x y.
Proof.
  induction 1 as [| a l Hs IH Hall]; simpl; [tauto |].
  rewrite Forall_forall in Hall.
  intros [<- | Hx] [<- | Hy] Hsame.
  - by left.
  - right. by apply Hall, list_elem_of_In.
  - apply List.filter_In in Hx as [_ Hx]. by rewrite Hsame in Hx.
  - apply List.filter_In in Hx as [Hx _]. by apply IH.
Qed.

(** ** The ids of the merged table *)

Lemma ids_from_one_lookup (t : table) i o :
  ids_from_one t -> t !! i = Some o -> id o = Z.of_nat i + 1.
Proof.
  unfold ids_from_one. intros Hids Hi.
  assert (Hm : (id <$> t) !! i = Some (id o)).
  { by rewrite list_lookup_fmap, Hi. }
  change (id <$> t) with (map id t) in Hm. rewrite Hids in Hm.
  change (map Z.of_nat ?l) with (Z.of_nat <$> l) in Hm.
  rewrite list_lookup_fmap in Hm.
  destruct (seq 1 (length t) !! i) as [k |] eqn:Hk; [| discriminate].
  apply lookup_seq in Hk as [-> _]. simpl in Hm. injection Hm as <-. lia.
Qed.

(** The unique index compares the identity keys: the attributes as texts,
    a NULL as the text [__NULL__]. *)
Lemma ifnull_cast rt v :
  ifnull (cast_as_text rt v) (VText "__NULL__") = VText (canonical rt v).
Proof. by destruct v. Qed.

Lemma dedup_expr_identity rt p :
  Merge.dedup_expr rt p = map VText (identity_key rt p).
Proof.
  unfold Merge.dedup_expr, identity_key, Merge.NON_ID_COLUMNS.
  cbn [map get]. by rewrite !ifnull_cast.
Qed.

Lemma is_duplicate_identity rt p q :
  Merge.is_duplicate rt p q = same_identity rt p q.
Proof.
  rewrite is_duplicate_key, !dedup_expr_identity. unfold same_identity.
  apply bool_decide_ext. split; [| congruence].
  generalize (identity_key rt p) (identity_key rt q).
  induction l as [| x l IH]; intros [| y k]; simpl; try done.
  intros [= -> H]. f_equal. by apply IH.
Qed.

(** The records in the order the merge reads them. *)
Lemma met_from_In k sources j r :
  In (j, r) (met_from k sources) <->
  exists s, (k <= j)%nat /\ sources !! (j - k)%nat = Some s /\ In r s.
Proof.
  revert k. induction sources as [| s rest IH]; intros k.
  - simpl. split; [tauto | by intros (s & _ & ? & _)].
  - cbn [met_from]. rewrite in_app_iff, IH, in_map_iff. split.
    + intros [(r' & [= <- <-] & Hr) | (s' & Hk & Hs' & Hr)].
      * exists s. rewrite Nat.sub_diag, order_by_id_In in *. by split.
      * exists s'. split; [lia |]. split; [| exact Hr].
        replace (j - k)%nat with (S (j - S k)) by lia. exact Hs'.
    + intros (s' & Hk & Hs' & Hr).
      destruct (decide (j = k)) as [-> | Hjk].
      * left. rewrite Nat.sub_diag in Hs'. injection Hs' as <-.
        exists r. by rewrite order_by_id_In.
      * right. exists s'. split; [lia |]. split; [| exact Hr].
        replace (j - k)%nat with (S (j - S k)) in Hs' by lia. exact Hs'.
Qed.

Lemma met_from_sorted k sources : StronglySorted met_no_later (met_from k sources).
Proof.
  revert k. induction sources as [| s rest IH]; intros k; [constructor |].
  cbn [met_from]. apply StronglySorted_app_2; [| | apply IH].
  - intros [k1 r1] [k2 r2] H1 H2. left. simpl.
    apply list_elem_of_In, in_map_iff in H1 as (r' & [= <- _] & _).
    apply list_elem_of_In, met_from_In in H2 as (s' & Hk & _). lia.
  - apply (StronglySorted_fmap _ le_id); [| apply order_by_id_sorted].
    intros x y Hxy. right. by split.
Qed.

Lemma met_from_cols k sources :
  map (fun x : nat * row => cols x.2) (met_from k sources) = encounter sources.
Proof.
  revert k. induction sources as [| s rest IH]; intros k; [reflexivity |].
  cbn [met_from]. by rewrite map_app, List.map_map, IH, encounter_cons.
Qed.

Lemma has_table_attached (fs : filesystem) p t :
  has_table fs p t -> Merge.attached_table fs p = Ok t.
Proof. intros (db & Hdb & Ht). unfold Merge.attached_table. by rewrite Hdb, Ht. Qed.

Section AcceptanceOrder.

Variable rt : real -> string.
Variable sources : list table.

Let same_met (x y : nat * row) : bool :=
  Merge.is_duplicate rt (cols x.2) (cols y.2).

Let accepted : list (nat * row) := distinct_by same_met (met_from 0 sources).

Lemma accepted_cols :
  map (fun x : nat * row => cols x.2) accepted
  = map cols (fold_left (Merge.insert_or_ignore rt) (encounter sources) []).
Proof using Type.
  unfold accepted, same_met.
  rewrite (distinct_by_map (fun x : nat * row => cols x.2) (Merge.is_duplicate rt)).
  by rewrite met_from_cols, cols_fill.
Qed.

Lemma accepted_lookup i o :
  fold_left (Merge.insert_or_ignore rt) (encounter sources) [] !! i = Some o ->
  exists k r, accepted !! i = Some (k, r) /\ cols r = cols o.
Proof using Type.
  intros Hi.
  assert (Hm : (cols <$> fold_left (Merge.insert_or_ignore rt)
                            (encounter sources) []) !! i = Some (cols o)).
  { by rewrite list_lookup_fmap, Hi. }
  change (cols <$> ?l) with (map cols l) in Hm. rewrite <- accepted_cols in Hm.
  change (map ?f ?l) with (f <$> l) in Hm. rewrite list_lookup_fmap in Hm.
  destruct (accepted !! i) as [[k r] |]; [| discriminate].
  injection Hm as Hm. by exists k, r.
Qed.

Lemma accepted_first k r : In (k, r) accepted -> first_of_key rt sources k r.
Proof using Type.
  intros Hx. split.
  - apply distinct_by_elem, met_from_In in Hx as (s & _ & Hs & Hr).
    rewrite Nat.sub_0_r in Hs. by exists s.
  - intros k' s' r' Hs' Hr' Hsame Hbefore.
    assert (Hy : In (k', r') (met_from 0 sources)).
    { apply met_from_In. exists s'. rewrite Nat.sub_0_r. split; [lia | by split]. }
    destruct (distinct_by_first met_no_later same_met (met_from 0 sources)
                (k, r) (k', r') (met_from_sorted 0 sources) Hx Hy) as [Heq | Hle].
    + unfold same_met. simpl. by rewrite is_duplicate_identity.
    + injection Heq as -> ->. unfold met_before in Hbefore. lia.
    + unfold met_no_later, met_before in *. simpl in Hle. lia.
Qed.

(** Two records that are both the first met of one key are met at the
    same time. *)
Lemma first_of_key_same k r k' r' :
  first_of_key rt sources k r -> first_of_key rt sources k' r' ->
  cols r = cols r' -> k = k' /\ id r = id r'.
Proof using Type.
  intros [(s & Hs & Hr) H] [(s' & Hs' & Hr') H'] Hcols.
  assert (H1 : same_identity rt (cols r') (cols r) = true).
  { rewrite Hcols, <- is_duplicate_identity. apply is_duplicate_refl. }
  assert (H2 : same_identity rt (cols r) (cols r') = true).
  { rewrite Hcols, <- is_duplicate_identity. apply is_duplicate_refl. }
  specialize (H k' s' r' Hs' Hr' H1). specialize (H' k s r Hs Hr H2).
  unfold met_before in *. lia.
Qed.

Lemma accepted_order i j oi oj ki ri kj rj :
  fold_left (Merge.insert_or_ignore rt) (encounter sources) [] !! i = Some oi ->
  fold_left (Merge.insert_or_ignore rt) (encounter sources) [] !! j = Some oj ->
  first_of_key rt sources ki ri -> cols oi = cols ri ->
  first_of_key rt sources kj rj -> cols oj = cols rj ->
  met_before ki ri kj rj -> (i < j)%nat.
Proof using Type.
  intros Hi Hj Hfi Hci Hfj Hcj Hbefore.
  destruct (accepted_lookup i oi Hi) as (ka & ra & Ha & Hca).
  destruct (accepted_lookup j oj Hj) as (kb & rb & Hb & Hcb).
  assert (Hfa : first_of_key rt sources ka ra).
  { apply accepted_first, list_elem_of_In. eapply list_elem_of_lookup_2, Ha. }
  assert (Hfb : first_of_key rt sources kb rb).
  { apply accepted_first, list_elem_of_In. eapply list_elem_of_lookup_2, Hb. }
  destruct (first_of_key_same ka ra ki ri Hfa Hfi) as [-> Hida]; [congruence |].
  destruct (first_of_key_same kb rb kj rj Hfb Hfj) as [-> Hidb]; [congruence |].
  pose proof (distinct_by_sorted met_no_later same_met _ (met_from_sorted 0 sources))
    as Hsorted. fold accepted in Hsorted.
  destruct (Nat.lt_total i j) as [Hlt | [-> | Hgt]]; [exact Hlt | |].
  - rewrite Ha in Hb. injection Hb as <- <-. unfold met_before in Hbefore. lia.
  - pose proof (StronglySorted_lookup _ _ j i _ _ Hsorted Hgt Hb Ha) as Hle.
    unfold met_no_later, met_before in *. simpl in Hle. lia.
Qed.

End AcceptanceOrder.

(** C6: the merge gives the records it accepts the ids 1, 2, 3, ... in the
    order it accepts them.  The rows of the output are the records that
    are the first met of their identity key -- no record of the key is in
    a source listed before, nor in the same source with a smaller id -- and
    every key met has its row; of two such records the one met first, by
    the place of its source in the list and then by its original id, has
    the smaller new id.  The ids grow strictly along the table, no id is
    given twice, and the rows present after any first part of the source
    list are, with their ids, still the first rows at the end. *)
Theorem C6_monotonic_ids (rt : real -> string) (out : string) (fs : filesystem)
    (paths : list string) (sources : list table) :
  ~ In out paths ->
  Forall2 (has_table fs) paths sources ->
  exists counts conn fs',
    Merge.merge_inputs rt (Merge.create_output_table out)
      (Merge.commit (Merge.create_output_table out) fs) paths []
    = (Ok counts, conn, fs') /\
    fs' !! out =
      Some (SqliteFile {| credible_set_table := Some (Merge.rows conn);
                          indexes := ["uq_full_row_tmp"] |}) /\
    (forall o, In o (Merge.rows conn) ->
       exists k r, first_of_key rt sources k r /\ cols o = cols r) /\
    (forall s r, In s sources -> In r s ->
       exists o, In o (Merge.rows conn) /\
                 same_identity rt (cols o) (cols r) = true) /\
    (forall oi oj ki ri kj rj,
        In oi (Merge.rows conn) -> In oj (Merge.rows conn) ->
        first_of_key rt sources ki ri -> cols oi = cols ri ->
        first_of_key rt sources kj rj -> cols oj = cols rj ->
        met_before ki ri kj rj ->
        id oi < id oj) /\
    (forall i o, Merge.rows conn !! i = Some o -> id o = Z.of_nat i + 1) /\
    (forall i j oi oj,
        (i < j)%nat ->
        Merge.rows conn !! i = Some oi -> Merge.rows conn !! j = Some oj ->
        id oi < id oj) /\
    NoDup (map id (Merge.rows conn)) /\
    (forall paths1 paths2,
        paths = paths1 ++ paths2 ->
        exists counts1 conn1 fs1,
          Merge.merge_inputs rt (Merge.create_output_table out)
            (Merge.commit (Merge.create_output_table out) fs) paths1 []
          = (Ok counts1, conn1, fs1) /\
          Merge.rows conn1 `prefix_of` Merge.rows conn).
Proof.
  intros Hout Htables.
  assert (Hall : Forall2 (fun p s => Merge.attached_table fs p = Ok s) paths sources).
  { eapply Forall2_impl; [exact Htables |]. intros p s. apply has_table_attached. }
  clear Htables.
  rewrite (merge_inputs_ok rt paths sources (Merge.create_output_table out) fs []);
    [| exact Hout | exact Hall].
  eexists _, _, _. split; [reflexivity |].
  cbn [Merge.rows Merge.create_output_table].
  set (t := fold_left (Merge.insert_or_ignore rt) (encounter sources) []).
  assert (Hids : ids_from_one t) by (by apply ids_from_one_fold).
  assert (Hpos : forall i o, t !! i = Some o -> id o = Z.of_nat i + 1).
  { intros i o. by apply ids_from_one_lookup. }
  split; [apply lookup_insert_eq |].
  split; [| split; [| split; [| split; [exact Hpos | split; [| split]]]]].
  - intros o Ho. apply list_elem_of_In, list_elem_of_lookup_1 in Ho as [i Hi].
    destruct (accepted_lookup rt sources i o Hi) as (k & r & Hx & Hcols).
    exists k, r. split; [| by symmetry].
    apply accepted_first, list_elem_of_In. eapply list_elem_of_lookup_2, Hx.
  - intros s r Hs Hr.
    destruct (distinct_by_covers (Merge.is_duplicate rt) (encounter sources) (cols r)
                (is_duplicate_refl rt) (is_duplicate_sym rt) (is_duplicate_trans rt))
      as (q & Hq & Hqr).
    { apply encounter_In. by exists s, r. }
    fold (first_seen rt (encounter sources)) in Hq.
    rewrite <- (cols_fill rt) in Hq. fold t in Hq.
    apply in_map_iff in Hq as (o & <- & Ho). exists o.
    split; [exact Ho |]. by rewrite <- is_duplicate_identity.
  - intros oi oj ki ri kj rj Hoi Hoj Hfi Hci Hfj Hcj Hbefore.
    apply list_elem_of_In, list_elem_of_lookup_1 in Hoi as [i Hi].
    apply list_elem_of_In, list_elem_of_lookup_1 in Hoj as [j Hj].
    pose proof (accepted_order rt sources i j oi oj ki ri kj rj
                  Hi Hj Hfi Hci Hfj Hcj Hbefore) as Hij.
    rewrite (Hpos i oi Hi), (Hpos j oj Hj). lia.
  - intros i j oi oj Hij Hi Hj.
    rewrite (Hpos i oi Hi), (Hpos j oj Hj). lia.
  - rewrite Hids. apply NoDup_fmap_2; [| apply NoDup_seq].
    intros a b Hab. lia.
  - intros paths1 paths2 ->.
    apply Forall2_app_inv_l in Hall as (k1 & k2 & H1 & H2 & ->).
    rewrite (merge_inputs_ok rt paths1 k1 (Merge.create_output_table out) fs []);
      [| intros Hin; apply Hout, in_or_app; by left | exact H1].
    eexists _, _, _. split; [reflexivity |].
    cbn [Merge.rows Merge.create_output_table]. unfold t.
    rewrite encounter_app, fold_left_app. apply insert_or_ignore_prefix.
Qed.

(** ** A whole run of the merge *)


Lemma fold_add_acc l a : fold_left Z.add l a = a + fold_left Z.add l 0.
Proof.
  revert a. induction l as [| x l IH]; intros a; simpl; [lia |].
  rewrite (IH (a + x)), (IH (0 + x)). lia.
Qed.

(** The total of the per-file counts is the number of rows met. *)
Lemma sum_counts_zip paths sources :
  length paths = length sources ->
  Merge.sum_counts (zip_with (fun p s => (p, count_rows s)) paths sources) =
  Z.of_nat (length (encounter sources)).
Proof.
  unfold Merge.sum_counts. revert sources.
  induction paths as [| p paths IH]; intros [| s sources] Hlen;
    try discriminate; [reflexivity |].
  cbn [zip_with map snd fold_left]. rewrite fold_add_acc, IH by (simpl in Hlen; lia).
  rewrite encounter_cons, length_app, length_map, order_by_id_length.
  unfold count_rows. lia.
Qed.

Lemma insert_or_ignore_length rt l t :
  (length (fold_left (Merge.insert_or_ignore rt) l t) <= length t + length l)%nat.
Proof.
  revert t. induction l as [| p l IH]; intros t; simpl; [lia |].
  etransitivity; [apply IH |].
  unfold Merge.insert_or_ignore. destruct (existsb _ t); [lia |].
  rewrite length_app. simpl. lia.
Qed.

Section MergeRun.

Variable real_to_text : real -> string.
Variable cwd : string.

Local Abbreviation main := (Merge.main real_to_text cwd).
Local Abbreviation merged_table := (Spec.merged_table real_to_text).
Local Abbreviation final_file := (Spec.final_file real_to_text).

Lemma attached_table_delete (fs : filesystem) out p :
  p <> out -> Merge.attached_table (delete out fs) p = Merge.attached_table fs p.
Proof. intros Hp. unfold Merge.attached_table. by rewrite lookup_delete_ne. Qed.


Lemma Forall2_attached_ext (fs fs' : filesystem) paths sources :
  (forall p, In p paths -> Merge.attached_table fs' p = Merge.attached_table fs p) ->
  Forall2 (fun p s => Merge.attached_table fs p = Ok s) paths sources ->
  Forall2 (fun p s => Merge.attached_table fs' p = Ok s) paths sources.
Proof.
  intros Hext Hall. induction Hall as [| p s paths sources Hp Hall IH];
    constructor.
  - rewrite Hext; [exact Hp | by left].
  - apply IH. intros q Hq. apply Hext. by right.
Qed.

Lemma main_ok a fs paths sources :
  Merge.read_sqlite_paths cwd fs (resolve cwd (Merge.input_list a)) = Ok paths ->
  ~ In (resolve cwd (Merge.output_sqlite a)) paths ->
  Forall2 (fun p s => Merge.attached_table fs p = Ok s) paths sources ->
  main a fs =
  (Ok {| Merge.merged_output := resolve cwd (Merge.output_sqlite a);
         Merge.input_files := Z.of_nat (length paths);
         Merge.total_input_rows := Z.of_nat (length (encounter sources));
         Merge.merged_rows := count_rows (merged_table sources);
         Merge.duplicate_rows_removed :=
           Z.of_nat (length (encounter sources)) - count_rows (merged_table sources) |},
   <[resolve cwd (Merge.output_sqlite a) := final_file sources]> fs).
Proof.
  intros Hread Hout Hall. unfold Merge.main. rewrite Hread.
  set (out := resolve cwd (Merge.output_sqlite a)) in *.
  rewrite (merge_inputs_ok real_to_text paths sources
             (Merge.create_output_table out) (delete out fs) []);
    [| exact Hout |].
  2:{ eapply Forall2_attached_ext; [| exact Hall].
      intros p Hp. apply attached_table_delete. intros ->. contradiction. }
  cbn [app Merge.rows Merge.create_output_table Merge.create_final_indexes
       Merge.path Merge.index_names List.filter String.eqb negb].
  assert (Hlen : length paths = length sources) by (by eapply Forall2_length).
  rewrite sum_counts_zip by exact Hlen.
  rewrite length_zip_with, <- Hlen, Nat.min_id.
  unfold Merge.commit. cbn [Merge.path Merge.rows Merge.index_names].
  rewrite insert_insert_eq, insert_delete_eq.
  reflexivity.
Qed.

Lemma main_inv a fs paths rep fs' :
  Merge.read_sqlite_paths cwd fs (resolve cwd (Merge.input_list a)) = Ok paths ->
  ~ In (resolve cwd (Merge.output_sqlite a)) paths ->
  main a fs = (Ok rep, fs') ->
  exists sources,
    Forall2 (fun p s => Merge.attached_table fs p = Ok s) paths sources.
Proof.
  intros Hread Hout. unfold Merge.main. rewrite Hread.
  set (out := resolve cwd (Merge.output_sqlite a)) in *.
  destruct (Merge.merge_inputs _ _ _ _ _) as [[[counts | e] conn] fs2] eqn:Hrun;
    [| discriminate].
  intros _.
  apply (merge_inputs_inv real_to_text paths (Merge.create_output_table out))
    in Hrun as [sources Hall]; [| exact Hout].
  exists sources. eapply Forall2_attached_ext; [| exact Hall].
  intros p Hp. symmetry. apply attached_table_delete. intros ->. contradiction.
Qed.

End MergeRun.

Lemma encounter_length sources :
  Z.of_nat (length (encounter sources)) =
  fold_right Z.add 0 (map count_rows sources).
Proof.
  induction sources as [| s sources IH]; [reflexivity |].
  rewrite encounter_cons, length_app, length_map, order_by_id_length.
  cbn [map fold_right]. rewrite <- IH. unfold count_rows. lia.
Qed.

(** C5: in a run of the merge that ends well, the printed number of
    duplicate rows removed is the sum of the row counts of the listed
    tables minus the row count of the table the run leaves in the output
    file; it is never negative. *)
Theorem C5_duplicates_removed (rt : real -> string) (cwd : string)
    (a : Merge.args) (fs fs' : filesystem) (rep : Merge.report)
    (paths : list string) :
  Merge.main rt cwd a fs = (Ok rep, fs') ->
  Merge.read_sqlite_paths cwd fs (resolve cwd (Merge.input_list a)) = Ok paths ->
  ~ In (resolve cwd (Merge.output_sqlite a)) paths ->
  exists sources merged idx,
    Forall2 (fun p s => Merge.attached_table fs p = Ok s) paths sources /\
    fs' !! resolve cwd (Merge.output_sqlite a) =
      Some (SqliteFile {| credible_set_table := Some merged; indexes := idx |}) /\
    Merge.total_input_rows rep = fold_right Z.add 0 (map count_rows sources) /\
    Merge.merged_rows rep = count_rows merged /\
    Merge.duplicate_rows_removed rep =
      fold_right Z.add 0 (map count_rows sources) - count_rows merged /\
    0 <= Merge.duplicate_rows_removed rep.
Proof.
  intros Hmain Hread Hout.
  destruct (main_inv rt cwd a fs paths rep fs' Hread Hout Hmain) as [sources Hall].
  rewrite (main_ok rt cwd a fs paths sources Hread Hout Hall) in Hmain.
  injection Hmain as <- <-.
  eexists sources, (merged_table rt sources), _.
  split; [exact Hall |]. split; [apply lookup_insert_eq |].
  cbn [Merge.total_input_rows Merge.merged_rows Merge.duplicate_rows_removed].
  rewrite <- encounter_length. repeat split.
  pose proof (insert_or_ignore_length rt (encounter sources) []) as Hle.
  unfold merged_table, count_rows. simpl in Hle. lia.
Qed.


(** ** Validation of the list file *)

(** A run whose list does not pass [read_sqlite_paths] stops there and
    leaves the file system as it was. *)
Lemma main_fail_fast rt cwd a fs e :
  Merge.read_sqlite_paths cwd fs (resolve cwd (Merge.input_list a)) = Raise e ->
  Merge.main rt cwd a fs = (Raise e, fs).
Proof. intros H. unfold Merge.main. by rewrite H. Qed.

Lemma read_missing_list cwd (fs : filesystem) list_file :
  fs !! list_file = None ->
  Merge.read_sqlite_paths cwd fs list_file =
  Raise (ValueError "Input list file does not exist: " list_file).
Proof. intros H. unfold Merge.read_sqlite_paths. by rewrite H. Qed.

Lemma read_missing_source cwd (fs : filesystem) raw_line rest acc :
  is_empty (strip raw_line) = false ->
  is_absolute (resolve cwd (strip raw_line)) = true ->
  fs !! resolve cwd (strip raw_line) = None ->
  Merge.read_lines cwd fs (raw_line :: rest) acc =
  Raise (ValueError "Input SQLite file does not exist: "
                    (resolve cwd (strip raw_line))).
Proof.
  intros Hne Habs Hmiss. simpl. by rewrite Hne, Habs, Hmiss.
Qed.

(** What [resolve] returns is absolute, so the test of [read_lines] for a
    path that is not absolute never fires. *)
Lemma resolve_is_absolute cwd p :
  is_absolute cwd = true -> is_absolute (resolve cwd p) = true.
Proof.
  intros Hcwd. unfold resolve. destruct (is_absolute p) eqn:Hp; [exact Hp |].
  destruct cwd as [| c cwd]; [discriminate |]. exact Hcwd.
Qed.

Lemma not_absolute_never_raised cwd fs raw_lines acc line :
  is_absolute cwd = true ->
  Merge.read_lines cwd fs raw_lines acc <>
  Raise (ValueError "Expected absolute path in input list, got: " line).
Proof.
  intros Hcwd. revert acc.
  induction raw_lines as [| raw_line rest IH]; intros acc; simpl; [discriminate |].
  destruct (is_empty (strip raw_line)); [apply IH |].
  rewrite (resolve_is_absolute cwd _ Hcwd). simpl.
  destruct (bool_decide _); simpl; [apply IH | discriminate].
Qed.

(** C8, where the code departs from it: a list file whose one line is the
    relative path [data/a.sqlite] passes the validation when the file
    exists under the working directory, and the run goes on to write the
    output file. *)
Theorem C8_relative_path_accepted :
  let fs : filesystem :=
    <["/work/inputs.txt" := TextFile ["data/a.sqlite"]]>
      (<["/work/data/a.sqlite" :=
           SqliteFile {| credible_set_table := Some []; indexes := [] |}]> ∅) in
  let a := {| Merge.input_list := "/work/inputs.txt";
              Merge.output_sqlite := "/work/merged.sqlite" |} in
  is_absolute "data/a.sqlite" = false /\
  Merge.read_sqlite_paths "/work" fs "/work/inputs.txt"
    = Ok ["/work/data/a.sqlite"] /\
  fs !! "/work/merged.sqlite" = None /\
  forall rt,
    exists rep fs',
      Merge.main rt "/work" a fs = (Ok rep, fs') /\
      is_Some (fs' !! "/work/merged.sqlite").
Proof.
  cbv zeta. split; [reflexivity |]. split; [by vm_compute |].
  split; [by vm_compute |].
  intros rt.
  eexists _, _.
  split.
  - eapply (main_ok rt "/work" _ _ ["/work/data/a.sqlite"] [[]]).
    + by vm_compute.
    + simpl. intros [H | []]. discriminate.
    + repeat constructor.
  - simpl. rewrite lookup_insert_eq. eauto.
Qed.

(** ** Blank lines of the list file *)

Lemma forallb_ext {A} (f g : A -> bool) l :
  (forall x, f x = g x) -> forallb f l = forallb g l.
Proof.
  intros H. induction l as [| x l IH]; simpl; [reflexivity |].
  by rewrite H, IH.
Qed.

(** The characters [strip] removes are the white space of Python. *)
Lemma isspace_white_space c : isspace c = white c.
Proof. by destruct c as [[] [] [] [] [] [] [] []]. Qed.

Lemma whitespace_only_isspace s :
  whitespace_only s = forallb isspace (String.list_ascii_of_string s).
Proof.
  unfold whitespace_only. apply forallb_ext. intros c.
  symmetry. apply isspace_white_space.
Qed.

Lemma rstrip_empty s : is_empty (rstrip s) = whitespace_only s.
Proof.
  rewrite whitespace_only_isspace. induction s as [| c rest IH]; [reflexivity |].
  cbn [rstrip String.list_ascii_of_string forallb]. rewrite <- IH.
  destruct (rstrip rest); simpl; destruct (isspace c); reflexivity.
Qed.

Lemma lstrip_whitespace_only s : whitespace_only (lstrip s) = whitespace_only s.
Proof.
  rewrite !whitespace_only_isspace. induction s as [| c rest IH]; [reflexivity |].
  cbn [lstrip String.list_ascii_of_string forallb].
  destruct (isspace c) eqn:Hc; simpl; [exact IH | by rewrite Hc].
Qed.

(** A line is skipped exactly when it is made of white space only. *)
Lemma strip_empty s : is_empty (strip s) = whitespace_only s.
Proof. unfold strip. by rewrite rstrip_empty, lstrip_whitespace_only. Qed.

Lemma string_append_cons c s t : String c s +:+ t = String c (s +:+ t).
Proof. reflexivity. Qed.

Lemma whitespace_only_cons c s :
  whitespace_only (String c s) = white c && whitespace_only s.
Proof. reflexivity. Qed.

(** What [lstrip] removes is white space, and what it leaves does not
    start with white space. *)
Lemma lstrip_split s :
  exists before, s = before +:+ lstrip s /\ whitespace_only before = true.
Proof.
  induction s as [| c rest (before & Hrest & Hws)]; [by exists "" |].
  cbn [lstrip]. destruct (isspace c) eqn:Hc.
  - exists (String c before). rewrite string_append_cons, <- Hrest.
    split; [reflexivity |].
    by rewrite whitespace_only_cons, <- isspace_white_space, Hc.
  - by exists "".
Qed.

Lemma lstrip_head s :
  match lstrip s with
  | EmptyString => True
  | String c _ => white c = false
  end.
Proof.
  induction s as [| c rest IH]; [exact I |].
  cbn [lstrip]. destruct (isspace c) eqn:Hc; [exact IH |].
  by rewrite <- isspace_white_space.
Qed.

(** What [rstrip] removes is white space, and what it leaves keeps its
    first character and does not end with white space. *)
Lemma rstrip_split s :
  exists after, s = rstrip s +:+ after /\ whitespace_only after = true.
Proof.
  induction s as [| c rest (after & Hrest & Hws)]; [by exists "" |].
  cbn [rstrip]. destruct (rstrip rest) as [| c' kept] eqn:Hkept.
  - change (rest = after) in Hrest. subst after. destruct (isspace c) eqn:Hc.
    + exists (String c rest). split; [reflexivity |].
      by rewrite whitespace_only_cons, <- isspace_white_space, Hc.
    + by exists rest.
  - exists after. by rewrite string_append_cons, <- Hrest.
Qed.

Lemma rstrip_cons c s :
  isspace c = false -> rstrip (String c s) = String c (rstrip s).
Proof. intros Hc. cbn [rstrip]. rewrite Hc. by destruct (rstrip s). Qed.

Lemma rstrip_last c s :
  white c = false -> white (last_character c (rstrip s)) = false.
Proof.
  revert c. induction s as [| c' rest IH]; intros c Hc; [exact Hc |].
  cbn [rstrip]. specialize (IH c Hc).
  destruct (rstrip rest) as [| k kept].
  - destruct (isspace c') eqn:Hc'; [exact Hc |].
    by rewrite <- isspace_white_space.
  - exact IH.
Qed.

Lemma rstrip_trimmed c s : white c = false -> trimmed (rstrip (String c s)) = true.
Proof.
  intros Hc. rewrite rstrip_cons by (by rewrite isspace_white_space).
  cbn [trimmed]. by rewrite Hc, rstrip_last.
Qed.

Lemma strip_trimmed s : trimmed (strip s) = true.
Proof.
  unfold strip. pose proof (lstrip_head s) as Hhead.
  destruct (lstrip s) as [| c rest]; [reflexivity |].
  by apply rstrip_trimmed.
Qed.

Lemma string_append_assoc s1 s2 s3 : (s1 +:+ s2) +:+ s3 = s1 +:+ (s2 +:+ s3).
Proof.
  induction s1 as [| c s1 IH]; [reflexivity |].
  by rewrite !string_append_cons, IH.
Qed.

Lemma strip_split s :
  exists before after,
    s = before +:+ (strip s +:+ after) /\
    whitespace_only before = true /\ whitespace_only after = true.
Proof.
  destruct (lstrip_split s) as (before & Hs & Hbefore).
  destruct (rstrip_split (lstrip s)) as (after & Hl & Hafter).
  exists before, after. unfold strip. by rewrite <- Hl.
Qed.

Lemma extract_read_lines cwd fs raw_lines acc :
  Extract.read_lines cwd fs raw_lines acc = Merge.read_lines cwd fs raw_lines acc.
Proof.
  revert acc. induction raw_lines as [| raw_line rest IH]; intros acc; simpl;
    [reflexivity |].
  by rewrite !IH.
Qed.

Lemma extract_read_sqlite_paths cwd fs list_file :
  Extract.read_sqlite_paths cwd fs list_file =
  Merge.read_sqlite_paths cwd fs list_file.
Proof.
  unfold Extract.read_sqlite_paths, Merge.read_sqlite_paths.
  destruct (fs !! list_file) as [[raw_lines | db] |]; try reflexivity.
Qed.

Lemma read_lines_skip_blank cwd fs raw_lines acc :
  Merge.read_lines cwd fs raw_lines acc =
  Merge.read_lines cwd fs
    (List.filter (fun l => negb (whitespace_only l)) raw_lines) acc.
Proof.
  revert acc. induction raw_lines as [| raw_line rest IH]; intros acc;
    [reflexivity |].
  cbn [List.filter]. rewrite <- strip_empty.
  destruct (is_empty (strip raw_line)) eqn:Hblank; cbn [negb].
  - simpl. rewrite Hblank. apply IH.
  - simpl. rewrite Hblank.
    destruct (negb (is_absolute _)); [reflexivity |].
    destruct (negb (bool_decide _)); [reflexivity |]. apply IH.
Qed.

Lemma read_lines_paths cwd fs raw_lines acc paths :
  Merge.read_lines cwd fs raw_lines acc = Ok paths ->
  paths = acc ++ map (fun l => resolve cwd (strip l))
                     (List.filter (fun l => negb (whitespace_only l)) raw_lines).
Proof.
  revert acc. induction raw_lines as [| raw_line rest IH]; intros acc; simpl.
  - intros [= <-]. by rewrite app_nil_r.
  - rewrite <- strip_empty.
    destruct (is_empty (strip raw_line)) eqn:Hblank; cbn [negb]; [apply IH |].
    destruct (negb (is_absolute _)); [discriminate |].
    destruct (negb (bool_decide _)); [discriminate |].
    intros H. apply IH in H. rewrite H, <- app_assoc. reflexivity.
Qed.

(** C10: both scripts skip the lines of the list file that are empty or
    made of white space only, and skip them silently: a line is skipped
    exactly when all its characters are white space; reading the list
    gives what reading it without those lines gives; when the reading ends
    well the paths are those of the other lines in order, each without the
    white space at its two ends, and resolved; and a list of blank lines
    only, like an empty list, is refused for holding no path. *)
Theorem C10_blank_lines_skipped (cwd : string) (fs : filesystem)
    (list_file : string) (raw_lines : list string) :
  fs !! list_file = Some (TextFile raw_lines) ->
  Extract.read_sqlite_paths cwd fs list_file =
    Merge.read_sqlite_paths cwd fs list_file /\
  (forall raw_line, In raw_line raw_lines ->
     is_empty (strip raw_line) = whitespace_only raw_line) /\
  (forall raw_line, In raw_line raw_lines ->
     trimmed (strip raw_line) = true /\
     exists before after,
       raw_line = before +:+ (strip raw_line +:+ after) /\
       whitespace_only before = true /\ whitespace_only after = true) /\
  Merge.read_lines cwd fs raw_lines [] =
    Merge.read_lines cwd fs
      (List.filter (fun l => negb (whitespace_only l)) raw_lines) [] /\
  (forall paths,
     Merge.read_sqlite_paths cwd fs list_file = Ok paths ->
     paths = map (fun l => resolve cwd (strip l))
                 (List.filter (fun l => negb (whitespace_only l)) raw_lines)) /\
  (forallb whitespace_only raw_lines = true ->
     Merge.read_sqlite_paths cwd fs list_file =
     Raise (ValueError "Input list file has no SQLite paths: " list_file)).
Proof.
  intros Hfile. split; [apply extract_read_sqlite_paths |].
  split; [intros; apply strip_empty |].
  split; [intros raw_line _; split; [apply strip_trimmed | apply strip_split] |].
  split; [apply read_lines_skip_blank |].
  unfold Merge.read_sqlite_paths. rewrite Hfile. split.
  - intros paths Hread.
    destruct (Merge.read_lines cwd fs raw_lines []) as [[| p ps] |] eqn:Hlines;
      try discriminate.
    injection Hread as <-. by apply read_lines_paths in Hlines.
  - intros Hblank. rewrite read_lines_skip_blank.
    rewrite filter_none; [reflexivity |].
    intros l Hl. rewrite forallb_forall in Hblank.
    by rewrite (Hblank l Hl).
Qed.

(** ** The partitions of the extraction *)

Lemma same_partition_refl p : Extract.same_partition p p = true.
Proof.
  unfold Extract.same_partition. apply forallb_forall. intros c _.
  by apply bool_decide_eq_true_2.
Qed.

Lemma same_partition_sym p q :
  Extract.same_partition p q = Extract.same_partition q p.
Proof.
  unfold Extract.same_partition. apply forallb_ext. intros c.
  apply bool_decide_ext. split; congruence.
Qed.

Lemma same_partition_trans p q r :
  Extract.same_partition p q = true -> Extract.same_partition q r = true ->
  Extract.same_partition p r = true.
Proof.
  unfold Extract.same_partition. rewrite !forallb_forall. intros Hpq Hqr c Hc.
  specialize (Hpq c Hc). specialize (Hqr c Hc). unfold same_value in *.
  rewrite bool_decide_eq_true in *. congruence.
Qed.

(** Rows of one partition have the same partition in every table. *)
Lemma partition_of_same g r t :
  Extract.same_partition (cols g) (cols r) = true ->
  Extract.partition_of r t = Extract.partition_of g t.
Proof.
  intros Hgr. unfold Extract.partition_of. apply List.filter_ext. intros x.
  symmetry.
  exact (same_congr _ same_partition_sym same_partition_trans _ _ (cols x) Hgr).
Qed.

Lemma row_numbers_rows before rest :
  map fst (Extract.row_numbers before rest) = rest.
Proof.
  revert before. induction rest as [| r rest IH]; intros before; simpl;
    [reflexivity |]. by rewrite IH.
Qed.

Lemma ranked_rows t : map Extract.selected (Extract.ranked t) = order_by_id t.
Proof.
  unfold Extract.ranked. rewrite List.map_map.
  rewrite <- (row_numbers_rows [] (order_by_id t)) at 2.
  apply map_ext. by intros [r n].
Qed.

Lemma partition_of_cons g r l :
  Extract.partition_of g (r :: l) =
  if Extract.same_partition (cols g) (cols r)
  then r :: Extract.partition_of g l else Extract.partition_of g l.
Proof. reflexivity. Qed.

Lemma partition_of_snoc g r l :
  Extract.partition_of g (l ++ [r]) =
  if Extract.same_partition (cols g) (cols r)
  then Extract.partition_of g l ++ [r] else Extract.partition_of g l.
Proof.
  unfold Extract.partition_of. rewrite List.filter_app. simpl.
  destruct (Extract.same_partition _ _); [reflexivity | by rewrite app_nil_r].
Qed.

Lemma kept_rows_cons t r n numbered :
  kept_rows t ((r, n) :: numbered) =
  if (1 <? length (Extract.partition_of r t))%nat && (n <=? 2)%nat
  then r :: kept_rows t numbered else kept_rows t numbered.
Proof.
  unfold kept_rows. cbn [map List.filter Extract.grp_count Extract.rn].
  by destruct (_ && _).
Qed.

(** Of the rows from [rest] on, those of the partition of [g] that are
    kept are the first ones, as many as are missing to make two. *)
Lemma kept_of_partition t g before rest :
  Extract.partition_of g (kept_rows t (Extract.row_numbers before rest)) =
  if (1 <? length (Extract.partition_of g t))%nat
  then firstn (2 - length (Extract.partition_of g before))
              (Extract.partition_of g rest)
  else [].
Proof.
  revert before. induction rest as [| r rest IH]; intros before.
  - simpl. destruct (1 <? _)%nat; [| reflexivity]. by rewrite firstn_nil.
  - cbn [Extract.row_numbers]. rewrite kept_rows_cons.
    specialize (IH (before ++ [r])). rewrite partition_of_snoc in IH.
    rewrite (partition_of_cons g r rest).
    destruct (Extract.same_partition (cols g) (cols r)) eqn:Hgr.
    + rewrite !(partition_of_same g r) by exact Hgr.
      rewrite length_app in IH. simpl in IH.
      set (k := length (Extract.partition_of g before)) in *.
      destruct (1 <? length (Extract.partition_of g t))%nat eqn:HG; cbn [andb].
      * destruct (Nat.leb_spec (S k) 2) as [Hk | Hk].
        -- rewrite partition_of_cons, Hgr, IH.
           replace (2 - k)%nat with (S (2 - (k + 1))) by lia. reflexivity.
        -- rewrite IH. replace (2 - (k + 1))%nat with 0%nat by lia.
           replace (2 - k)%nat with 0%nat by lia. reflexivity.
      * exact IH.
    + destruct (_ && _); [| exact IH].
      by rewrite partition_of_cons, Hgr.
Qed.

Lemma select_duplicates_kept t :
  Extract.select_duplicates t =
  order_by_id (kept_rows t (Extract.row_numbers [] (order_by_id t))).
Proof. reflexivity. Qed.

Lemma partition_of_order_by_id g t :
  Extract.partition_of g (order_by_id t) = order_by_id (Extract.partition_of g t).
Proof. apply filter_order_by_id. Qed.

(** What the extraction keeps of one partition. *)
Lemma partition_of_select g t :
  Extract.partition_of g (Extract.select_duplicates t) =
  if (1 <? length (Extract.partition_of g t))%nat
  then firstn 2 (order_by_id (Extract.partition_of g t))
  else [].
Proof.
  rewrite select_duplicates_kept, partition_of_order_by_id, kept_of_partition.
  destruct (1 <? _)%nat; [| reflexivity].
  change (2 - length (Extract.partition_of g []))%nat with 2%nat.
  rewrite partition_of_order_by_id.
  apply order_by_id_fixed, firstn_sorted, order_by_id_sorted.
Qed.

Lemma map_filter_sublist {A B} (f : A -> B) (P : A -> bool) l :
  map f (List.filter P l) `sublist_of` map f l.
Proof.
  induction l as [| x l IH]; simpl; [constructor |].
  destruct (P x); simpl; by constructor.
Qed.

Lemma kept_rows_sublist t numbered : kept_rows t numbered `sublist_of` map fst numbered.
Proof.
  unfold kept_rows.
  replace (map fst numbered) with
    (map Extract.selected
       (map (fun '(r, n) =>
               {| Extract.selected := r; Extract.rn := n;
                  Extract.grp_count := length (Extract.partition_of r t) |})
            numbered)).
  - apply map_filter_sublist.
  - rewrite List.map_map. apply map_ext. by intros [r n].
Qed.

Lemma select_duplicates_In o t : In o (Extract.select_duplicates t) -> In o t.
Proof.
  rewrite select_duplicates_kept, order_by_id_In. intros Ho.
  rewrite <- (order_by_id_In o t).
  rewrite <- (row_numbers_rows [] (order_by_id t)).
  apply list_elem_of_In. apply list_elem_of_In in Ho.
  eapply elem_of_sublist; [exact Ho | apply kept_rows_sublist].
Qed.

Lemma select_duplicates_primary_key t :
  primary_key t -> primary_key (Extract.select_duplicates t).
Proof.
  unfold primary_key. intros Ht.
  rewrite select_duplicates_kept, order_by_id_perm.
  eapply sublist_NoDup; [| apply (fmap_sublist id), kept_rows_sublist].
  rewrite row_numbers_rows. change (id <$> ?l) with (map id l).
  by rewrite order_by_id_perm.
Qed.

Lemma insert_rows_ok out selection :
  NoDup (map id (out ++ selection)) ->
  Extract.insert_rows out selection = Ok (out ++ selection).
Proof.
  revert out. induction selection as [| r rest IH]; intros out Hnd; simpl.
  - by rewrite app_nil_r.
  - rewrite bool_decide_eq_false_2.
    + rewrite IH; rewrite <- app_assoc; [reflexivity | exact Hnd].
    + rewrite map_app in Hnd. simpl in Hnd.
      apply NoDup_app in Hnd as (_ & Hdisj & _).
      intros Hin. apply (Hdisj _ Hin). by left.
Qed.

(** A run of the extraction on a file that has its table, with [id] as the
    primary key, and that is not the output file. *)
Lemma extract_ok (fs : filesystem) source_db output_db db t :
  source_db <> output_db ->
  fs !! source_db = Some (SqliteFile db) ->
  credible_set_table db = Some t ->
  primary_key t ->
  Extract.extract_duplicates_for_file fs source_db output_db =
  (Ok (count_rows (Extract.select_duplicates t)),
   <[output_db := Extract.output_file (Extract.select_duplicates t)]> fs).
Proof.
  intros Hne Hsrc Ht Hpk. unfold Extract.extract_duplicates_for_file.
  unfold Extract.source_table.
  rewrite lookup_delete_ne, Hsrc, Ht by congruence.
  rewrite insert_rows_ok by (by apply select_duplicates_primary_key).
  simpl. by rewrite insert_insert_eq, insert_delete_eq.
Qed.

Lemma NoDup_map_inj {A B} (f : A -> B) l x y :
  NoDup (map f l) -> In x l -> In y l -> f x = f y -> x = y.
Proof.
  induction l as [| z l IH]; simpl; [tauto |].
  intros Hnd Hx Hy Hxy. apply NoDup_cons in Hnd as [Hz Hnd].
  destruct Hx as [-> | Hx], Hy as [-> | Hy]; auto.
  - exfalso. apply Hz. rewrite Hxy. apply list_elem_of_In, in_map, Hy.
  - exfalso. apply Hz. rewrite <- Hxy. apply list_elem_of_In, in_map, Hx.
Qed.

Lemma partition_of_In g r t :
  In r (Extract.partition_of g t) <->
  In r t /\ Extract.same_partition (cols g) (cols r) = true.
Proof. unfold Extract.partition_of. apply List.filter_In. Qed.

(** ** The groups of the extraction *)

Lemma forallb_decide_map {A B} `{EqDecision B} (f g : A -> B) l :
  forallb (fun c => bool_decide (f c = g c)) l = bool_decide (map f l = map g l).
Proof.
  induction l as [| c l IH]; cbn [forallb map];
    [symmetry; by apply bool_decide_eq_true_2 |].
  rewrite IH. destruct (decide (f c = g c)) as [Hc | Hc].
  - rewrite (bool_decide_eq_true_2 _ Hc). simpl.
    apply bool_decide_ext. split; [congruence | by intros [= _ ?]].
  - rewrite (bool_decide_eq_false_2 _ Hc). simpl.
    symmetry. apply bool_decide_eq_false_2. by intros [= ? _].
Qed.

(** PARTITION BY the seventeen columns puts two rows in one partition
    exactly when they have the same identity key. *)
Lemma same_partition_attributes p q :
  Extract.same_partition p q = same_attributes p q.
Proof.
  unfold Extract.same_partition, same_attributes, same_value.
  by rewrite forallb_decide_map.
Qed.

Lemma partition_of_group g t : Extract.partition_of g t = group g t.
Proof.
  unfold Extract.partition_of, group. apply List.filter_ext. intros r.
  apply same_partition_attributes.
Qed.

Lemma same_attributes_refl p : same_attributes p p = true.
Proof. rewrite <- same_partition_attributes. apply same_partition_refl. Qed.

Lemma same_attributes_sym p q : same_attributes p q = same_attributes q p.
Proof. rewrite <- !same_partition_attributes. apply same_partition_sym. Qed.

Lemma same_attributes_trans p q r :
  same_attributes p q = true -> same_attributes q r = true ->
  same_attributes p r = true.
Proof. rewrite <- !same_partition_attributes. apply same_partition_trans. Qed.

Lemma group_In g r t :
  In r (group g t) <-> In r t /\ same_attributes (cols g) (cols r) = true.
Proof. unfold group. apply List.filter_In. Qed.

(** Rows of one group have the same group in every table. *)
Lemma group_same g r t :
  same_attributes (cols g) (cols r) = true -> group r t = group g t.
Proof.
  intros Hgr. rewrite <- !partition_of_group. apply partition_of_same.
  by rewrite same_partition_attributes.
Qed.

Lemma sorted_strict (l : table) :
  StronglySorted le_id l -> NoDup (map id l) -> StronglySorted lt_id l.
Proof.
  induction 1 as [| a l Hs IH Hall]; intros Hnd; [constructor |].
  simpl in Hnd. apply NoDup_cons in Hnd as [Ha Hnd].
  constructor; [by apply IH |].
  rewrite Forall_forall in Hall. apply Forall_forall. intros x Hx.
  specialize (Hall x Hx). unfold le_id, lt_id in *.
  assert (id a <> id x); [| lia].
  intros Heq. apply Ha. rewrite Heq.
  apply list_elem_of_In, in_map. by apply list_elem_of_In.
Qed.

(** In a list in strict id order, the first [n] rows are those with fewer
    than [n] rows of smaller id. *)
Lemma firstn_sorted_In n (l : table) o :
  StronglySorted lt_id l ->
  In o (firstn n l) <->
  In o l /\ (length (List.filter (fun r => (id r <? id o)%Z) l) < n)%nat.
Proof.
  intros Hs. revert n. induction Hs as [| a l Hs IH Hall]; intros n.
  - rewrite firstn_nil. simpl. tauto.
  - rewrite Forall_forall in Hall.
    assert (Hnone : List.filter (fun r => id r <? id a) l = []).
    { apply filter_none. intros x Hx. apply Z.ltb_ge.
      apply list_elem_of_In, Hall in Hx. unfold lt_id in Hx. lia. }
    assert (Hlt : forall x, In x l -> (id a <? id x) = true).
    { intros x Hx. apply Z.ltb_lt. apply list_elem_of_In, Hall in Hx. exact Hx. }
    destruct n as [| n]; cbn [firstn List.filter In].
    + split; [tauto | lia].
    + split.
      * intros [<- | Ho].
        -- rewrite Z.ltb_irrefl, Hnone. simpl. split; [by left | lia].
        -- apply IH in Ho as [Ho Hlen]. rewrite (Hlt o Ho). simpl.
           split; [by right | lia].
      * intros [[<- | Ho] Hlen]; [by left |].
        right. apply IH. split; [exact Ho |].
        rewrite (Hlt o Ho) in Hlen. simpl in Hlen. lia.
Qed.

Lemma filter_length_mono {A} (f g : A -> bool) l :
  (forall x, f x = true -> g x = true) ->
  (length (List.filter f l) <= length (List.filter g l))%nat.
Proof.
  intros H. induction l as [| x l IH]; simpl; [lia |].
  destruct (f x) eqn:Hf; [rewrite (H x Hf); simpl; lia |].
  destruct (g x); simpl; lia.
Qed.

(** The rows the extraction selects: those of a group of two rows or more
    that have fewer than two rows of their group below them. *)
Lemma select_duplicates_member t o :
  primary_key t ->
  In o (Extract.select_duplicates t) <->
  In o t /\ (2 <= length (group o t))%nat /\ (rank o t < 2)%nat.
Proof.
  intros Hpk. unfold rank. set (G := group o t).
  assert (HG : NoDup (map id (order_by_id G))).
  { rewrite order_by_id_perm. unfold G, group.
    eapply sublist_NoDup; [exact Hpk |]. apply map_filter_sublist. }
  assert (Hs : StronglySorted lt_id (order_by_id G)).
  { apply sorted_strict; [apply order_by_id_sorted | exact HG]. }
  assert (Hcount : length (List.filter (fun r => id r <? id o) (order_by_id G))
                   = length (List.filter (fun r => id r <? id o) G)).
  { by rewrite filter_order_by_id, order_by_id_length. }
  assert (Hpart : In o (Extract.select_duplicates t) <->
                  In o (Extract.partition_of o (Extract.select_duplicates t))).
  { rewrite partition_of_In. split; [| tauto].
    intros Ho. split; [exact Ho | apply same_partition_refl]. }
  rewrite Hpart, partition_of_select, partition_of_group. fold G.
  destruct (Nat.ltb_spec 1 (length G)) as [Hlen | Hlen].
  - rewrite (firstn_sorted_In 2 _ o Hs), Hcount, order_by_id_In.
    unfold G at 1. rewrite group_In. split.
    + intros [[Ho _] Hr]. split; [exact Ho |]. split; [lia | exact Hr].
    + intros (Ho & _ & Hr). split; [| exact Hr].
      split; [exact Ho | apply same_attributes_refl].
  - split; [intros [] | lia].
Qed.

(** C4: the extraction caps every duplicated group at two rows.  For a
    source whose table has [id] as its primary key, the extraction ends
    well and writes exactly the rows of the source that are in a group of
    two rows or more and have fewer than two rows of their group with a
    smaller id.  So a group of two rows or more has exactly two rows in
    the output, of smaller id than every other row of the group, and a
    group of one row has none; the rows written are rows of the source,
    ids included, and they are in id order. *)
Theorem C4_extraction_cap (fs : filesystem) (source_db output_db : string)
    (db : database) (t : table) :
  source_db <> output_db ->
  fs !! source_db = Some (SqliteFile db) ->
  credible_set_table db = Some t ->
  primary_key t ->
  exists out,
    Extract.extract_duplicates_for_file fs source_db output_db =
      (Ok (Z.of_nat (length out)),
       <[output_db := SqliteFile {| credible_set_table := Some out;
                                    indexes := [] |}]> fs) /\
    (forall o, In o out <->
               In o t /\ (2 <= length (group o t))%nat /\ (rank o t < 2)%nat) /\
    (forall g, In g t ->
       length (group g out) =
         (if (2 <=? length (group g t))%nat then 2 else 0)%nat) /\
    (forall o r, In o out -> In r (group o t) -> ~ In r out -> id o < id r) /\
    StronglySorted lt_id out.
Proof.
  intros Hne Hsrc Ht Hpk. exists (Extract.select_duplicates t).
  split; [exact (extract_ok fs source_db output_db db t Hne Hsrc Ht Hpk) |].
  split; [intros o; by apply select_duplicates_member |].
  split; [| split].
  - intros g Hg. rewrite <- !partition_of_group, partition_of_select.
    set (G := Extract.partition_of g t).
    destruct (Nat.ltb_spec 1 (length G)), (Nat.leb_spec 2 (length G));
      try lia; [| reflexivity].
    rewrite length_firstn, order_by_id_length. lia.
  - intros o r Ho Hr Hnot.
    apply (select_duplicates_member t o Hpk) in Ho as (Hot & Hlen & Hrank).
    rewrite (select_duplicates_member t r Hpk) in Hnot.
    apply group_In in Hr as [Hrt Hor].
    rewrite (group_same o r t Hor) in Hnot.
    destruct (Z.lt_ge_cases (id o) (id r)) as [Hlt | Hge]; [exact Hlt |].
    exfalso. apply Hnot. split; [exact Hrt |]. split; [exact Hlen |].
    unfold rank in *. rewrite (group_same o r t Hor).
    eapply Nat.le_lt_trans; [| exact Hrank].
    apply filter_length_mono. intros x Hx.
    apply Z.ltb_lt in Hx. apply Z.ltb_lt. lia.
  - apply sorted_strict; [apply order_by_id_sorted |].
    by apply select_duplicates_primary_key.
Qed.

Lemma sum_two_per_group {A} (P : A -> bool) (f : A -> nat) l :
  (forall g, In g l -> f g = if P g then 2%nat else 0%nat) ->
  sum_list (map f l) = (2 * length (List.filter P l))%nat.
Proof.
  induction l as [| g l IH]; intros Hf; simpl; [reflexivity |].
  rewrite (Hf g) by (by left). rewrite IH by (intros; apply Hf; by right).
  destruct (P g); simpl; lia.
Qed.

(** The rows written, counted group by group. *)
Lemma select_duplicates_length t :
  length (Extract.select_duplicates t) = (2 * duplicate_groups t)%nat.
Proof.
  rewrite (length_by_classes
             (fun r r' => same_attributes (cols r) (cols r'))
             (fun x y => same_attributes_sym (cols x) (cols y))
             (fun x y z => same_attributes_trans (cols x) (cols y) (cols z))
             t (Extract.select_duplicates t)).
  - unfold duplicate_groups, group_representatives.
    apply sum_two_per_group. intros g Hg.
    change (List.filter _ (Extract.select_duplicates t))
      with (group g (Extract.select_duplicates t)).
    rewrite <- !partition_of_group, partition_of_select.
    set (G := Extract.partition_of g t).
    destruct (Nat.ltb_spec 1 (length G)), (Nat.leb_spec 2 (length G));
      try lia; [| reflexivity].
    rewrite length_firstn, order_by_id_length. lia.
  - intros x Hx. exists x. split; [by apply select_duplicates_In |].
    apply same_attributes_refl.
Qed.

(** C9: for a source whose table has [id] as its primary key, the
    extraction ends well, the count it returns is the number of rows of the
    table it leaves in the output file, and that number is twice the number
    of groups of the source -- sets of rows with one identity key -- that
    have two rows or more; it is even. *)
Theorem C9_extraction_count (fs : filesystem) (source_db output_db : string)
    (db : database) (t : table) :
  source_db <> output_db ->
  fs !! source_db = Some (SqliteFile db) ->
  credible_set_table db = Some t ->
  primary_key t ->
  exists row_count fs' out,
    Extract.extract_duplicates_for_file fs source_db output_db =
      (Ok row_count, fs') /\
    fs' !! output_db =
      Some (SqliteFile {| credible_set_table := Some out; indexes := [] |}) /\
    row_count = Z.of_nat (length out) /\
    row_count = 2 * Z.of_nat (duplicate_groups t) /\
    Z.even row_count = true.
Proof.
  intros Hne Hsrc Ht Hpk.
  eexists (Z.of_nat (length (Extract.select_duplicates t))), _,
    (Extract.select_duplicates t).
  split; [exact (extract_ok fs source_db output_db db t Hne Hsrc Ht Hpk) |].
  split; [apply lookup_insert_eq |]. split; [reflexivity |].
  rewrite select_duplicates_length.
  split; [lia |].
  rewrite Nat2Z.inj_mul. apply Z.even_mul.
Qed.

(** ** The two notions of a duplicate *)

Lemma NON_ID_COLUMNS_shared : Merge.NON_ID_COLUMNS = Extract.NON_ID_COLUMNS.
Proof. reflexivity. Qed.

(** C2 fails in the code: the two scripts name the same seventeen columns
    but do not compare them alike.  The unique index of the merge compares
    the texts [ifnull(CAST(column AS TEXT), '__NULL__')], PARTITION BY in
    the extraction compares the values.  Two rows that differ -- [rsid] is
    NULL in one and the text [__NULL__] in the other -- are one identity
    for the merge, which keeps the first and drops the second as a
    duplicate row, and two groups for the extraction, which finds no
    duplicate in the same table. *)
Theorem C2_sentinel_rows_merged_not_grouped :
  let p := fun v : value =>
    {| study_id := VText "QTS000001"; study_label := VText "study";
       dataset_id := VText "QTD000001"; molecular_trait_id := VText "ENSG01";
       gene_id := VText "ENSG01"; gene_name := VText "GENE1";
       variant := VText "chr1_100_A_G"; rsid := v;
       quantification_method := VText "ge"; credible_set := VText "ENSG01_L1";
       credible_set_size := VInt 3; pip := VNull; pvalue := VNull;
       beta := VNull; se := VNull; dataset_label := VText "blood";
       plot_variant := VText "chr1_100_A_G" |} in
  let r1 := {| id := 1; cols := p VNull |} in
  let r2 := {| id := 2; cols := p (VText "__NULL__") |} in
  let fs : filesystem :=
    <["/work/inputs.txt" := TextFile ["/work/data/a.sqlite"]]>
      (<["/work/data/a.sqlite" :=
           SqliteFile {| credible_set_table := Some [r1; r2]; indexes := [] |}]> ∅) in
  let a := {| Merge.input_list := "/work/inputs.txt";
              Merge.output_sqlite := "/work/merged.sqlite" |} in
  Merge.NON_ID_COLUMNS = Extract.NON_ID_COLUMNS /\
  rsid (cols r1) <> rsid (cols r2) /\
  (forall rt, Merge.is_duplicate rt (cols r1) (cols r2) = true) /\
  Extract.same_partition (cols r1) (cols r2) = false /\
  (forall rt, exists idx,
      Merge.main rt "/work" a fs =
      (Ok {| Merge.merged_output := "/work/merged.sqlite";
             Merge.input_files := 1;
             Merge.total_input_rows := 2;
             Merge.merged_rows := 1;
             Merge.duplicate_rows_removed := 1 |},
       <["/work/merged.sqlite" :=
           SqliteFile {| credible_set_table := Some [r1]; indexes := idx |}]> fs)) /\
  Extract.extract_duplicates_for_file fs "/work/data/a.sqlite" "/work/dups.sqlite" =
    (Ok 0, <["/work/dups.sqlite" := Extract.output_file []]> fs).
Proof.
  intros p r1 r2 fs a. split; [reflexivity |]. split; [discriminate |].
  split; [intros rt; by vm_compute |]. split; [by vm_compute |]. split.
  - intros rt. eexists.
    rewrite (main_ok rt "/work" a fs ["/work/data/a.sqlite"] [[r1; r2]]).
    + reflexivity.
    + by vm_compute.
    + simpl. intros [H | []]. discriminate.
    + repeat constructor.
  - rewrite (extract_ok fs _ _ {| credible_set_table := Some [r1; r2];
                                  indexes := [] |} [r1; r2]);
      [reflexivity | discriminate | by vm_compute | reflexivity |].
    unfold primary_key. apply (bool_decide_unpack _). by vm_compute.
Qed.

(** A TEXT and a BLOB of the same bytes are told apart by the extraction
    and not by the merge. *)
Example text_blob_mismatch :
  let p := fun v : value =>
    {| study_id := v; study_label := VNull; dataset_id := VNull;
       molecular_trait_id := VNull; gene_id := VNull; gene_name := VNull;
       variant := VNull; rsid := VNull; quantification_method := VNull;
       credible_set := VNull; credible_set_size := VNull; pip := VNull;
       pvalue := VNull; beta := VNull; se := VNull; dataset_label := VNull;
       plot_variant := VNull |} in
  Merge.is_duplicate (fun _ => "0.0") (p (VText "a")) (p (VBlob "a")) = true /\
  Extract.same_partition (p (VText "a")) (p (VBlob "a")) = false.
Proof. by vm_compute. Qed.

(** ** The properties on the sample data *)

Ltac not_listed := simpl; intuition discriminate.

Lemma sample_read :
  Merge.read_sqlite_paths "/data" Sample.files "/data/inputs.txt"
  = Ok Sample.paths.
Proof. by vm_compute. Qed.

Lemma sample_attached :
  Forall2 (fun p s => Merge.attached_table Sample.files p = Ok s)
          Sample.paths [Sample.table_a; Sample.table_b; Sample.table_c].
Proof. repeat constructor. Qed.

(** Three tables of five rows with three records met twice: fifteen rows
    read, twelve rows merged, three duplicates removed. *)
Lemma sample_main :
  Merge.main Sample.real_text "/data" Sample.merge_args Sample.files =
  (Ok {| Merge.merged_output := "/data/merged.sqlite";
         Merge.input_files := 3;
         Merge.total_input_rows := 15;
         Merge.merged_rows := 12;
         Merge.duplicate_rows_removed := 3 |},
   <["/data/merged.sqlite" :=
       final_file Sample.real_text
         [Sample.table_a; Sample.table_b; Sample.table_c]]> Sample.files).
Proof.
  rewrite (main_ok Sample.real_text "/data" Sample.merge_args Sample.files
             Sample.paths [Sample.table_a; Sample.table_b; Sample.table_c]).
  - f_equal.
  - exact sample_read.
  - not_listed.
  - exact sample_attached.
Qed.



Lemma sample_primary_key : primary_key Sample.table_d.
Proof. unfold primary_key. apply (bool_decide_unpack _). by vm_compute. Qed.

Lemma sample_extract_d :
  Extract.extract_duplicates_for_file Sample.files "/data/d/QTS4.sqlite"
    "/out/01_data__d__duplicates.sqlite" =
  (Ok 4, <["/out/01_data__d__duplicates.sqlite" :=
             SqliteFile {| credible_set_table := Some Sample.table_d_duplicates;
                           indexes := [] |}]> Sample.files).
Proof.
  rewrite (extract_ok Sample.files _ _
             {| credible_set_table := Some Sample.table_d; indexes := [] |}
             Sample.table_d);
    [reflexivity | discriminate | reflexivity | reflexivity
    | exact sample_primary_key].
Qed.

Lemma C4_witness :
  ("/data/d/QTS4.sqlite" <> "/out/01_data__d__duplicates.sqlite" /\
   Sample.files !! "/data/d/QTS4.sqlite" = Some (Sample.sqlite_file Sample.table_d) /\
   primary_key Sample.table_d) /\
  Extract.extract_duplicates_for_file Sample.files "/data/d/QTS4.sqlite"
    "/out/01_data__d__duplicates.sqlite" =
  (Ok 4, <["/out/01_data__d__duplicates.sqlite" :=
             SqliteFile {| credible_set_table := Some Sample.table_d_duplicates;
                           indexes := [] |}]> Sample.files) /\
  length (group {| id := 5; cols := Sample.key 1 |} Sample.table_d) = 4%nat /\
  rank {| id := 3; cols := Sample.key 1 |} Sample.table_d = 1%nat /\
  rank {| id := 5; cols := Sample.key 1 |} Sample.table_d = 2%nat /\
  exists out,
    Extract.extract_duplicates_for_file Sample.files "/data/d/QTS4.sqlite"
      "/out/01_data__d__duplicates.sqlite" =
      (Ok (Z.of_nat (length out)),
       <["/out/01_data__d__duplicates.sqlite" :=
           SqliteFile {| credible_set_table := Some out; indexes := [] |}]>
         Sample.files) /\
    (forall o, In o out <->
               In o Sample.table_d /\
               (2 <= length (group o Sample.table_d))%nat /\
               (rank o Sample.table_d < 2)%nat) /\
    (forall g, In g Sample.table_d ->
       length (group g out) =
         (if (2 <=? length (group g Sample.table_d))%nat then 2 else 0)%nat) /\
    (forall o r, In o out -> In r (group o Sample.table_d) -> ~ In r out ->
                 id o < id r) /\
    StronglySorted lt_id out.
Proof.
  assert (H1 : "/data/d/QTS4.sqlite" <> "/out/01_data__d__duplicates.sqlite")
    by discriminate.
  assert (H2 : Sample.files !! "/data/d/QTS4.sqlite"
               = Some (Sample.sqlite_file Sample.table_d)) by reflexivity.
  split; [split; [exact H1 | split; [exact H2 | exact sample_primary_key]] |].
  split; [exact sample_extract_d |].
  split; [by vm_compute |]. split; [by vm_compute |]. split; [by vm_compute |].
  exact (C4_extraction_cap Sample.files _ _ _ Sample.table_d H1 H2 eq_refl
           sample_primary_key).
Defined.

Lemma C5_witness :
  (Merge.main Sample.real_text "/data" Sample.merge_args Sample.files =
   (Ok {| Merge.merged_output := "/data/merged.sqlite";
          Merge.input_files := 3;
          Merge.total_input_rows := 15;
          Merge.merged_rows := 12;
          Merge.duplicate_rows_removed := 3 |},
    <["/data/merged.sqlite" :=
        final_file Sample.real_text
          [Sample.table_a; Sample.table_b; Sample.table_c]]> Sample.files) /\
   Merge.read_sqlite_paths "/data" Sample.files
     (resolve "/data" (Merge.input_list Sample.merge_args)) = Ok Sample.paths /\
   ~ In (resolve "/data" (Merge.output_sqlite Sample.merge_args)) Sample.paths) /\
  exists sources merged idx,
    Forall2 (fun p s => Merge.attached_table Sample.files p = Ok s)
            Sample.paths sources /\
    (<["/data/merged.sqlite" :=
        final_file Sample.real_text
          [Sample.table_a; Sample.table_b; Sample.table_c]]> Sample.files)
      !! resolve "/data" (Merge.output_sqlite Sample.merge_args) =
      Some (SqliteFile {| credible_set_table := Some merged; indexes := idx |}) /\
    15 = fold_right Z.add 0 (map count_rows sources) /\
    12 = count_rows merged /\
    3 = fold_right Z.add 0 (map count_rows sources) - count_rows merged /\
    0 <= 3.
Proof.
  assert (Hout : ~ In (resolve "/data" (Merge.output_sqlite Sample.merge_args))
                      Sample.paths) by not_listed.
  split; [split; [exact sample_main | split; [exact sample_read | exact Hout]] |].
  exact (C5_duplicates_removed Sample.real_text "/data" Sample.merge_args
           Sample.files _ _ Sample.paths sample_main sample_read Hout).
Defined.

Lemma sample_merged_rows :
  Merge.rows
    (Merge.merge_inputs Sample.real_text
       (Merge.create_output_table "/data/merged.sqlite")
       (Merge.commit (Merge.create_output_table "/data/merged.sqlite") Sample.files)
       Sample.paths []).1.2
  = Sample.merged_abc.
Proof.
  rewrite (merge_inputs_ok Sample.real_text Sample.paths
             [Sample.table_a; Sample.table_b; Sample.table_c]
             (Merge.create_output_table "/data/merged.sqlite") Sample.files []);
    [by vm_compute | not_listed | exact sample_attached].
Qed.

Lemma sample_tables :
  Forall2 (has_table Sample.files)
          Sample.paths [Sample.table_a; Sample.table_b; Sample.table_c].
Proof. repeat constructor; eexists; split; reflexivity. Qed.

Lemma C6_witness :
  (~ In "/data/merged.sqlite" Sample.paths /\
   Forall2 (has_table Sample.files)
           Sample.paths [Sample.table_a; Sample.table_b; Sample.table_c]) /\
  Merge.rows
    (Merge.merge_inputs Sample.real_text
       (Merge.create_output_table "/data/merged.sqlite")
       (Merge.commit (Merge.create_output_table "/data/merged.sqlite") Sample.files)
       Sample.paths []).1.2
  = Sample.merged_abc /\
  met_before 0 {| id := 1; cols := Sample.key 1 |}
             0 {| id := 3; cols := Sample.key 3 |} /\
  exists counts conn fs',
    Merge.merge_inputs Sample.real_text
      (Merge.create_output_table "/data/merged.sqlite")
      (Merge.commit (Merge.create_output_table "/data/merged.sqlite") Sample.files)
      Sample.paths []
    = (Ok counts, conn, fs') /\
    fs' !! "/data/merged.sqlite" =
      Some (SqliteFile {| credible_set_table := Some (Merge.rows conn);
                          indexes := ["uq_full_row_tmp"] |}) /\
    (forall o, In o (Merge.rows conn) ->
       exists k r,
         first_of_key Sample.real_text
           [Sample.table_a; Sample.table_b; Sample.table_c] k r /\
         cols o = cols r) /\
    (forall s r, In s [Sample.table_a; Sample.table_b; Sample.table_c] -> In r s ->
       exists o, In o (Merge.rows conn) /\
                 same_identity Sample.real_text (cols o) (cols r) = true) /\
    (forall oi oj ki ri kj rj,
        In oi (Merge.rows conn) -> In oj (Merge.rows conn) ->
        first_of_key Sample.real_text
          [Sample.table_a; Sample.table_b; Sample.table_c] ki ri ->
        cols oi = cols ri ->
        first_of_key Sample.real_text
          [Sample.table_a; Sample.table_b; Sample.table_c] kj rj ->
        cols oj = cols rj ->
        met_before ki ri kj rj ->
        id oi < id oj) /\
    (forall i o, Merge.rows conn !! i = Some o -> id o = Z.of_nat i + 1) /\
    (forall i j oi oj,
        (i < j)%nat ->
        Merge.rows conn !! i = Some oi -> Merge.rows conn !! j = Some oj ->
        id oi < id oj) /\
    NoDup (map id (Merge.rows conn)) /\
    (forall paths1 paths2,
        Sample.paths = paths1 ++ paths2 ->
        exists counts1 conn1 fs1,
          Merge.merge_inputs Sample.real_text
            (Merge.create_output_table "/data/merged.sqlite")
            (Merge.commit (Merge.create_output_table "/data/merged.sqlite")
                          Sample.files) paths1 []
          = (Ok counts1, conn1, fs1) /\
          Merge.rows conn1 `prefix_of` Merge.rows conn).
Proof.
  assert (Hout : ~ In "/data/merged.sqlite" Sample.paths) by not_listed.
  split; [split; [exact Hout | exact sample_tables] |].
  split; [exact sample_merged_rows |].
  split; [right; split; [reflexivity | reflexivity] |].
  exact (C6_monotonic_ids Sample.real_text "/data/merged.sqlite" Sample.files
           Sample.paths _ Hout sample_tables).
Defined.


Lemma C9_witness :
  ("/data/d/QTS4.sqlite" <> "/out/01_data__d__duplicates.sqlite" /\
   Sample.files !! "/data/d/QTS4.sqlite" = Some (Sample.sqlite_file Sample.table_d) /\
   primary_key Sample.table_d) /\
  Extract.extract_duplicates_for_file Sample.files "/data/d/QTS4.sqlite"
    "/out/01_data__d__duplicates.sqlite" =
  (Ok 4, <["/out/01_data__d__duplicates.sqlite" :=
             SqliteFile {| credible_set_table := Some Sample.table_d_duplicates;
                           indexes := [] |}]> Sample.files) /\
  duplicate_groups Sample.table_d = 2%nat /\
  exists row_count fs' out,
    Extract.extract_duplicates_for_file Sample.files "/data/d/QTS4.sqlite"
      "/out/01_data__d__duplicates.sqlite" = (Ok row_count, fs') /\
    fs' !! "/out/01_data__d__duplicates.sqlite" =
      Some (SqliteFile {| credible_set_table := Some out; indexes := [] |}) /\
    row_count = Z.of_nat (length out) /\
    row_count = 2 * Z.of_nat (duplicate_groups Sample.table_d) /\
    Z.even row_count = true.
Proof.
  assert (H1 : "/data/d/QTS4.sqlite" <> "/out/01_data__d__duplicates.sqlite")
    by discriminate.
  assert (H2 : Sample.files !! "/data/d/QTS4.sqlite"
               = Some (Sample.sqlite_file Sample.table_d)) by reflexivity.
  split; [split; [exact H1 | split; [exact H2 | exact sample_primary_key]] |].
  split; [exact sample_extract_d |]. split; [by vm_compute |].
  exact (C9_extraction_count Sample.files _ _ _ Sample.table_d H1 H2 eq_refl
           sample_primary_key).
Defined.

Lemma sample_blank_list :
  Merge.read_sqlite_paths "/data"
    (<["/data/inputs.txt" :=
         TextFile [""; "   "; String "009" (String "010" "");
                   String "160" (String "013" (String "010" ""))]]> Sample.files)
    "/data/inputs.txt"
  = Raise (ValueError "Input list file has no SQLite paths: " "/data/inputs.txt").
Proof. by vm_compute. Qed.

Lemma C10_witness :
  Sample.files !! "/data/inputs.txt" = Some (TextFile Sample.list_lines) /\
  (Merge.read_sqlite_paths "/data" Sample.files "/data/inputs.txt"
   = Ok [ "/data/a/QTS1.sqlite"; "/data/b/QTS2.sqlite"; "/data/c/QTS3.sqlite" ] /\
   List.filter (fun l => negb (whitespace_only l)) Sample.list_lines
   = [ "/data/a/QTS1.sqlite"; "  /data/b/QTS2.sqlite "; "/data/c/QTS3.sqlite" ] /\
   Merge.read_sqlite_paths "/data"
     (<["/data/inputs.txt" :=
          TextFile [""; "   "; String "009" (String "010" "");
                    String "160" (String "013" (String "010" ""))]]> Sample.files)
     "/data/inputs.txt"
   = Raise (ValueError "Input list file has no SQLite paths: " "/data/inputs.txt")) /\
  Extract.read_sqlite_paths "/data" Sample.files "/data/inputs.txt" =
    Merge.read_sqlite_paths "/data" Sample.files "/data/inputs.txt" /\
  (forall raw_line, In raw_line Sample.list_lines ->
     is_empty (strip raw_line) = whitespace_only raw_line) /\
  (forall raw_line, In raw_line Sample.list_lines ->
     trimmed (strip raw_line) = true /\
     exists before after,
       raw_line = before +:+ (strip raw_line +:+ after) /\
       whitespace_only before = true /\ whitespace_only after = true) /\
  Merge.read_lines "/data" Sample.files Sample.list_lines [] =
    Merge.read_lines "/data" Sample.files
      (List.filter (fun l => negb (whitespace_only l)) Sample.list_lines) [] /\
  (forall paths,
     Merge.read_sqlite_paths "/data" Sample.files "/data/inputs.txt" = Ok paths ->
     paths = map (fun l => resolve "/data" (strip l))
                 (List.filter (fun l => negb (whitespace_only l)) Sample.list_lines)) /\
  (forallb whitespace_only Sample.list_lines = true ->
     Merge.read_sqlite_paths "/data" Sample.files "/data/inputs.txt" =
     Raise (ValueError "Input list file has no SQLite paths: " "/data/inputs.txt")).
Proof.
  assert (H : Sample.files !! "/data/inputs.txt" = Some (TextFile Sample.list_lines))
    by reflexivity.
  split; [exact H |].
  split; [exact (conj sample_read (conj eq_refl sample_blank_list)) |].
  exact (C10_blank_lines_skipped "/data" Sample.files "/data/inputs.txt"
           Sample.list_lines H).
Defined.

(** The sample case of the extraction: the two rows kept of a group of
    four and of a group of two. *)
Example sample_extraction :
  map id (Extract.select_duplicates Sample.table_d) = [1; 2; 3; 8] /\
  duplicate_groups Sample.table_d = 2%nat.
Proof. by vm_compute. Qed.

(** * Further properties of the merge *)

Section MergeMore.

Variable rt : real -> string.

Local Abbreviation is_duplicate := (Merge.is_duplicate rt).

Lemma merged_table_cols sources :
  map cols (merged_table rt sources) = first_seen rt (encounter sources).
Proof. apply cols_fill. Qed.


Lemma merged_table_covers sources s r :
  In s sources -> In r s ->
  exists o, In o (merged_table rt sources) /\ is_duplicate (cols o) (cols r) = true.
Proof.
  intros Hs Hr.
  destruct (distinct_by_covers is_duplicate (encounter sources) (cols r)
              (is_duplicate_refl rt) (is_duplicate_sym rt) (is_duplicate_trans rt))
    as (q & Hq & Hqr).
  { apply encounter_In. by exists s, r. }
  fold (first_seen rt (encounter sources)) in Hq.
  rewrite <- merged_table_cols in Hq.
  apply in_map_iff in Hq as (o & <- & Ho). by exists o.
Qed.

Lemma merged_table_from_sources sources o :
  In o (merged_table rt sources) ->
  exists s r, In s sources /\ In r s /\ cols o = cols r.
Proof.
  intros Ho. apply encounter_In.
  apply (distinct_by_elem is_duplicate).
  fold (first_seen rt (encounter sources)). rewrite <- merged_table_cols.
  by apply in_map.
Qed.

End MergeMore.


(** X2: the merge loses no identity key and invents no row: every record
    of every source has a duplicate in the merged table, and every row of
    the merged table carries the payload of a record of some source. *)
Theorem merged_rows_cover_sources (rt : real -> string) (out : string)
    (fs : filesystem) (paths : list string) (sources : list table) :
  ~ In out paths ->
  Forall2 (fun p s => Merge.attached_table fs p = Ok s) paths sources ->
  exists counts conn fs',
    Merge.merge_inputs rt (Merge.create_output_table out)
      (Merge.commit (Merge.create_output_table out) fs) paths []
    = (Ok counts, conn, fs') /\
    (forall s r, In s sources -> In r s ->
       exists o, In o (Merge.rows conn) /\
                 Merge.is_duplicate rt (cols o) (cols r) = true) /\
    (forall o, In o (Merge.rows conn) ->
       exists s r, In s sources /\ In r s /\ cols o = cols r).
Proof.
  intros Hout Hall.
  rewrite (merge_inputs_ok rt paths sources (Merge.create_output_table out) fs []);
    [| exact Hout | exact Hall].
  eexists _, _, _. split; [reflexivity |].
  cbn [Merge.rows Merge.create_output_table]. split.
  - intros s r. apply merged_table_covers.
  - intros o. apply merged_table_from_sources.
Qed.

Lemma StronglySorted_of_lookup {A} (R : A -> A -> Prop) (l : list A) :
  (forall i j x y, (i < j)%nat -> l !! i = Some x -> l !! j = Some y -> R x y) ->
  StronglySorted R l.
Proof.
  induction l as [| a l IH]; intros H; [constructor |].
  constructor.
  - apply IH. intros i j x y Hij Hi Hj. apply (H (S i) (S j) x y); [lia | done..].
  - apply Forall_forall. intros x Hx.
    apply list_elem_of_lookup_1 in Hx as [j Hj].
    apply (H 0%nat (S j) a x); [lia | done..].
Qed.

Lemma filter_length_le {A} (f : A -> bool) l :
  (length (List.filter f l) <= length l)%nat.
Proof. induction l as [| x l IH]; simpl; [lia |]. destruct (f x); simpl; lia. Qed.

Lemma filter_length_all {A} (f : A -> bool) l :
  length (List.filter f l) = length l -> forall x, In x l -> f x = true.
Proof.
  induction l as [| a l IH]; simpl; [tauto |].
  pose proof (filter_length_le f l) as Hle.
  destruct (f a) eqn:Ha; simpl; intros Hlen x [<- | Hx]; auto; lia.
Qed.

Lemma distinct_by_length_le {A} (same : A -> A -> bool) l :
  (length (distinct_by same l) <= length l)%nat.
Proof.
  induction l as [| a l IH]; simpl; [lia |].
  pose proof (filter_length_le (fun y => negb (same a y)) (distinct_by same l)).
  lia.
Qed.

Lemma distinct_by_apart_id {A} (same : A -> A -> bool) l :
  StronglySorted (fun x y => same x y = false) l -> distinct_by same l = l.
Proof.
  induction 1 as [| a l Hs IH Hall]; simpl; [reflexivity |].
  rewrite IH. f_equal. apply filter_all. intros x Hx.
  rewrite Forall_forall in Hall. apply negb_true_iff, Hall.
  by apply list_elem_of_In.
Qed.

(** A list keeps its length exactly when no two of its elements are in
    one class. *)
Lemma distinct_by_length_iff {A} (same : A -> A -> bool) l :
  length (distinct_by same l) = length l <->
  StronglySorted (fun x y => same x y = false) l.
Proof.
  split; [| by intros ->%distinct_by_apart_id].
  induction l as [| a l IH]; simpl; intros Hlen; [constructor |].
  pose proof (filter_length_le (fun y => negb (same a y)) (distinct_by same l)) as H1.
  pose proof (distinct_by_length_le same l) as H2.
  assert (Hs : StronglySorted (fun x y => same x y = false) l) by (apply IH; lia).
  constructor; [exact Hs |].
  rewrite (distinct_by_apart_id same l Hs) in Hlen.
  apply Forall_forall. intros x Hx. apply negb_true_iff.
  apply (filter_length_all (fun y => negb (same a y)) l);
    [lia | by apply list_elem_of_In].
Qed.

(** X3: a run of the merge that ends well removes no row exactly when no
    two of the records it met are duplicates: the printed number of
    duplicate rows removed is 0 if and only if two records at different
    places of the encounter order never collide. *)
Theorem nothing_removed_iff_no_duplicates (rt : real -> string) (cwd : string)
    (a : Merge.args) (fs fs' : filesystem) (rep : Merge.report)
    (paths : list string) (sources : list table) :
  Merge.main rt cwd a fs = (Ok rep, fs') ->
  Merge.read_sqlite_paths cwd fs (resolve cwd (Merge.input_list a)) = Ok paths ->
  ~ In (resolve cwd (Merge.output_sqlite a)) paths ->
  Forall2 (fun p s => Merge.attached_table fs p = Ok s) paths sources ->
  Merge.duplicate_rows_removed rep = 0 <->
  (forall i j p q,
      (i < j)%nat ->
      encounter sources !! i = Some p -> encounter sources !! j = Some q ->
      Merge.is_duplicate rt p q = false).
Proof.
  intros Hmain Hread Hout Hall.
  rewrite (main_ok rt cwd a fs paths sources Hread Hout Hall) in Hmain.
  injection Hmain as <- _. cbn [Merge.duplicate_rows_removed].
  unfold count_rows.
  rewrite <- (length_map cols (merged_table rt sources)), merged_table_cols.
  unfold first_seen.
  pose proof (distinct_by_length_iff (Merge.is_duplicate rt) (encounter sources))
    as Hiff.
  split.
  - intros Hzero i j p q Hij Hi Hj.
    refine (StronglySorted_lookup
              (fun x y => Merge.is_duplicate rt x y = false)
              (encounter sources) i j p q _ Hij Hi Hj).
    apply Hiff. lia.
  - intros Hapart.
    assert (length (distinct_by (Merge.is_duplicate rt) (encounter sources))
            = length (encounter sources)); [| lia].
    apply Hiff. by apply StronglySorted_of_lookup.
Qed.

Lemma insert_or_ignore_covered rt l t :
  (forall p, In p l ->
     existsb (fun r => Merge.is_duplicate rt (cols r) p) t = true) ->
  fold_left (Merge.insert_or_ignore rt) l t = t.
Proof.
  induction l as [| p l IH]; intros H; simpl; [reflexivity |].
  unfold Merge.insert_or_ignore at 2. rewrite (H p) by (by left).
  apply IH. intros q Hq. apply H. by right.
Qed.

(** X4: a source that brings no new identity key adds nothing: when every
    record of the last listed file is a duplicate of a record of a file
    listed before it -- the same file listed twice, for one -- the merged
    table is, ids included, the one of the list without that file. *)
Theorem covered_source_adds_nothing (rt : real -> string) (out : string)
    (fs : filesystem) (paths : list string) (sources : list table)
    (p : string) (s : table) :
  ~ In out (paths ++ [p]) ->
  Forall2 (fun p s => Merge.attached_table fs p = Ok s) paths sources ->
  Merge.attached_table fs p = Ok s ->
  (forall r, In r s ->
     exists s' r', In s' sources /\ In r' s' /\
                   Merge.is_duplicate rt (cols r') (cols r) = true) ->
  exists counts conn fs1 counts' conn' fs1',
    Merge.merge_inputs rt (Merge.create_output_table out)
      (Merge.commit (Merge.create_output_table out) fs) (paths ++ [p]) []
    = (Ok counts, conn, fs1) /\
    Merge.merge_inputs rt (Merge.create_output_table out)
      (Merge.commit (Merge.create_output_table out) fs) paths []
    = (Ok counts', conn', fs1') /\
    Merge.rows conn = Merge.rows conn' /\
    fs1 = fs1'.
Proof.
  intros Hout Hall Hp Hcov.
  rewrite (merge_inputs_ok rt (paths ++ [p]) (sources ++ [s])
             (Merge.create_output_table out) fs []);
    [| exact Hout | apply Forall2_app; [exact Hall | by repeat constructor]].
  rewrite (merge_inputs_ok rt paths sources (Merge.create_output_table out) fs []);
    [| intros Hin; apply Hout, in_or_app; by left | exact Hall].
  eexists _, _, _, _, _, _. split; [reflexivity |]. split; [reflexivity |].
  cbn [Merge.rows Merge.create_output_table Merge.path Merge.index_names].
  assert (Hrows : fold_left (Merge.insert_or_ignore rt) (encounter (sources ++ [s])) []
                  = fold_left (Merge.insert_or_ignore rt) (encounter sources) []).
  { rewrite encounter_app, fold_left_app. apply insert_or_ignore_covered.
    intros q Hq. apply encounter_In in Hq as (s0 & r & [<- | []] & Hr & ->).
    destruct (Hcov r Hr) as (s' & r' & Hs' & Hr' & Hdup).
    destruct (merged_table_covers rt sources s' r' Hs' Hr') as (o & Ho & Hor).
    apply existsb_exists. exists o. split; [exact Ho |].
    eapply is_duplicate_trans; eassumption. }
  by rewrite Hrows.
Qed.

Section ClassCount.

Context {A : Type} (same : A -> A -> bool).
Hypothesis same_sym : forall x y, same x y = same y x.
Hypothesis same_trans :
  forall x y z, same x y = true -> same y z = true -> same x z = true.

(** The number of chosen elements that pass a test which cannot tell the
    elements of one class apart does not depend on the order of the
    list. *)
Lemma distinct_by_count_perm l l' (P : A -> bool) :
  l ≡ₚ l' ->
  (forall x y, same x y = true -> P x = P y) ->
  length (List.filter P (distinct_by same l)) =
  length (List.filter P (distinct_by same l')).
Proof using same_sym same_trans.
  intros Hperm. revert P.
  induction Hperm as [| x l l' Hperm IH | x y l | l l' l'' _ IH1 _ IH2];
    intros P HP.
  - reflexivity.
  - cbn [distinct_by List.filter]. rewrite !filter_filter_andb.
    assert (Hrest : length (List.filter (fun y => negb (same x y) && P y)
                              (distinct_by same l)) =
                    length (List.filter (fun y => negb (same x y) && P y)
                              (distinct_by same l'))).
    { apply IH. intros a b Hab.
      by rewrite (HP a b Hab), (same_sym x a), (same_sym x b),
           (same_congr same same_sym same_trans a b x Hab). }
    destruct (P x); simpl; by rewrite Hrest.
  - assert (Hswap : forall D,
              List.filter P (List.filter (fun a => negb (same y a))
                               (List.filter (fun a => negb (same x a)) D)) =
              List.filter P (List.filter (fun a => negb (same x a))
                               (List.filter (fun a => negb (same y a)) D))).
    { intros D. rewrite !filter_filter_andb. apply List.filter_ext. intros a.
      by destruct (same x a), (same y a), (P a). }
    cbn [distinct_by List.filter]. rewrite (same_sym x y).
    destruct (same y x) eqn:Hyx; cbn [negb List.filter].
    + rewrite (HP y x Hyx), Hswap. by destruct (P x).
    + rewrite Hswap. destruct (P x), (P y); reflexivity.
  - rewrite (IH1 P HP). by apply IH2.
Qed.

Lemma distinct_by_length_perm l l' :
  l ≡ₚ l' -> length (distinct_by same l) = length (distinct_by same l').
Proof using same_sym same_trans.
  intros Hperm.
  rewrite <- (filter_all (fun _ => true) (distinct_by same l)) by done.
  rewrite <- (filter_all (fun _ => true) (distinct_by same l')) by done.
  by apply distinct_by_count_perm.
Qed.

End ClassCount.

Lemma encounter_perm sources sources' :
  sources ≡ₚ sources' -> encounter sources ≡ₚ encounter sources'.
Proof.
  intros Hperm. unfold encounter. rewrite <- !flat_map_concat_map.
  by apply Permutation_flat_map.
Qed.

(** X5: the order of the list matters for which row is kept, not for how
    many: two lists of the same sources in different orders give merged
    tables of the same number of rows, holding the same identity keys. *)
Theorem merged_row_count_order_independent (rt : real -> string) (out : string)
    (fs : filesystem) (paths paths' : list string) (sources sources' : list table) :
  ~ In out paths -> ~ In out paths' ->
  Forall2 (fun p s => Merge.attached_table fs p = Ok s) paths sources ->
  Forall2 (fun p s => Merge.attached_table fs p = Ok s) paths' sources' ->
  sources ≡ₚ sources' ->
  exists counts conn fs1 counts' conn' fs1',
    Merge.merge_inputs rt (Merge.create_output_table out)
      (Merge.commit (Merge.create_output_table out) fs) paths []
    = (Ok counts, conn, fs1) /\
    Merge.merge_inputs rt (Merge.create_output_table out)
      (Merge.commit (Merge.create_output_table out) fs) paths' []
    = (Ok counts', conn', fs1') /\
    count_rows (Merge.rows conn) = count_rows (Merge.rows conn') /\
    (forall o, In o (Merge.rows conn) ->
       exists o', In o' (Merge.rows conn') /\
                  Merge.is_duplicate rt (cols o') (cols o) = true).
Proof.
  intros Hout Hout' Hall Hall' Hperm.
  rewrite (merge_inputs_ok rt paths sources (Merge.create_output_table out) fs []);
    [| exact Hout | exact Hall].
  rewrite (merge_inputs_ok rt paths' sources' (Merge.create_output_table out) fs []);
    [| exact Hout' | exact Hall'].
  eexists _, _, _, _, _, _. split; [reflexivity |]. split; [reflexivity |].
  cbn [Merge.rows Merge.create_output_table].
  fold (merged_table rt sources). fold (merged_table rt sources'). split.
  - unfold count_rows. f_equal.
    rewrite <- (length_map cols (merged_table rt sources)).
    rewrite <- (length_map cols (merged_table rt sources')).
    rewrite !merged_table_cols. unfold first_seen.
    apply distinct_by_length_perm.
    + apply is_duplicate_sym.
    + apply is_duplicate_trans.
    + by apply encounter_perm.
  - intros o Ho.
    destruct (merged_table_from_sources rt sources o Ho) as (s & r & Hs & Hr & Hcols).
    rewrite Hcols. apply (merged_table_covers rt sources' s r); [| exact Hr].
    eapply Permutation_in; [exact Hperm | exact Hs].
Qed.

(** ** What a run of the merge leaves alone, and what it leaves when
    it fails *)

Lemma merge_inputs_frame rt conn fs paths counts p :
  p <> Merge.path conn ->
  (Merge.merge_inputs rt conn fs paths counts).2 !! p = fs !! p.
Proof.
  intros Hp. revert conn fs counts Hp.
  induction paths as [| q paths IH]; intros conn fs counts Hp; [reflexivity |].
  cbn [Merge.merge_inputs].
  destruct (Merge.attached_table fs q) as [s |]; [| reflexivity].
  rewrite IH by exact Hp. unfold Merge.commit.
  by rewrite lookup_insert_ne.
Qed.

(** X6: a run of the merge, however it ends, changes no file but the one
    at the output path: the list file and the sources are as they
    were. *)
Theorem main_touches_only_output (rt : real -> string) (cwd : string)
    (a : Merge.args) (fs : filesystem) (p : string) :
  p <> resolve cwd (Merge.output_sqlite a) ->
  (Merge.main rt cwd a fs).2 !! p = fs !! p.
Proof.
  intros Hp. unfold Merge.main.
  destruct (Merge.read_sqlite_paths cwd fs _) as [paths |]; [| reflexivity].
  set (out := resolve cwd (Merge.output_sqlite a)) in *.
  pose proof (merge_inputs_frame rt (Merge.create_output_table out)
                (Merge.commit (Merge.create_output_table out) (delete out fs))
                paths [] p Hp) as Hframe.
  destruct (Merge.merge_inputs _ _ _ _ _) as [[[counts | e] conn] fs2] eqn:Hrun;
    cbn [snd] in *.
  - assert (Hpath : Merge.path conn = out).
    { clear Hframe. revert Hrun. generalize (@nil (string * Z)).
      generalize (Merge.commit (Merge.create_output_table out) (delete out fs)).
      change out with (Merge.path (Merge.create_output_table out)) at 2.
      generalize (Merge.create_output_table out).
      induction paths as [| q paths IH]; intros c f acc; cbn [Merge.merge_inputs].
      - by intros [= _ <- _].
      - destruct (Merge.attached_table f q); [| discriminate].
        intros Hrun. by apply IH in Hrun. }
    unfold Merge.commit. cbn [Merge.path Merge.create_final_indexes].
    rewrite Hpath, lookup_insert_ne by congruence.
    rewrite Hframe. unfold Merge.commit. cbn [Merge.path Merge.create_output_table].
    by rewrite lookup_insert_ne, lookup_delete_ne by congruence.
  - rewrite Hframe. unfold Merge.commit. cbn [Merge.path Merge.create_output_table].
    by rewrite lookup_insert_ne, lookup_delete_ne by congruence.
Qed.

Lemma merge_inputs_app rt conn fs l1 l2 counts :
  Merge.merge_inputs rt conn fs (l1 ++ l2) counts =
  match Merge.merge_inputs rt conn fs l1 counts with
  | (Ok counts', conn', fs') => Merge.merge_inputs rt conn' fs' l2 counts'
  | failed => failed
  end.
Proof.
  revert conn fs counts. induction l1 as [| p l1 IH]; intros conn fs counts;
    [reflexivity |].
  cbn [app Merge.merge_inputs].
  destruct (Merge.attached_table fs p); [apply IH | reflexivity].
Qed.

(** X7: rows committed from earlier sources stay when a later source
    fails.  When the files listed first have their table and the next one
    is a database without it, the run raises SQLite's OperationalError, and
    the output file is left holding the merge of the files before it, still
    under its temporary unique index and without the final indexes. *)
Theorem failed_source_leaves_partial_merge (rt : real -> string) (cwd : string)
    (a : Merge.args) (fs : filesystem) (good rest : list string) (bad : string)
    (sources : list table) (db : database) :
  Merge.read_sqlite_paths cwd fs (resolve cwd (Merge.input_list a))
    = Ok (good ++ bad :: rest) ->
  ~ In (resolve cwd (Merge.output_sqlite a)) (good ++ [bad]) ->
  Forall2 (fun p s => Merge.attached_table fs p = Ok s) good sources ->
  fs !! bad = Some (SqliteFile db) ->
  credible_set_table db = None ->
  exists message,
    Merge.main rt cwd a fs =
    (Raise (OperationalError message),
     <[resolve cwd (Merge.output_sqlite a) :=
         SqliteFile {| credible_set_table := Some (merged_table rt sources);
                       indexes := ["uq_full_row_tmp"] |}]> fs).
Proof.
  intros Hread Hout Hall Hdb Hnone.
  assert (Hbad : Merge.attached_table fs bad
                 = Raise (OperationalError "no such table: credible_set_table")).
  { unfold Merge.attached_table. by rewrite Hdb, Hnone. }
  eexists. unfold Merge.main. rewrite Hread.
  set (out := resolve cwd (Merge.output_sqlite a)) in *.
  assert (Hgood : ~ In out good) by (intros H; apply Hout, in_or_app; by left).
  assert (Hb : bad <> out).
  { intros Heq. apply Hout, in_or_app. right. by left. }
  rewrite merge_inputs_app.
  rewrite (merge_inputs_ok rt good sources (Merge.create_output_table out)
             (delete out fs) []); [| exact Hgood |].
  2:{ eapply Forall2_attached_ext; [| exact Hall].
      intros p Hp. apply attached_table_delete. intros ->. contradiction. }
  cbn [Merge.merge_inputs].
  rewrite attached_table_commit by exact Hb.
  rewrite attached_table_delete by exact Hb. rewrite Hbad.
  unfold Merge.commit. cbn [Merge.path Merge.rows Merge.index_names
                            Merge.create_output_table].
  by rewrite insert_delete_eq.
Qed.

(** * Further properties of the list file *)

Lemma read_lines_app cwd fs l1 l2 acc :
  Merge.read_lines cwd fs (l1 ++ l2) acc =
  match Merge.read_lines cwd fs l1 acc with
  | Ok acc' => Merge.read_lines cwd fs l2 acc'
  | Raise e => Raise e
  end.
Proof.
  revert acc. induction l1 as [| raw_line l1 IH]; intros acc; [reflexivity |].
  cbn [app Merge.read_lines].
  destruct (is_empty (strip raw_line)); [apply IH |].
  destruct (negb (is_absolute _)); [reflexivity |].
  destruct (negb (bool_decide _)); [reflexivity | apply IH].
Qed.

Lemma read_lines_checked cwd (fs : filesystem) raw_lines acc paths :
  Forall (fun p => is_Some (fs !! p) /\ is_absolute p = true) acc ->
  Merge.read_lines cwd fs raw_lines acc = Ok paths ->
  Forall (fun p => is_Some (fs !! p) /\ is_absolute p = true) paths.
Proof.
  revert acc. induction raw_lines as [| raw_line rest IH]; intros acc Hacc;
    cbn [Merge.read_lines].
  - by intros [= <-].
  - destruct (is_empty (strip raw_line)); [by apply IH |].
    destruct (is_absolute (resolve cwd (strip raw_line))) eqn:Habs;
      [| discriminate].
    destruct (bool_decide (is_Some (fs !! resolve cwd (strip raw_line))))
      eqn:Hex; [| discriminate].
    cbn [negb]. apply IH. apply Forall_app. split; [exact Hacc |].
    constructor; [| constructor]. split; [| exact Habs].
    by apply bool_decide_eq_true in Hex.
Qed.

(** X8: what [read_sqlite_paths] returns, in either script, is a list
    that is not empty, of absolute paths that exist. *)
Theorem read_paths_exist_and_absolute (cwd : string) (fs : filesystem)
    (list_file : string) (paths : list string) :
  Merge.read_sqlite_paths cwd fs list_file = Ok paths \/
  Extract.read_sqlite_paths cwd fs list_file = Ok paths ->
  paths <> [] /\
  forall p, In p paths -> is_Some (fs !! p) /\ is_absolute p = true.
Proof.
  intros Hread.
  assert (H : Merge.read_sqlite_paths cwd fs list_file = Ok paths).
  { destruct Hread as [H | H]; [exact H |].
    by rewrite <- extract_read_sqlite_paths. }
  clear Hread. unfold Merge.read_sqlite_paths in H.
  destruct (fs !! list_file) as [[raw_lines | db] |]; try discriminate.
  destruct (Merge.read_lines cwd fs raw_lines []) as [[| p ps] |] eqn:Hlines;
    try discriminate.
  injection H as <-. split; [discriminate |].
  apply read_lines_checked in Hlines; [| constructor].
  rewrite Forall_forall in Hlines. intros q Hq.
  by apply Hlines, list_elem_of_In.
Qed.

(** X9: the first listed path that does not exist stops the run of the
    merge.  When the lines before it pass, the run raises the error naming
    that path, whatever the lines after it are, and the file system is as
    it was: no output file is made and an old one is not removed. *)
Theorem first_missing_path_stops_run (rt : real -> string) (cwd : string)
    (a : Merge.args) (fs : filesystem) (before rest : list string)
    (raw_line : string) (passed : list string) :
  is_absolute cwd = true ->
  fs !! resolve cwd (Merge.input_list a)
    = Some (TextFile (before ++ raw_line :: rest)) ->
  Merge.read_lines cwd fs before [] = Ok passed ->
  is_empty (strip raw_line) = false ->
  fs !! resolve cwd (strip raw_line) = None ->
  Merge.main rt cwd a fs =
  (Raise (ValueError "Input SQLite file does not exist: "
                     (resolve cwd (strip raw_line))), fs).
Proof.
  intros Hcwd Hfile Hbefore Hline Hmiss. apply main_fail_fast.
  unfold Merge.read_sqlite_paths. rewrite Hfile, read_lines_app, Hbefore.
  by rewrite (read_missing_source cwd fs raw_line rest passed Hline
                (resolve_is_absolute cwd _ Hcwd) Hmiss).
Qed.

(** * The order of the rows in a source *)

(** With [id] as the primary key, ORDER BY id gives one order whatever the
    order the rows are stored in. *)
Lemma order_by_id_canonical t t' :
  t ≡ₚ t' -> primary_key t -> order_by_id t = order_by_id t'.
Proof.
  intros Hperm Hpk.
  apply (StronglySorted_unique_strong le_id);
    [| apply order_by_id_sorted | apply order_by_id_sorted
     | by rewrite !order_by_id_perm].
  intros x y Hx Hy Hxy Hyx. unfold le_id in *.
  apply list_elem_of_In in Hx, Hy. rewrite order_by_id_In in Hx, Hy.
  apply (NoDup_map_inj id t); [exact Hpk | exact Hx | | lia].
  eapply Permutation_in; [symmetry; exact Hperm | exact Hy].
Qed.

(** X10: the merge does not depend on the order in which a source stores
    its rows: two tables with the same rows, [id] being their primary key,
    leave the output table the same when they are inserted. *)
Theorem insert_new_rows_storage_order (rt : real -> string)
    (conn : Merge.connection) (t t' : table) :
  t ≡ₚ t' -> primary_key t ->
  Merge.insert_new_rows rt conn t = Merge.insert_new_rows rt conn t'.
Proof.
  intros Hperm Hpk. unfold Merge.insert_new_rows.
  by rewrite (order_by_id_canonical t t' Hperm Hpk).
Qed.

(** X11: the extraction does not depend on the order in which the source
    stores its rows either: two tables with the same rows, [id] being
    their primary key, give the same extracted rows in the same order. *)
Theorem select_duplicates_storage_order (t t' : table) :
  t ≡ₚ t' -> primary_key t ->
  Extract.select_duplicates t = Extract.select_duplicates t'.
Proof.
  intros Hperm Hpk. unfold Extract.select_duplicates, Extract.ranked.
  rewrite (order_by_id_canonical t t' Hperm Hpk).
  do 3 f_equal. apply map_ext. intros [r n]. f_equal.
  apply Permutation_length. unfold Extract.partition_of.
  clear Hpk. induction Hperm; simpl;
    repeat match goal with |- context [if ?b then _ else _] => destruct b end;
    try reflexivity.
  - by apply perm_skip.
  - exact IHHperm.
  - apply perm_swap.
  - by etransitivity.
Qed.

(** * Further properties of the extraction *)







(** X13: the rows of the extraction come in pairs: the payload group of
    every row it selects has exactly two rows among the selected rows, and
    two rows or more in the source, so that the output shows each
    duplication on its own. *)
Theorem selected_rows_come_in_pairs (t : table) (o : row) :
  In o (Extract.select_duplicates t) ->
  length (Extract.partition_of o (Extract.select_duplicates t)) = 2%nat /\
  (2 <= length (Extract.partition_of o t))%nat.
Proof.
  intros Ho.
  assert (Hin : In o (Extract.partition_of o (Extract.select_duplicates t))).
  { apply partition_of_In. split; [exact Ho | apply same_partition_refl]. }
  rewrite partition_of_select in *.
  destruct (Nat.ltb_spec 1 (length (Extract.partition_of o t))) as [Hlen |];
    [| destruct Hin].
  rewrite length_firstn, order_by_id_length. lia.
Qed.

Lemma insert_rows_repeated out selection :
  NoDup (map id out) ->
  ~ NoDup (map id (out ++ selection)) ->
  Extract.insert_rows out selection =
  Raise (IntegrityError "UNIQUE constraint failed: credible_set_table.id").
Proof.
  revert out. induction selection as [| r rest IH]; intros out Hout Hrep.
  - destruct Hrep. by rewrite app_nil_r.
  - cbn [Extract.insert_rows]. case_bool_decide as Hin; [reflexivity |].
    apply IH.
    + rewrite map_app. apply NoDup_app. split; [exact Hout |].
      split; [| apply NoDup_singleton].
      intros x Hx Hr. apply list_elem_of_In in Hr as [<- | []]. exact (Hin Hx).
    + by rewrite <- app_assoc.
Qed.

(** A run of the extraction on a file that has its table, when two of the
    rows to copy have the same id. *)
Lemma extract_repeated_id (fs : filesystem) source_db output_db db t :
  source_db <> output_db ->
  fs !! source_db = Some (SqliteFile db) ->
  credible_set_table db = Some t ->
  ~ NoDup (map id (Extract.select_duplicates t)) ->
  Extract.extract_duplicates_for_file fs source_db output_db =
  (Raise (IntegrityError "UNIQUE constraint failed: credible_set_table.id"),
   <[output_db := Extract.output_file []]> fs).
Proof.
  intros Hne Hsrc Ht Hrep. unfold Extract.extract_duplicates_for_file.
  unfold Extract.source_table.
  rewrite lookup_delete_ne, Hsrc, Ht by congruence.
  rewrite insert_rows_repeated; [| constructor | exact Hrep].
  by rewrite insert_delete_eq.
Qed.

(** A run of the extraction on a file that has its table. *)
Lemma extract_with_table (fs : filesystem) source_db output_db db t :
  source_db <> output_db ->
  fs !! source_db = Some (SqliteFile db) ->
  credible_set_table db = Some t ->
  Extract.extract_duplicates_for_file fs source_db output_db =
  match Extract.insert_rows [] (Extract.select_duplicates t) with
  | Ok out => (Ok (count_rows out), <[output_db := Extract.output_file out]> fs)
  | Raise e => (Raise e, <[output_db := Extract.output_file []]> fs)
  end.
Proof.
  intros Hne Hsrc Ht. unfold Extract.extract_duplicates_for_file.
  unfold Extract.source_table.
  rewrite lookup_delete_ne, Hsrc, Ht by congruence.
  destruct (Extract.insert_rows [] _); cbv zeta;
    by rewrite ?insert_insert_eq, insert_delete_eq.
Qed.

(** X14: running the extraction again on what it left, for a source that
    has its table and is not the output file, gives the same result and the
    same file system, whether it ended well or not: an output from an
    earlier run is removed, never added to. *)
Theorem extraction_rerun_same (fs : filesystem) (source_db output_db : string)
    (db : database) (t : table) :
  source_db <> output_db ->
  fs !! source_db = Some (SqliteFile db) ->
  credible_set_table db = Some t ->
  Extract.extract_duplicates_for_file
    (Extract.extract_duplicates_for_file fs source_db output_db).2
    source_db output_db
  = Extract.extract_duplicates_for_file fs source_db output_db.
Proof.
  intros Hne Hsrc Ht.
  rewrite (extract_with_table fs source_db output_db db t Hne Hsrc Ht).
  destruct (Extract.insert_rows [] (Extract.select_duplicates t)) as [out | e]
    eqn:Hins; cbn [snd].
  - rewrite (extract_with_table _ source_db output_db db t Hne);
      [| by rewrite lookup_insert_ne by congruence | exact Ht].
    by rewrite Hins, insert_insert_eq.
  - rewrite (extract_with_table _ source_db output_db db t Hne);
      [| by rewrite lookup_insert_ne by congruence | exact Ht].
    by rewrite Hins, insert_insert_eq.
Qed.

(** X15: the extraction on a source that has its table changes no file
    but the one at the output path.  It raises exactly when two of the rows
    to copy have the same id, which a source without its primary key
    allows; the error is the IntegrityError of the output table, and the
    output file then holds the table without rows made for this run, not
    what an earlier run left there. *)
Theorem extraction_touches_only_output (fs : filesystem)
    (source_db output_db : string) (db : database) (t : table) :
  source_db <> output_db ->
  fs !! source_db = Some (SqliteFile db) ->
  credible_set_table db = Some t ->
  (forall p, p <> output_db ->
     (Extract.extract_duplicates_for_file fs source_db output_db).2 !! p
     = fs !! p) /\
  (~ NoDup (map id (Extract.select_duplicates t)) ->
   Extract.extract_duplicates_for_file fs source_db output_db =
   (Raise (IntegrityError "UNIQUE constraint failed: credible_set_table.id"),
    <[output_db := Extract.output_file []]> fs)) /\
  (forall e fs',
     Extract.extract_duplicates_for_file fs source_db output_db = (Raise e, fs') ->
     ~ NoDup (map id (Extract.select_duplicates t))).
Proof.
  intros Hne Hsrc Ht.
  rewrite (extract_with_table fs source_db output_db db t Hne Hsrc Ht).
  split; [| split].
  - intros p Hp.
    destruct (Extract.insert_rows [] _); cbn [snd];
      by rewrite lookup_insert_ne by congruence.
  - intros Hrep. by rewrite insert_rows_repeated; [| constructor |].
  - intros e fs' Hrun Hnd. by rewrite insert_rows_ok in Hrun.
Qed.

(** X20: the extraction does not notice a source without its table.  For
    a source database that has no [credible_set_table], the name in the
    query falls on the table just created in the output, which is empty:
    the call raises nothing, returns 0 and leaves an output with a table
    without rows, as it does for a source without duplicates. *)
Theorem source_without_table_extracts_nothing (fs : filesystem)
    (source_db output_db : string) (db : database) :
  source_db <> output_db ->
  fs !! source_db = Some (SqliteFile db) ->
  credible_set_table db = None ->
  Extract.extract_duplicates_for_file fs source_db output_db =
  (Ok 0, <[output_db := SqliteFile {| credible_set_table := Some [];
                                      indexes := [] |}]> fs).
Proof.
  intros Hne Hsrc Ht. unfold Extract.extract_duplicates_for_file.
  unfold Extract.source_table.
  rewrite lookup_delete_ne, Hsrc, Ht by congruence.
  cbn. by rewrite insert_insert_eq, insert_delete_eq.
Qed.

(** * The names of the output files of the extraction *)

Import Runs.

Lemma string_of_uint_lacks_underscore d :
  lacks "_" (NilEmpty.string_of_uint d) = true.
Proof. induction d; simpl; try reflexivity; exact IHd. Qed.

Lemma int_to_text_lacks_underscore z : lacks "_" (int_to_text z) = true.
Proof.
  unfold int_to_text.
  destruct z as [| p | p]; simpl; [reflexivity | |];
    unfold NilZero.string_of_uint; destruct (Pos.to_uint p) eqn:Hp;
    try reflexivity; rewrite <- Hp; try apply string_of_uint_lacks_underscore;
    unfold lacks; simpl; apply string_of_uint_lacks_underscore.
Qed.

Lemma format_02d_lacks_underscore i : lacks "_" (ExtractMain.format_02d i) = true.
Proof.
  unfold ExtractMain.format_02d. destruct (_ && _).
  - unfold lacks. simpl. apply int_to_text_lacks_underscore.
  - apply int_to_text_lacks_underscore.
Qed.

(** The decimal number a formatted index reads as is the index. *)
Lemma format_02d_value i :
  Z.of_int <$> NilZero.int_of_string (ExtractMain.format_02d i) = Some i.
Proof.
  unfold ExtractMain.format_02d.
  destruct ((0 <=? i) && (i <? 10)) eqn:Hsmall.
  - assert (Hi : 0 <= i < 10) by lia.
    assert (i = 0 \/ i = 1 \/ i = 2 \/ i = 3 \/ i = 4 \/ i = 5 \/ i = 6 \/ i = 7
            \/ i = 8 \/ i = 9) as Hcases by lia.
    repeat (destruct Hcases as [-> | Hcases]; [reflexivity |]). by subst.
  - unfold int_to_text. destruct (to_int_not_nil i) as [A B].
    rewrite (NilZero.isi _ A B). simpl. f_equal. apply DecimalZ.of_to.
Qed.

Lemma format_02d_inj i j :
  ExtractMain.format_02d i = ExtractMain.format_02d j -> i = j.
Proof.
  intros H. pose proof (format_02d_value i) as Hi.
  rewrite H, format_02d_value in Hi. congruence.
Qed.

(** Two strings without underscore that are followed by one are equal
    when the wholes are. *)
Lemma before_underscore s1 s2 r1 r2 :
  lacks "_" s1 = true -> lacks "_" s2 = true ->
  s1 +:+ String "_" r1 = s2 +:+ String "_" r2 -> s1 = s2.
Proof.
  revert s2. induction s1 as [| c s1 IH]; intros [| c' s2]; unfold lacks;
    simpl; intros H1 H2 Heq.
  - reflexivity.
  - injection Heq as <- _. discriminate.
  - injection Heq as -> _. discriminate.
  - injection Heq as -> Heq. f_equal.
    apply andb_true_iff in H1 as [_ H1]. apply andb_true_iff in H2 as [_ H2].
    by apply (IH s2 H1 H2).
Qed.

Lemma output_name_index s1 s2 i j :
  ExtractMain.output_name_for s1 i = ExtractMain.output_name_for s2 j -> i = j.
Proof.
  unfold ExtractMain.output_name_for. intros H.
  apply format_02d_inj.
  eapply before_underscore; [apply format_02d_lacks_underscore..| exact H].
Qed.

Lemma joinpath_inj dir n1 n2 :
  ExtractMain.joinpath dir n1 = ExtractMain.joinpath dir n2 -> n1 = n2.
Proof.
  unfold ExtractMain.joinpath. destruct (String.eqb dir "/"); intros H.
  - by apply (String.app_inj "/") in H.
  - apply (String.app_inj dir) in H. by apply (String.app_inj "/") in H.
Qed.

(** X16: the output file of a source carries its place in the list: two
    sources at different places of a run, whatever their directories, get
    different output files, so no output of a run overwrites another. *)
Theorem output_files_differ_by_index (output_dir s1 s2 : string) (i j : Z) :
  i <> j ->
  ExtractMain.joinpath output_dir (ExtractMain.output_name_for s1 i) <>
  ExtractMain.joinpath output_dir (ExtractMain.output_name_for s2 j).
Proof. intros Hij H. eapply Hij, output_name_index, joinpath_inj, H. Qed.

(** * A whole run of the extraction *)

Lemma output_paths_index output_dir i paths o :
  In o (output_paths output_dir i paths) ->
  exists s j, i <= j /\
    o = ExtractMain.joinpath output_dir (ExtractMain.output_name_for s j).
Proof.
  revert i. induction paths as [| s paths IH]; intros i; simpl; [tauto |].
  intros [<- | Ho].
  - exists s, i. split; [lia | reflexivity].
  - destruct (IH (i + 1) Ho) as (s' & j & Hj & ->). exists s', j. split; [lia | done].
Qed.

Lemma source_with_table_insert (fs : filesystem) o f p t :
  p <> o -> source_with_table fs p t -> source_with_table (<[o := f]> fs) p t.
Proof.
  intros Hp (db & Hdb & Ht & Hpk). exists db.
  by rewrite lookup_insert_ne by congruence.
Qed.

Lemma Forall2_source_insert (fs : filesystem) o f paths tables :
  ~ In o paths ->
  Forall2 (source_with_table fs) paths tables ->
  Forall2 (source_with_table (<[o := f]> fs)) paths tables.
Proof.
  intros Ho Hall. induction Hall as [| p t paths tables Hp Hall IH];
    constructor.
  - apply source_with_table_insert; [| exact Hp]. intros ->. apply Ho. by left.
  - apply IH. intros Hin. apply Ho. by right.
Qed.

(** The loop over sources that have their table, none of them being one
    of the output files. *)
Lemma main_loop_ok output_dir paths tables (fs : filesystem) i total :
  Forall2 (source_with_table fs) paths tables ->
  (forall o, In o (output_paths output_dir i paths) -> ~ In o paths) ->
  exists fs',
    ExtractMain.main_loop fs output_dir i paths total =
      (Ok (total + rows_to_extract tables), fs') /\
    (forall p, ~ In p (output_paths output_dir i paths) -> fs' !! p = fs !! p) /\
    Forall2 (fun o t => fs' !! o =
                        Some (Extract.output_file (Extract.select_duplicates t)))
            (output_paths output_dir i paths) tables.
Proof.
  revert tables fs i total.
  induction paths as [| s paths IH]; intros tables fs i total Hall Hout.
  - apply Forall2_nil_inv_l in Hall as ->. exists fs.
    unfold rows_to_extract. simpl. rewrite Z.add_0_r.
    split; [reflexivity |]. split; [done | constructor].
  - apply Forall2_cons_inv_l in Hall as (t & tables' & Hs & Hall & ->).
    cbn [ExtractMain.main_loop output_paths] in *.
    set (o := ExtractMain.joinpath output_dir (ExtractMain.output_name_for s i)) in *.
    assert (Ho : ~ In o (s :: paths)) by (apply Hout; by left).
    destruct Hs as (db & Hdb & Ht & Hpk).
    rewrite (extract_ok fs s o db t); [| | exact Hdb | exact Ht | exact Hpk].
    2:{ intros Heq. apply Ho. by left. }
    destruct (IH tables'
                (<[o := Extract.output_file (Extract.select_duplicates t)]> fs)
                (i + 1) (total + count_rows (Extract.select_duplicates t)))
      as (fs' & Hrun & Hframe & Houts).
    { apply Forall2_source_insert; [| exact Hall].
      intros Hin. apply Ho. by right. }
    { intros o' Ho' Hin. apply (Hout o'); by right. }
    exists fs'. split; [| split].
    + rewrite Hrun. f_equal. f_equal. unfold rows_to_extract, count_rows.
      cbn [map fold_right]. rewrite select_duplicates_length. lia.
    + intros p Hp. rewrite Hframe by (intros Hin; apply Hp; by right).
      apply lookup_insert_ne. intros <-. apply Hp. by left.
    + constructor; [| exact Houts].
      rewrite Hframe; [apply lookup_insert_eq |].
      intros Hin. apply output_paths_index in Hin as (s' & j & Hj & Heq).
      apply joinpath_inj, output_name_index in Heq. lia.
Qed.

Lemma rows_to_extract_even tables : Z.even (rows_to_extract tables) = true.
Proof.
  unfold rows_to_extract. induction tables as [| t tables IH]; [reflexivity |].
  cbn [map fold_right]. rewrite Z.even_add, IH, Z.even_mul. reflexivity.
Qed.

(** X17: a run of the extraction over a list of sources that have their
    table, with [id] as the primary key, none of them being one of the
    output files, ends well: the total it logs is twice the number of
    duplicated payload groups of all the sources, the output file of every
    source holds the rows extracted from that source, and no other file
    is changed. *)
Theorem extraction_run_total (cwd : string) (a : ExtractMain.args)
    (fs : filesystem) (paths : list string) (tables : list table) :
  Extract.read_sqlite_paths cwd fs (resolve cwd (ExtractMain.input_list a))
    = Ok paths ->
  Forall2 (source_with_table fs) paths tables ->
  (forall o, In o (output_paths (resolve cwd (ExtractMain.output_dir a)) 1 paths) ->
             ~ In o paths) ->
  exists fs',
    ExtractMain.main cwd a fs = (Ok (rows_to_extract tables), fs') /\
    Z.even (rows_to_extract tables) = true /\
    (forall p, ~ In p (output_paths (resolve cwd (ExtractMain.output_dir a)) 1 paths) ->
               fs' !! p = fs !! p) /\
    Forall2 (fun o t => fs' !! o =
                        Some (Extract.output_file (Extract.select_duplicates t)))
            (output_paths (resolve cwd (ExtractMain.output_dir a)) 1 paths) tables.
Proof.
  intros Hread Hall Hout. unfold ExtractMain.main. rewrite Hread.
  destruct (main_loop_ok (resolve cwd (ExtractMain.output_dir a)) paths tables
              fs 1 0 Hall Hout) as (fs' & Hrun & Hframe & Houts).
  exists fs'. rewrite Hrun. simpl.
  split; [reflexivity |]. split; [apply rows_to_extract_even |]. by split.
Qed.

Lemma main_loop_app (fs : filesystem) output_dir i l1 l2 total :
  ExtractMain.main_loop fs output_dir i (l1 ++ l2) total =
  match ExtractMain.main_loop fs output_dir i l1 total with
  | (Ok total', fs') =>
      ExtractMain.main_loop fs' output_dir (i + Z.of_nat (length l1)) l2 total'
  | failed => failed
  end.
Proof.
  revert fs i total. induction l1 as [| s l1 IH]; intros fs i total.
  - cbn [app length ExtractMain.main_loop]. by rewrite Z.add_0_r.
  - cbn [app length ExtractMain.main_loop].
    destruct (Extract.extract_duplicates_for_file fs s _) as [[rows | e] fs1];
      [| reflexivity].
    rewrite IH. by replace (i + 1 + Z.of_nat (length l1))
                     with (i + Z.of_nat (S (length l1))) by lia.
Qed.

Lemma output_paths_app output_dir i l1 l2 :
  output_paths output_dir i (l1 ++ l2) =
  output_paths output_dir i l1
    ++ output_paths output_dir (i + Z.of_nat (length l1)) l2.
Proof.
  revert i. induction l1 as [| s l1 IH]; intros i.
  - cbn [app length output_paths]. by rewrite Z.add_0_r.
  - cbn [app length output_paths]. rewrite IH.
    by replace (i + 1 + Z.of_nat (length l1))
         with (i + Z.of_nat (S (length l1))) by lia.
Qed.

Lemma output_paths_range output_dir i paths o :
  In o (output_paths output_dir i paths) ->
  exists s j, i <= j < i + Z.of_nat (length paths) /\
    o = ExtractMain.joinpath output_dir (ExtractMain.output_name_for s j).
Proof.
  revert i. induction paths as [| s paths IH]; intros i; [simpl; tauto |].
  cbn [output_paths length]. intros [<- | Ho].
  - exists s, i. split; [lia | reflexivity].
  - destruct (IH (i + 1) Ho) as (s' & j & Hj & ->). exists s', j. split; [lia | done].
Qed.

Lemma Forall2_lookup_insert_ne {B} (fs : filesystem) o f (outs : list string)
    (l : list B) (F : B -> file) :
  ~ In o outs ->
  Forall2 (fun o' x => fs !! o' = Some (F x)) outs l ->
  Forall2 (fun o' x => <[o := f]> fs !! o' = Some (F x)) outs l.
Proof.
  intros Ho Hall. induction Hall as [| o' x outs l Hx Hall IH]; constructor.
  - rewrite lookup_insert_ne; [exact Hx |]. intros ->. apply Ho. by left.
  - apply IH. intros Hin. apply Ho. by right.
Qed.

(** X19: a source that fails stops the run of the extraction where it
    is.  When the files listed first have their table with [id] as the
    primary key, and the next one has a table in which two of the rows to
    copy have the same id, the run raises the IntegrityError of that file:
    the outputs of the files before it hold their extracted rows, its own
    output holds a table without rows, and no other file is changed, so
    that nothing is written for the files listed after it. *)
Theorem extraction_run_stops_at_failure (cwd : string) (a : ExtractMain.args)
    (fs : filesystem) (good rest : list string) (bad : string)
    (tables : list table) (db : database) (t : table) :
  Extract.read_sqlite_paths cwd fs (resolve cwd (ExtractMain.input_list a))
    = Ok (good ++ bad :: rest) ->
  Forall2 (source_with_table fs) good tables ->
  fs !! bad = Some (SqliteFile db) ->
  credible_set_table db = Some t ->
  ~ NoDup (map id (Extract.select_duplicates t)) ->
  (forall o,
     In o (output_paths (resolve cwd (ExtractMain.output_dir a)) 1 (good ++ [bad])) ->
     ~ In o (good ++ [bad])) ->
  exists fs',
    ExtractMain.main cwd a fs =
      (Raise (IntegrityError "UNIQUE constraint failed: credible_set_table.id"),
       fs') /\
    Forall2 (fun o t => fs' !! o =
                        Some (Extract.output_file (Extract.select_duplicates t)))
            (output_paths (resolve cwd (ExtractMain.output_dir a)) 1 good) tables /\
    fs' !! ExtractMain.joinpath (resolve cwd (ExtractMain.output_dir a))
             (ExtractMain.output_name_for bad (1 + Z.of_nat (length good)))
      = Some (Extract.output_file []) /\
    (forall p,
       ~ In p (output_paths (resolve cwd (ExtractMain.output_dir a)) 1
                 (good ++ [bad])) ->
       fs' !! p = fs !! p).
Proof.
  intros Hread Hall Hdb Ht Hrep Hout. unfold ExtractMain.main. rewrite Hread.
  set (dir := resolve cwd (ExtractMain.output_dir a)) in *.
  set (o := ExtractMain.joinpath dir
              (ExtractMain.output_name_for bad (1 + Z.of_nat (length good)))).
  rewrite output_paths_app in Hout. cbn [output_paths] in Hout. fold o in Hout.
  assert (Hgood : forall o', In o' (output_paths dir 1 good) -> ~ In o' good).
  { intros o' Ho' Hin. apply (Hout o'); apply in_or_app; by left. }
  assert (Hbo : bad <> o).
  { intros Heq. apply (Hout o); apply in_or_app; right; [by left |].
    rewrite <- Heq. by left. }
  assert (Hbad : ~ In bad (output_paths dir 1 good)).
  { intros Hin. apply (Hout bad); apply in_or_app; [by left | right; by left]. }
  assert (Ho : ~ In o (output_paths dir 1 good)).
  { intros Hin. apply output_paths_range in Hin as (s' & j & Hj & Heq).
    apply joinpath_inj, output_name_index in Heq. lia. }
  destruct (main_loop_ok dir good tables fs 1 0 Hall Hgood)
    as (fs1 & Hrun & Hframe & Houts).
  rewrite main_loop_app, Hrun. cbn [ExtractMain.main_loop]. fold o.
  rewrite (extract_repeated_id fs1 bad o db t Hbo); [| | exact Ht | exact Hrep].
  2:{ by rewrite Hframe. }
  eexists. split; [reflexivity |]. split; [| split].
  - by apply Forall2_lookup_insert_ne.
  - apply lookup_insert_eq.
  - intros p Hp. rewrite output_paths_app in Hp. cbn [output_paths] in Hp.
    fold o in Hp.
    rewrite lookup_insert_ne.
    + apply Hframe. intros Hin. apply Hp, in_or_app. by left.
    + intros <-. apply Hp, in_or_app. right. by left.
Qed.

(** * The list file from its writer to its readers *)

Lemma append_snoc line c rest :
  (line +:+ String c "") +:+ rest = line +:+ String c rest.
Proof.
  induction line as [| c' line IH]; [reflexivity |].
  by rewrite !string_append_cons, IH.
Qed.

(** A path on one line, then a line feed: one raw line. *)
Lemma lines_from_path p rest line :
  one_line p = true ->
  ListPaths.lines_from (p +:+ String "010" rest) line =
  (line +:+ p +:+ String "010" "") :: ListPaths.lines_from rest "".
Proof.
  revert line. induction p as [| c p IH]; intros line Hp.
  - reflexivity.
  - unfold one_line, lacks in Hp. simpl in Hp.
    apply andb_true_iff in Hp as [Hlf Hcr].
    apply andb_true_iff in Hlf as [Hc1 Hlf]. apply andb_true_iff in Hcr as [Hc2 Hcr].
    rewrite string_append_cons. cbn [ListPaths.lines_from].
    apply negb_true_iff in Hc1, Hc2. rewrite Hc1, Hc2.
    rewrite IH by (unfold one_line, lacks; by rewrite Hlf, Hcr).
    f_equal. apply append_snoc.
Qed.

Lemma readlines_write_list matched :
  Forall (fun p => one_line p = true) matched ->
  ListPaths.readlines (ListPaths.write_list matched) =
  map (fun p => p +:+ String "010" "") matched.
Proof.
  unfold ListPaths.readlines, ListPaths.write_list.
  induction 1 as [| p matched Hp _ IH]; [reflexivity |].
  cbn [fold_right map].
  rewrite lines_from_path by exact Hp. by rewrite IH.
Qed.

Lemma rstrip_snoc_space s c : isspace c = true -> rstrip (s +:+ String c "") = rstrip s.
Proof.
  intros Hc. induction s as [| a s IH]; [simpl; by rewrite Hc |].
  rewrite string_append_cons. cbn [rstrip]. by rewrite IH.
Qed.

Lemma strip_line p :
  is_absolute p = true -> strip p = p -> strip (p +:+ String "010" "") = p.
Proof.
  intros Habs Hstrip. unfold strip in *.
  destruct p as [| c p]; [discriminate |]. simpl in Habs.
  destruct (Ascii.eqb_spec c "/") as [-> |]; [| by destruct c as [[] [] [] [] [] [] [] []]].
  rewrite string_append_cons. cbn [lstrip] in *.
  change (isspace "/") with false in *. cbn iota in *.
  rewrite <- string_append_cons. by rewrite rstrip_snoc_space.
Qed.

Lemma resolved_is_absolute p : resolved p = true -> is_absolute p = true.
Proof.
  unfold resolved. destruct p as [| c p]; [discriminate |].
  cbn [ExtractMain.segments].
  destruct (Ascii.eqb_spec c "/") as [-> | Hc]; [reflexivity |].
  by destruct (ExtractMain.segments p).
Qed.

Lemma read_lines_written cwd (fs : filesystem) matched acc :
  Forall (fun p => is_absolute p = true /\ strip p = p /\ is_Some (fs !! p))
         matched ->
  Merge.read_lines cwd fs (map (fun p => p +:+ String "010" "") matched) acc
  = Ok (acc ++ matched).
Proof.
  intros Hall. revert acc.
  induction Hall as [| p matched (Habs & Hstrip & Hex) _ IH]; intros acc.
  - simpl. by rewrite app_nil_r.
  - cbn [map Merge.read_lines]. rewrite (strip_line p Habs Hstrip).
    assert (Hne : is_empty p = false) by (by destruct p).
    assert (Hres : resolve cwd p = p) by (unfold resolve; by rewrite Habs).
    rewrite Hne, Hres, Habs. cbn [negb].
    rewrite (bool_decide_eq_true_2 _ Hex). cbn [negb].
    rewrite IH, <- app_assoc. reflexivity.
Qed.

(** X18: the list the lister writes is read back as it was written.  For
    resolved paths, as the lister writes them, that exist, fit on one line
    and have no white space at their ends, the lines written by
    [list_qts_sqlite_paths.py] give, through [read_sqlite_paths] of either
    script, the same paths in the same order; and the list written when
    nothing matched is refused for holding no path. *)
Theorem written_list_read_back (cwd : string) (fs : filesystem)
    (list_file : string) (matched : list string) :
  fs !! list_file
    = Some (TextFile (ListPaths.readlines (ListPaths.write_list matched))) ->
  Forall (fun p => resolved p = true /\ strip p = p /\ one_line p = true /\
                   is_Some (fs !! p)) matched ->
  Merge.read_sqlite_paths cwd fs list_file =
    match matched with
    | [] => Raise (ValueError "Input list file has no SQLite paths: " list_file)
    | _ => Ok matched
    end /\
  Extract.read_sqlite_paths cwd fs list_file =
    Merge.read_sqlite_paths cwd fs list_file.
Proof.
  intros Hfile Hall. split; [| apply extract_read_sqlite_paths].
  unfold Merge.read_sqlite_paths. rewrite Hfile.
  rewrite readlines_write_list.
  2:{ eapply Forall_impl; [exact Hall |]. simpl. tauto. }
  rewrite read_lines_written.
  2:{ eapply Forall_impl; [exact Hall |]. simpl.
      intros p (Hres & Hstrip & _ & Hex).
      split; [by apply resolved_is_absolute | by split]. }
  by destruct matched.
Qed.

(** * The further properties on the sample data *)

Ltac by_compute := apply (bool_decide_unpack _); vm_compute; exact I.

Lemma sample_pk_a : primary_key Sample.table_a.
Proof. unfold primary_key. by_compute. Qed.


Lemma X2_witness :
  (~ In "/data/merged.sqlite" Sample.paths /\
   Forall2 (fun p s => Merge.attached_table Sample.files p = Ok s)
           Sample.paths [Sample.table_a; Sample.table_b; Sample.table_c]) /\
  exists counts conn fs',
    Merge.merge_inputs Sample.real_text
      (Merge.create_output_table "/data/merged.sqlite")
      (Merge.commit (Merge.create_output_table "/data/merged.sqlite") Sample.files)
      Sample.paths []
    = (Ok counts, conn, fs') /\
    (forall s r, In s [Sample.table_a; Sample.table_b; Sample.table_c] -> In r s ->
       exists o, In o (Merge.rows conn) /\
                 Merge.is_duplicate Sample.real_text (cols o) (cols r) = true) /\
    (forall o, In o (Merge.rows conn) ->
       exists s r, In s [Sample.table_a; Sample.table_b; Sample.table_c] /\
                   In r s /\ cols o = cols r).
Proof.
  assert (Hout : ~ In "/data/merged.sqlite" Sample.paths) by not_listed.
  split; [exact (conj Hout sample_attached) |].
  exact (merged_rows_cover_sources Sample.real_text "/data/merged.sqlite"
           Sample.files Sample.paths _ Hout sample_attached).
Defined.

Lemma X3_witness :
  (Merge.main Sample.real_text "/data" Sample.merge_args Sample.files =
   (Ok {| Merge.merged_output := "/data/merged.sqlite";
          Merge.input_files := 3;
          Merge.total_input_rows := 15;
          Merge.merged_rows := 12;
          Merge.duplicate_rows_removed := 3 |},
    <["/data/merged.sqlite" :=
        final_file Sample.real_text
          [Sample.table_a; Sample.table_b; Sample.table_c]]> Sample.files) /\
   Merge.read_sqlite_paths "/data" Sample.files
     (resolve "/data" (Merge.input_list Sample.merge_args)) = Ok Sample.paths /\
   ~ In (resolve "/data" (Merge.output_sqlite Sample.merge_args)) Sample.paths /\
   Forall2 (fun p s => Merge.attached_table Sample.files p = Ok s)
           Sample.paths [Sample.table_a; Sample.table_b; Sample.table_c]) /\
  (3 = 0 <->
   (forall i j p q,
       (i < j)%nat ->
       encounter [Sample.table_a; Sample.table_b; Sample.table_c] !! i = Some p ->
       encounter [Sample.table_a; Sample.table_b; Sample.table_c] !! j = Some q ->
       Merge.is_duplicate Sample.real_text p q = false)).
Proof.
  assert (Hout : ~ In (resolve "/data" (Merge.output_sqlite Sample.merge_args))
                      Sample.paths) by not_listed.
  split; [exact (conj sample_main (conj sample_read (conj Hout sample_attached))) |].
  exact (nothing_removed_iff_no_duplicates Sample.real_text "/data"
           Sample.merge_args Sample.files _ _ Sample.paths _
           sample_main sample_read Hout sample_attached).
Defined.

Lemma X4_witness :
  (~ In "/data/merged.sqlite"
        (["/data/a/QTS1.sqlite"; "/data/b/QTS2.sqlite"] ++ ["/data/a/QTS1.sqlite"]) /\
   Forall2 (fun p s => Merge.attached_table Sample.files p = Ok s)
           ["/data/a/QTS1.sqlite"; "/data/b/QTS2.sqlite"]
           [Sample.table_a; Sample.table_b] /\
   Merge.attached_table Sample.files "/data/a/QTS1.sqlite" = Ok Sample.table_a /\
   (forall r, In r Sample.table_a ->
      exists s' r', In s' [Sample.table_a; Sample.table_b] /\ In r' s' /\
                    Merge.is_duplicate Sample.real_text (cols r') (cols r) = true)) /\
  exists counts conn fs1 counts' conn' fs1',
    Merge.merge_inputs Sample.real_text
      (Merge.create_output_table "/data/merged.sqlite")
      (Merge.commit (Merge.create_output_table "/data/merged.sqlite") Sample.files)
      (["/data/a/QTS1.sqlite"; "/data/b/QTS2.sqlite"] ++ ["/data/a/QTS1.sqlite"]) []
    = (Ok counts, conn, fs1) /\
    Merge.merge_inputs Sample.real_text
      (Merge.create_output_table "/data/merged.sqlite")
      (Merge.commit (Merge.create_output_table "/data/merged.sqlite") Sample.files)
      ["/data/a/QTS1.sqlite"; "/data/b/QTS2.sqlite"] []
    = (Ok counts', conn', fs1') /\
    Merge.rows conn = Merge.rows conn' /\
    fs1 = fs1'.
Proof.
  assert (H1 : ~ In "/data/merged.sqlite"
                 (["/data/a/QTS1.sqlite"; "/data/b/QTS2.sqlite"]
                    ++ ["/data/a/QTS1.sqlite"])) by not_listed.
  assert (H2 : Forall2 (fun p s => Merge.attached_table Sample.files p = Ok s)
                 ["/data/a/QTS1.sqlite"; "/data/b/QTS2.sqlite"]
                 [Sample.table_a; Sample.table_b]) by repeat constructor.
  assert (H3 : Merge.attached_table Sample.files "/data/a/QTS1.sqlite"
               = Ok Sample.table_a) by reflexivity.
  assert (H4 : forall r, In r Sample.table_a ->
                 exists s' r', In s' [Sample.table_a; Sample.table_b] /\ In r' s' /\
                   Merge.is_duplicate Sample.real_text (cols r') (cols r) = true).
  { intros r Hr. exists Sample.table_a, r.
    split; [by left |]. split; [exact Hr | apply is_duplicate_refl]. }
  split; [exact (conj H1 (conj H2 (conj H3 H4))) |].
  exact (covered_source_adds_nothing Sample.real_text "/data/merged.sqlite"
           Sample.files _ _ _ _ H1 H2 H3 H4).
Defined.

Lemma X5_witness :
  (~ In "/data/merged.sqlite" ["/data/a/QTS1.sqlite"; "/data/b/QTS2.sqlite"] /\
   ~ In "/data/merged.sqlite" ["/data/b/QTS2.sqlite"; "/data/a/QTS1.sqlite"] /\
   Forall2 (fun p s => Merge.attached_table Sample.files p = Ok s)
           ["/data/a/QTS1.sqlite"; "/data/b/QTS2.sqlite"]
           [Sample.table_a; Sample.table_b] /\
   Forall2 (fun p s => Merge.attached_table Sample.files p = Ok s)
           ["/data/b/QTS2.sqlite"; "/data/a/QTS1.sqlite"]
           [Sample.table_b; Sample.table_a] /\
   [Sample.table_a; Sample.table_b] ≡ₚ [Sample.table_b; Sample.table_a]) /\
  exists counts conn fs1 counts' conn' fs1',
    Merge.merge_inputs Sample.real_text
      (Merge.create_output_table "/data/merged.sqlite")
      (Merge.commit (Merge.create_output_table "/data/merged.sqlite") Sample.files)
      ["/data/a/QTS1.sqlite"; "/data/b/QTS2.sqlite"] []
    = (Ok counts, conn, fs1) /\
    Merge.merge_inputs Sample.real_text
      (Merge.create_output_table "/data/merged.sqlite")
      (Merge.commit (Merge.create_output_table "/data/merged.sqlite") Sample.files)
      ["/data/b/QTS2.sqlite"; "/data/a/QTS1.sqlite"] []
    = (Ok counts', conn', fs1') /\
    count_rows (Merge.rows conn) = count_rows (Merge.rows conn') /\
    (forall o, In o (Merge.rows conn) ->
       exists o', In o' (Merge.rows conn') /\
                  Merge.is_duplicate Sample.real_text (cols o') (cols o) = true).
Proof.
  assert (H1 : ~ In "/data/merged.sqlite"
                 ["/data/a/QTS1.sqlite"; "/data/b/QTS2.sqlite"]) by not_listed.
  assert (H2 : ~ In "/data/merged.sqlite"
                 ["/data/b/QTS2.sqlite"; "/data/a/QTS1.sqlite"]) by not_listed.
  assert (H3 : Forall2 (fun p s => Merge.attached_table Sample.files p = Ok s)
                 ["/data/a/QTS1.sqlite"; "/data/b/QTS2.sqlite"]
                 [Sample.table_a; Sample.table_b]) by repeat constructor.
  assert (H4 : Forall2 (fun p s => Merge.attached_table Sample.files p = Ok s)
                 ["/data/b/QTS2.sqlite"; "/data/a/QTS1.sqlite"]
                 [Sample.table_b; Sample.table_a]) by repeat constructor.
  assert (H5 : [Sample.table_a; Sample.table_b] ≡ₚ [Sample.table_b; Sample.table_a])
    by apply perm_swap.
  split; [exact (conj H1 (conj H2 (conj H3 (conj H4 H5)))) |].
  exact (merged_row_count_order_independent Sample.real_text "/data/merged.sqlite"
           Sample.files _ _ _ _ H1 H2 H3 H4 H5).
Defined.

Lemma X6_witness :
  "/data/inputs.txt" <> resolve "/data" (Merge.output_sqlite Sample.merge_args) /\
  (Merge.main Sample.real_text "/data" Sample.merge_args Sample.files).2
    !! "/data/inputs.txt"
  = Sample.files !! "/data/inputs.txt".
Proof.
  assert (H : "/data/inputs.txt"
              <> resolve "/data" (Merge.output_sqlite Sample.merge_args))
    by discriminate.
  split; [exact H |].
  exact (main_touches_only_output Sample.real_text "/data" Sample.merge_args
           Sample.files "/data/inputs.txt" H).
Defined.

Lemma X7_witness :
  (Merge.read_sqlite_paths "/data" Sample2.files_bad
     (resolve "/data" (Merge.input_list Sample2.bad_args))
   = Ok (["/data/a/QTS1.sqlite"] ++ "/data/e/QTS0.sqlite" :: ["/data/b/QTS2.sqlite"]) /\
   ~ In (resolve "/data" (Merge.output_sqlite Sample2.bad_args))
        (["/data/a/QTS1.sqlite"] ++ ["/data/e/QTS0.sqlite"]) /\
   Forall2 (fun p s => Merge.attached_table Sample2.files_bad p = Ok s)
           ["/data/a/QTS1.sqlite"] [Sample.table_a] /\
   Sample2.files_bad !! "/data/e/QTS0.sqlite"
   = Some (SqliteFile {| credible_set_table := None; indexes := [] |})) /\
  exists message,
    Merge.main Sample.real_text "/data" Sample2.bad_args Sample2.files_bad =
    (Raise (OperationalError message),
     <[resolve "/data" (Merge.output_sqlite Sample2.bad_args) :=
         SqliteFile {| credible_set_table :=
                         Some (merged_table Sample.real_text [Sample.table_a]);
                       indexes := ["uq_full_row_tmp"] |}]> Sample2.files_bad).
Proof.
  assert (H1 : Merge.read_sqlite_paths "/data" Sample2.files_bad
                 (resolve "/data" (Merge.input_list Sample2.bad_args))
               = Ok (["/data/a/QTS1.sqlite"] ++ "/data/e/QTS0.sqlite"
                       :: ["/data/b/QTS2.sqlite"])) by (by vm_compute).
  assert (H2 : ~ In (resolve "/data" (Merge.output_sqlite Sample2.bad_args))
                    (["/data/a/QTS1.sqlite"] ++ ["/data/e/QTS0.sqlite"]))
    by not_listed.
  assert (H3 : Forall2 (fun p s => Merge.attached_table Sample2.files_bad p = Ok s)
                 ["/data/a/QTS1.sqlite"] [Sample.table_a]) by repeat constructor.
  assert (H4 : Sample2.files_bad !! "/data/e/QTS0.sqlite"
               = Some (SqliteFile {| credible_set_table := None; indexes := [] |}))
    by reflexivity.
  split; [exact (conj H1 (conj H2 (conj H3 H4))) |].
  exact (failed_source_leaves_partial_merge Sample.real_text "/data"
           Sample2.bad_args Sample2.files_bad _ _ _ _ _ H1 H2 H3 H4 eq_refl).
Defined.

Lemma X8_witness :
  (Merge.read_sqlite_paths "/data" Sample.files "/data/inputs.txt" = Ok Sample.paths \/
   Extract.read_sqlite_paths "/data" Sample.files "/data/inputs.txt" = Ok Sample.paths) /\
  Sample.paths <> [] /\
  forall p, In p Sample.paths ->
            is_Some (Sample.files !! p) /\ is_absolute p = true.
Proof.
  assert (H : Merge.read_sqlite_paths "/data" Sample.files "/data/inputs.txt"
              = Ok Sample.paths \/
              Extract.read_sqlite_paths "/data" Sample.files "/data/inputs.txt"
              = Ok Sample.paths) by (left; exact sample_read).
  split; [exact H |].
  exact (read_paths_exist_and_absolute "/data" Sample.files "/data/inputs.txt"
           Sample.paths H).
Defined.

Lemma X9_witness :
  (is_absolute "/data" = true /\
   Sample2.files_missing !! resolve "/data" (Merge.input_list Sample2.missing_args)
   = Some (TextFile (["/data/a/QTS1.sqlite"] ++ "/data/x/QTS9.sqlite" :: ["not read"])) /\
   Merge.read_lines "/data" Sample2.files_missing ["/data/a/QTS1.sqlite"] []
   = Ok ["/data/a/QTS1.sqlite"] /\
   is_empty (strip "/data/x/QTS9.sqlite") = false /\
   Sample2.files_missing !! resolve "/data" (strip "/data/x/QTS9.sqlite") = None) /\
  Merge.main Sample.real_text "/data" Sample2.missing_args Sample2.files_missing =
  (Raise (ValueError "Input SQLite file does not exist: "
                     (resolve "/data" (strip "/data/x/QTS9.sqlite"))),
   Sample2.files_missing).
Proof.
  assert (H1 : is_absolute "/data" = true) by reflexivity.
  assert (H2 : Sample2.files_missing
                 !! resolve "/data" (Merge.input_list Sample2.missing_args)
               = Some (TextFile (["/data/a/QTS1.sqlite"]
                                   ++ "/data/x/QTS9.sqlite" :: ["not read"])))
    by reflexivity.
  assert (H3 : Merge.read_lines "/data" Sample2.files_missing
                 ["/data/a/QTS1.sqlite"] [] = Ok ["/data/a/QTS1.sqlite"])
    by (by vm_compute).
  assert (H4 : is_empty (strip "/data/x/QTS9.sqlite") = false) by reflexivity.
  assert (H5 : Sample2.files_missing !! resolve "/data" (strip "/data/x/QTS9.sqlite")
               = None) by (by vm_compute).
  split; [exact (conj H1 (conj H2 (conj H3 (conj H4 H5)))) |].
  exact (first_missing_path_stops_run Sample.real_text "/data" Sample2.missing_args
           Sample2.files_missing _ _ _ _ H1 H2 H3 H4 H5).
Defined.

Lemma sample_stored_perm : Sample.table_d ≡ₚ Sample2.table_d_stored.
Proof. apply Permutation_rev. Qed.

Lemma X10_witness :
  (Sample.table_d ≡ₚ Sample2.table_d_stored /\ primary_key Sample.table_d) /\
  Merge.insert_new_rows Sample.real_text (Merge.create_output_table "/o")
    Sample.table_d
  = Merge.insert_new_rows Sample.real_text (Merge.create_output_table "/o")
      Sample2.table_d_stored.
Proof.
  split; [exact (conj sample_stored_perm sample_primary_key) |].
  exact (insert_new_rows_storage_order Sample.real_text _ _ _
           sample_stored_perm sample_primary_key).
Defined.

Lemma X11_witness :
  (Sample.table_d ≡ₚ Sample2.table_d_stored /\ primary_key Sample.table_d) /\
  Extract.select_duplicates Sample.table_d
  = Extract.select_duplicates Sample2.table_d_stored.
Proof.
  split; [exact (conj sample_stored_perm sample_primary_key) |].
  exact (select_duplicates_storage_order _ _ sample_stored_perm
           sample_primary_key).
Defined.


Lemma X13_witness :
  In {| id := 1; cols := Sample.key 1 |}
     (Extract.select_duplicates Sample.table_d) /\
  length (Extract.partition_of {| id := 1; cols := Sample.key 1 |}
            (Extract.select_duplicates Sample.table_d)) = 2%nat /\
  (2 <= length (Extract.partition_of {| id := 1; cols := Sample.key 1 |}
                  Sample.table_d))%nat.
Proof.
  assert (H : In {| id := 1; cols := Sample.key 1 |}
                 (Extract.select_duplicates Sample.table_d)).
  { apply list_elem_of_In. by_compute. }
  split; [exact H |].
  exact (selected_rows_come_in_pairs Sample.table_d _ H).
Defined.

Lemma X14_witness :
  ("/data/d/QTS4.sqlite" <> "/out/01_data__d__duplicates.sqlite" /\
   Sample.files !! "/data/d/QTS4.sqlite" = Some (Sample.sqlite_file Sample.table_d)) /\
  Extract.extract_duplicates_for_file
    (Extract.extract_duplicates_for_file Sample.files "/data/d/QTS4.sqlite"
       "/out/01_data__d__duplicates.sqlite").2
    "/data/d/QTS4.sqlite" "/out/01_data__d__duplicates.sqlite"
  = Extract.extract_duplicates_for_file Sample.files "/data/d/QTS4.sqlite"
      "/out/01_data__d__duplicates.sqlite".
Proof.
  assert (H1 : "/data/d/QTS4.sqlite" <> "/out/01_data__d__duplicates.sqlite")
    by discriminate.
  assert (H2 : Sample.files !! "/data/d/QTS4.sqlite"
               = Some (Sample.sqlite_file Sample.table_d)) by reflexivity.
  split; [exact (conj H1 H2) |].
  exact (extraction_rerun_same Sample.files _ _ _ Sample.table_d H1 H2 eq_refl).
Defined.

Lemma sample_repeated_id :
  ~ NoDup (map id (Extract.select_duplicates Sample2.table_e)).
Proof. apply (proj1 (bool_decide_eq_false _)). by vm_compute. Qed.

Lemma X15_witness :
  ("/data/f/QTS5.sqlite" <> "/out/02_data__f__duplicates.sqlite" /\
   Sample2.files_repeated !! "/data/f/QTS5.sqlite"
   = Some (Sample.sqlite_file Sample2.table_e)) /\
  (Extract.extract_duplicates_for_file Sample2.files_repeated "/data/f/QTS5.sqlite"
     "/out/02_data__f__duplicates.sqlite").2 !! "/data/d/QTS4.sqlite"
  = Sample2.files_repeated !! "/data/d/QTS4.sqlite" /\
  Extract.extract_duplicates_for_file Sample2.files_repeated "/data/f/QTS5.sqlite"
    "/out/02_data__f__duplicates.sqlite"
  = (Raise (IntegrityError "UNIQUE constraint failed: credible_set_table.id"),
     <["/out/02_data__f__duplicates.sqlite" := Extract.output_file []]>
       Sample2.files_repeated).
Proof.
  assert (H1 : "/data/f/QTS5.sqlite" <> "/out/02_data__f__duplicates.sqlite")
    by discriminate.
  assert (H2 : Sample2.files_repeated !! "/data/f/QTS5.sqlite"
               = Some (Sample.sqlite_file Sample2.table_e)) by reflexivity.
  assert (H3 : "/data/d/QTS4.sqlite" <> "/out/02_data__f__duplicates.sqlite")
    by discriminate.
  split; [exact (conj H1 H2) |].
  destruct (extraction_touches_only_output Sample2.files_repeated
              "/data/f/QTS5.sqlite" "/out/02_data__f__duplicates.sqlite"
              _ Sample2.table_e H1 H2 eq_refl) as (Hframe & Hraise & _).
  split; [exact (Hframe _ H3) | exact (Hraise sample_repeated_id)].
Defined.

Lemma X16_witness :
  1 <> 2 /\
  ExtractMain.joinpath "/out" (ExtractMain.output_name_for "/data/a/QTS1.sqlite" 1) <>
  ExtractMain.joinpath "/out" (ExtractMain.output_name_for "/data/a/QTS1.sqlite" 2).
Proof.
  assert (H : 1 <> 2) by discriminate.
  split; [exact H |].
  exact (output_files_differ_by_index "/out" _ _ 1 2 H).
Defined.

Lemma sample_extract_sources :
  Forall2 (source_with_table Sample2.files_extract) Sample2.extract_paths
          [Sample.table_d; Sample.table_a].
Proof.
  constructor; [| constructor; [| constructor]].
  - eexists. split; [reflexivity |]. split; [reflexivity | exact sample_primary_key].
  - eexists. split; [reflexivity |]. split; [reflexivity | exact sample_pk_a].
Qed.

Lemma X17_witness :
  (Extract.read_sqlite_paths "/data" Sample2.files_extract
     (resolve "/data" (ExtractMain.input_list Sample2.extract_args))
   = Ok Sample2.extract_paths /\
   Forall2 (source_with_table Sample2.files_extract) Sample2.extract_paths
           [Sample.table_d; Sample.table_a] /\
   (forall o,
      In o (output_paths (resolve "/data" (ExtractMain.output_dir Sample2.extract_args))
              1 Sample2.extract_paths) ->
      ~ In o Sample2.extract_paths)) /\
  exists fs',
    ExtractMain.main "/data" Sample2.extract_args Sample2.files_extract
      = (Ok (rows_to_extract [Sample.table_d; Sample.table_a]), fs') /\
    Z.even (rows_to_extract [Sample.table_d; Sample.table_a]) = true /\
    (forall p,
       ~ In p (output_paths
                 (resolve "/data" (ExtractMain.output_dir Sample2.extract_args))
                 1 Sample2.extract_paths) ->
       fs' !! p = Sample2.files_extract !! p) /\
    Forall2 (fun o t => fs' !! o =
                        Some (Extract.output_file (Extract.select_duplicates t)))
            (output_paths
               (resolve "/data" (ExtractMain.output_dir Sample2.extract_args))
               1 Sample2.extract_paths)
            [Sample.table_d; Sample.table_a].
Proof.
  assert (H1 : Extract.read_sqlite_paths "/data" Sample2.files_extract
                 (resolve "/data" (ExtractMain.input_list Sample2.extract_args))
               = Ok Sample2.extract_paths) by (by vm_compute).
  assert (H3 : forall o,
             In o (output_paths
                     (resolve "/data" (ExtractMain.output_dir Sample2.extract_args))
                     1 Sample2.extract_paths) ->
             ~ In o Sample2.extract_paths).
  { intros o Ho. vm_compute in Ho.
    destruct Ho as [<- | [<- | []]]; not_listed. }
  split; [exact (conj H1 (conj sample_extract_sources H3)) |].
  exact (extraction_run_total "/data" Sample2.extract_args Sample2.files_extract
           _ _ H1 sample_extract_sources H3).
Defined.

Lemma X18_witness :
  (Sample2.files_written !! "/data/list.txt"
   = Some (TextFile (ListPaths.readlines (ListPaths.write_list Sample.paths))) /\
   Forall (fun p => resolved p = true /\ strip p = p /\ one_line p = true /\
                    is_Some (Sample2.files_written !! p)) Sample.paths) /\
  Merge.read_sqlite_paths "/data" Sample2.files_written "/data/list.txt"
    = Ok Sample.paths /\
  Extract.read_sqlite_paths "/data" Sample2.files_written "/data/list.txt"
    = Merge.read_sqlite_paths "/data" Sample2.files_written "/data/list.txt".
Proof.
  assert (H1 : Sample2.files_written !! "/data/list.txt"
               = Some (TextFile (ListPaths.readlines
                                   (ListPaths.write_list Sample.paths))))
    by reflexivity.
  assert (H2 : Forall (fun p => resolved p = true /\ strip p = p /\
                               one_line p = true /\
                               is_Some (Sample2.files_written !! p)) Sample.paths).
  { unfold Sample.paths.
    repeat (apply List.Forall_cons;
            [refine (conj eq_refl (conj eq_refl (conj eq_refl _)));
             eexists; reflexivity |]).
    apply List.Forall_nil. }
  split; [exact (conj H1 H2) |].
  exact (written_list_read_back "/data" Sample2.files_written "/data/list.txt"
           Sample.paths H1 H2).
Defined.

Lemma X19_witness :
  (Extract.read_sqlite_paths "/data" Sample2.files_repeated
     (resolve "/data" (ExtractMain.input_list Sample2.extract_args))
   = Ok (["/data/d/QTS4.sqlite"] ++ "/data/f/QTS5.sqlite" :: ["/data/a/QTS1.sqlite"]) /\
   Forall2 (source_with_table Sample2.files_repeated)
           ["/data/d/QTS4.sqlite"] [Sample.table_d] /\
   Sample2.files_repeated !! "/data/f/QTS5.sqlite"
   = Some (Sample.sqlite_file Sample2.table_e) /\
   ~ NoDup (map id (Extract.select_duplicates Sample2.table_e)) /\
   (forall o,
      In o (output_paths (resolve "/data" (ExtractMain.output_dir Sample2.extract_args))
              1 (["/data/d/QTS4.sqlite"] ++ ["/data/f/QTS5.sqlite"])) ->
      ~ In o (["/data/d/QTS4.sqlite"] ++ ["/data/f/QTS5.sqlite"]))) /\
  exists fs',
    ExtractMain.main "/data" Sample2.extract_args Sample2.files_repeated =
      (Raise (IntegrityError "UNIQUE constraint failed: credible_set_table.id"),
       fs') /\
    Forall2 (fun o t => fs' !! o =
                        Some (Extract.output_file (Extract.select_duplicates t)))
            (output_paths
               (resolve "/data" (ExtractMain.output_dir Sample2.extract_args))
               1 ["/data/d/QTS4.sqlite"])
            [Sample.table_d] /\
    fs' !! ExtractMain.joinpath
             (resolve "/data" (ExtractMain.output_dir Sample2.extract_args))
             (ExtractMain.output_name_for "/data/f/QTS5.sqlite"
                (1 + Z.of_nat (length ["/data/d/QTS4.sqlite"])))
      = Some (Extract.output_file []) /\
    (forall p,
       ~ In p (output_paths
                 (resolve "/data" (ExtractMain.output_dir Sample2.extract_args))
                 1 (["/data/d/QTS4.sqlite"] ++ ["/data/f/QTS5.sqlite"])) ->
       fs' !! p = Sample2.files_repeated !! p).
Proof.
  assert (H1 : Extract.read_sqlite_paths "/data" Sample2.files_repeated
                 (resolve "/data" (ExtractMain.input_list Sample2.extract_args))
               = Ok (["/data/d/QTS4.sqlite"] ++ "/data/f/QTS5.sqlite"
                       :: ["/data/a/QTS1.sqlite"])) by (by vm_compute).
  assert (H2 : Forall2 (source_with_table Sample2.files_repeated)
                 ["/data/d/QTS4.sqlite"] [Sample.table_d]).
  { constructor; [| constructor]. eexists.
    split; [reflexivity |]. split; [reflexivity | exact sample_primary_key]. }
  assert (H3 : Sample2.files_repeated !! "/data/f/QTS5.sqlite"
               = Some (Sample.sqlite_file Sample2.table_e)) by reflexivity.
  assert (H5 : forall o,
             In o (output_paths
                     (resolve "/data" (ExtractMain.output_dir Sample2.extract_args))
                     1 (["/data/d/QTS4.sqlite"] ++ ["/data/f/QTS5.sqlite"])) ->
             ~ In o (["/data/d/QTS4.sqlite"] ++ ["/data/f/QTS5.sqlite"])).
  { intros o Ho. vm_compute in Ho.
    destruct Ho as [<- | [<- | []]]; not_listed. }
  split; [exact (conj H1 (conj H2 (conj H3 (conj sample_repeated_id H5)))) |].
  exact (extraction_run_stops_at_failure "/data" Sample2.extract_args
           Sample2.files_repeated _ _ _ _ _ Sample2.table_e
           H1 H2 H3 eq_refl sample_repeated_id H5).
Defined.

Lemma X20_witness :
  ("/data/e/QTS0.sqlite" <> "/out/01_data__e__duplicates.sqlite" /\
   Sample2.files_bad !! "/data/e/QTS0.sqlite"
   = Some (SqliteFile {| credible_set_table := None; indexes := [] |})) /\
  Extract.extract_duplicates_for_file Sample2.files_bad "/data/e/QTS0.sqlite"
    "/out/01_data__e__duplicates.sqlite" =
  (Ok 0, <["/out/01_data__e__duplicates.sqlite" :=
             SqliteFile {| credible_set_table := Some []; indexes := [] |}]>
           Sample2.files_bad).
Proof.
  assert (H1 : "/data/e/QTS0.sqlite" <> "/out/01_data__e__duplicates.sqlite")
    by discriminate.
  assert (H2 : Sample2.files_bad !! "/data/e/QTS0.sqlite"
               = Some (SqliteFile {| credible_set_table := None; indexes := [] |}))
    by reflexivity.
  split; [exact (conj H1 H2) |].
  exact (source_without_table_extracts_nothing Sample2.files_bad _ _ _ H1 H2 eq_refl).
Defined.
